(** * RealtimeVoiceClient: a shallow embedding of
      client/src/services/RealtimeVoiceClient.ts

    The class is a single-threaded object driven by a host event loop.  It is
    modelled as a state-and-exception monad over a system state made of
    - the private fields of the client object ([Client]),
    - the platform objects the client holds references to ([World]): media
      tracks, peer connections, data channels, audio elements, audio
      contexts, scheduled animation frames and timers, addressed by handle,
    - the trace of everything observable from outside ([Obs]): callback
      invocations, console output, data-channel sends, HTTP requests and the
      operations on the playback element.

    Modelling conventions:
    - a platform object is allocated by appending to its store; its handle is
      its index, so a reference held by the client and the object itself are
      distinct and a dropped reference leaves the object alive;
    - the callbacks of the configuration are observers: an invocation is
      recorded in the trace, it does not throw and does not call back into
      the client;
    - [JSON.parse], [JSON.stringify] and the printing of numbers belong to
      the platform and are parameters of the development;
    - a number is an IEEE 754 value ([spec_float]); only its truthiness and
      its conversion to a string matter to the client;
    - the conversion of a value to a string, in a template literal or in
      [new Error], throws a TypeError for an object that has a [toString]
      member of its own and for an array that holds one ([unprintable]);
    - the platform calls that cannot fail ([track.stop], [pc.close],
      [dc.close], [audio.pause], [cancelAnimationFrame], [dc.send] on an open
      channel) are total functions on the stores; those that can fail take
      their outcome from [ConnectEnv];
    - every sender of a peer connection carries the track it was created
      for, and a remote stream is known by an identifier;
    - an [await] suspends [connect]; the tasks the event loop runs meanwhile
      and the outcome of the awaited operation are supplied by [ConnectEnv].
      A second [connect] overlapping a suspended one is not among them.

    The two routes of api/server/routes/realtime.js, which the client asks
    for its credential, are modelled in [Module realtime] as handlers in an
    output-and-exception monad: what a request lets the outside observe
    (the key lookup, the upstream request, the reply, the calls of
    [console]) is the output; the environment variables, the request and
    the outcomes of the awaited services are inputs. *)

From Stdlib Require Import SpecFloat Ascii.
From stdpp Require Import base option list strings pretty.

Set Warnings "-register-all".
Local Open Scope string_scope.

(** ** JavaScript values *)

(** Values of type [any] that reach the client: JSON data and [undefined]. *)
Inductive Value :=
| VUndefined
| VNull
| VBool (b : bool)
| VNum (n : spec_float)
| VStr (s : string)
| VArr (l : list Value)
| VObj (fields : list (string * Value)).

(** Exceptions and promise rejections. *)
Inductive Exn :=
| Error (message : string)          (* new Error(message) *)
| TypeError (message : string)      (* raised by the language *)
| SyntaxError (message : string)    (* raised by JSON.parse *)
| DOMException (name : string).     (* raised or rejected by the platform *)

Inductive Result (A : Type) :=
| Ok (a : A)
| Throw (e : Exn).
Arguments Ok {A} a.
Arguments Throw {A} e.

#[global] Instance Result_ret : MRet Result := fun A a => Ok a.
#[global] Instance Result_bind : MBind Result := fun A B f r =>
  match r with
  | Ok a => f a
  | Throw e => Throw e
  end.

(** ToBoolean. *)
Definition truthy (v : Value) : bool :=
  match v with
  | VUndefined | VNull => false
  | VBool b => b
  | VNum (S754_zero _) | VNum S754_nan => false
  | VNum _ => true
  | VStr s => negb (String.eqb s EmptyString)
  | VArr _ | VObj _ => true
  end.

Fixpoint assoc (p : string) (fields : list (string * Value)) : Value :=
  match fields with
  | [] => VUndefined
  | (k, v) :: rest => if String.eqb k p then v else assoc p rest
  end.

(** [v.p] for the property names the client reads ([type], [item], [role],
    [formatted], [transcript], [delta], [call_id], [name], [arguments],
    [error], [message], [client_secret], [value], [proxy_url]); none of them
    exists on a primitive or on an array. *)
Definition get (v : Value) (p : string) : Result Value :=
  match v with
  | VUndefined | VNull =>
      Throw (TypeError ("Cannot read properties of null or undefined (reading '" +:+ p +:+ "')"))
  | VObj fields => Ok (assoc p fields)
  | _ => Ok VUndefined
  end.

(** [v?.p] *)
Definition get_opt (v : Value) (p : string) : Result Value :=
  match v with
  | VUndefined | VNull => Ok VUndefined
  | _ => get v p
  end.

(** [a || b] and [a && b] on values whose operands are already evaluated. *)
Definition or_else (a b : Value) : Value := if truthy a then a else b.

(** Whether the conversion of a value to a string throws a TypeError.  It
    does for an object with an own [toString] member (a member of a JSON
    value is never callable, and the inherited [valueOf] returns the object
    itself) and for an array one of whose elements it throws for. *)
Fixpoint unprintable (v : Value) : bool :=
  match v with
  | VObj fields => existsb (fun kv => String.eqb (fst kv) "toString") fields
  | VArr l => existsb unprintable l
  | _ => false
  end.

(** The conversion to a string of a value whose text is not used
    afterwards (an argument of [console.log]). *)
Definition printable (v : Value) : Result unit :=
  if unprintable v then Throw (TypeError "Cannot convert object to primitive value")
  else Ok tt.

(** [s.replace(/\/v1\/?$/, '')] on a string. *)
Definition strip_v1 (s : string) : string :=
  let n := String.length s in
  if (4 <=? n)%nat && String.eqb (String.substring (n - 4) 4 s) "/v1/" then String.substring 0 (n - 4) s
  else if (3 <=? n)%nat && String.eqb (String.substring (n - 3) 3 s) "/v1" then String.substring 0 (n - 3) s
  else s.

Example strip_v1_plain : strip_v1 "https://api.openai.com" = "https://api.openai.com".
Proof. reflexivity. Qed.
Example strip_v1_slash : strip_v1 "https://proxy.example/v1/" = "https://proxy.example".
Proof. reflexivity. Qed.
Example strip_v1_noslash : strip_v1 "https://proxy.example/v1" = "https://proxy.example".
Proof. reflexivity. Qed.

(** ** The client object and the platform objects it refers to *)

Inductive ConnectionState := disconnected | connecting | connected | error.

Inductive Role := user | assistant.

(** [RealtimeVoiceConfig]; an optional field that is absent is [None], a
    callback is represented by its presence. *)
Record RealtimeVoiceConfig := {
  voice : option string;
  language : option string;
  systemPrompt : option string;
  initialInstructions : option string;
  authToken : option string;
  tools : option (list Value);
  onConnectionStateChange : bool;
  onTranscript : bool;
  onTranscriptChunk : bool;
  onUserTranscript : bool;
  onResponseStart : bool;
  onError : bool;
  onToolCall : bool;
  onMicrophoneLevel : bool;
  onMicrophoneSpectrum : bool;
  onPlaybackLevel : bool;
  onPlaybackSpectrum : bool
}.

(** The private fields of [RealtimeVoiceClient].  References are handles
    into the stores of [World]; [localStream] is the list of the tracks of
    the captured stream; an analyser is identified by the audio context it
    was created from. *)
Record Client := {
  peerConnection : option nat;
  dataChannel : option nat;
  localStream : option (list nat);
  audioElement : option nat;
  connectionState : ConnectionState;
  microphoneMuted : bool;
  playbackMuted : bool;
  audioContext : option nat;
  inputAnalyser : option nat;
  outputAnalyser : option nat;
  animationFrameId : option nat;
  config : RealtimeVoiceConfig;
  conversationId : option string
}.

(** MediaStreamTrack: [track_live] is [readyState === 'live']. *)
Record Track := { track_live : bool; track_enabled : bool }.

Inductive IceState :=
| ice_new | ice_checking | ice_connected | ice_completed
| ice_failed | ice_disconnected | ice_closed.

(** RTCPeerConnection: [pc_senders] are the tracks of its senders. *)
Record PeerConnection := {
  pc_closed : bool;
  pc_ice : IceState;
  pc_senders : list nat;
  pc_local : option string;
  pc_remote : option string
}.

Inductive ReadyState := rs_connecting | rs_open | rs_closing | rs_closed.

(** RTCDataChannel, created on the peer connection [dc_pc]. *)
Record DataChannel := { dc_ready : ReadyState; dc_pc : nat }.

(** HTMLAudioElement; [au_src] is the remote stream attached as [srcObject].
    Whether the element is playing is decided by the platform (autoplay,
    arrival of media data); the calls to [pause] are recorded in the trace. *)
Record AudioElement := {
  au_autoplay : bool;
  au_muted : bool;
  au_src : option nat
}.

Record AudioContext := { ctx_closed : bool }.

Record World := {
  tracks : list Track;
  conns : list PeerConnection;
  channels : list DataChannel;
  audios : list AudioElement;
  contexts : list AudioContext;
  frames : list nat;          (* animation frames requested and not yet run *)
  next_frame : nat;           (* the id the next requestAnimationFrame returns *)
  timers : nat                (* greeting timers set and not yet fired *)
}.

(** What the outside observes, in order. *)
Inductive Obs :=
| Console (level text : string)                 (* first argument of console.<level> *)
| CbConnectionStateChange (st : ConnectionState)
| CbTranscript (transcript : Value) (role : Role)
| CbTranscriptChunk (chunk : Value)
| CbUserTranscript (transcript : Value)
| CbResponseStart
| CbError (e : Exn)
| CbToolCall (callId name args : Value)
| CbMicrophoneLevel
| CbMicrophoneSpectrum
| CbPlaybackLevel
| CbPlaybackSpectrum
| Sent (dc : nat) (data : string)               (* dataChannel.send(data) *)
| Fetch (url : string) (authorization : option string) (body : string)
| AudioPause (a : nat)                          (* audioElement.pause() *)
| AudioSetSrc (a : nat) (src : option nat).     (* audioElement.srcObject = src *)

Record Sys := { client : Client; world : World; trace : list Obs }.

(** ** The monad of methods: state that survives an exception *)

Definition M (A : Type) : Type := Sys -> Result A * Sys.

#[global] Instance M_ret : MRet M := fun A a s => (Ok a, s).
#[global] Instance M_bind : MBind M := fun A B f m s =>
  match m s with
  | (Ok a, s') => f a s'
  | (Throw e, s') => (Throw e, s')
  end.

Definition throw {A} (e : Exn) : M A := fun s => (Throw e, s).
Definition gets {A} (f : Sys -> A) : M A := fun s => (Ok (f s), s).
Definition this {A} (f : Client -> A) : M A := gets (fun s => f (client s)).
Definition lift {A} (r : Result A) : M A := fun s => (r, s).
Definition emit (o : Obs) : M unit :=
  fun s => (Ok tt, {| client := client s; world := world s; trace := trace s ++ [o] |}).
Definition modify_client (f : Client -> Client) : M unit :=
  fun s => (Ok tt, {| client := f (client s); world := world s; trace := trace s |}).
Definition modify_world (f : World -> World) : M unit :=
  fun s => (Ok tt, {| client := client s; world := f (world s); trace := trace s |}).
Definition when (b : bool) (m : M unit) : M unit := if b then m else mret tt.

(** [try { body } catch (e) { handler e }] *)
Definition try_catch {A} (body : M A) (handler : Exn -> M A) : M A :=
  fun s => match body s with
           | (Ok a, s') => (Ok a, s')
           | (Throw e, s') => handler e s'
           end.

(** The state a method leaves behind, whatever its completion. *)
Definition exec {A} (m : M A) (s : Sys) : Sys := snd (m s).

Fixpoint forEach {A} (f : A -> M unit) (l : list A) : M unit :=
  match l with
  | [] => mret tt
  | x :: rest => f x ;; forEach f rest
  end.

(** ** Field updates *)

(** [this.f = v] *)
Definition set_peerConnection v (c : Client) : Client :=
  {| peerConnection := v; dataChannel := dataChannel c; localStream := localStream c;
     audioElement := audioElement c; connectionState := connectionState c;
     microphoneMuted := microphoneMuted c; playbackMuted := playbackMuted c;
     audioContext := audioContext c; inputAnalyser := inputAnalyser c;
     outputAnalyser := outputAnalyser c; animationFrameId := animationFrameId c;
     config := config c; conversationId := conversationId c |}.

Definition set_dataChannel v (c : Client) : Client :=
  {| peerConnection := peerConnection c; dataChannel := v;
     localStream := localStream c; audioElement := audioElement c;
     connectionState := connectionState c; microphoneMuted := microphoneMuted c;
     playbackMuted := playbackMuted c; audioContext := audioContext c;
     inputAnalyser := inputAnalyser c; outputAnalyser := outputAnalyser c;
     animationFrameId := animationFrameId c; config := config c;
     conversationId := conversationId c |}.

Definition set_localStream v (c : Client) : Client :=
  {| peerConnection := peerConnection c; dataChannel := dataChannel c;
     localStream := v; audioElement := audioElement c;
     connectionState := connectionState c; microphoneMuted := microphoneMuted c;
     playbackMuted := playbackMuted c; audioContext := audioContext c;
     inputAnalyser := inputAnalyser c; outputAnalyser := outputAnalyser c;
     animationFrameId := animationFrameId c; config := config c;
     conversationId := conversationId c |}.

Definition set_audioElement v (c : Client) : Client :=
  {| peerConnection := peerConnection c; dataChannel := dataChannel c;
     localStream := localStream c; audioElement := v;
     connectionState := connectionState c; microphoneMuted := microphoneMuted c;
     playbackMuted := playbackMuted c; audioContext := audioContext c;
     inputAnalyser := inputAnalyser c; outputAnalyser := outputAnalyser c;
     animationFrameId := animationFrameId c; config := config c;
     conversationId := conversationId c |}.

Definition set_connectionState v (c : Client) : Client :=
  {| peerConnection := peerConnection c; dataChannel := dataChannel c;
     localStream := localStream c; audioElement := audioElement c;
     connectionState := v; microphoneMuted := microphoneMuted c;
     playbackMuted := playbackMuted c; audioContext := audioContext c;
     inputAnalyser := inputAnalyser c; outputAnalyser := outputAnalyser c;
     animationFrameId := animationFrameId c; config := config c;
     conversationId := conversationId c |}.

Definition set_microphoneMuted v (c : Client) : Client :=
  {| peerConnection := peerConnection c; dataChannel := dataChannel c;
     localStream := localStream c; audioElement := audioElement c;
     connectionState := connectionState c; microphoneMuted := v;
     playbackMuted := playbackMuted c; audioContext := audioContext c;
     inputAnalyser := inputAnalyser c; outputAnalyser := outputAnalyser c;
     animationFrameId := animationFrameId c; config := config c;
     conversationId := conversationId c |}.

Definition set_playbackMuted v (c : Client) : Client :=
  {| peerConnection := peerConnection c; dataChannel := dataChannel c;
     localStream := localStream c; audioElement := audioElement c;
     connectionState := connectionState c; microphoneMuted := microphoneMuted c;
     playbackMuted := v; audioContext := audioContext c;
     inputAnalyser := inputAnalyser c; outputAnalyser := outputAnalyser c;
     animationFrameId := animationFrameId c; config := config c;
     conversationId := conversationId c |}.

Definition set_audioContext v (c : Client) : Client :=
  {| peerConnection := peerConnection c; dataChannel := dataChannel c;
     localStream := localStream c; audioElement := audioElement c;
     connectionState := connectionState c; microphoneMuted := microphoneMuted c;
     playbackMuted := playbackMuted c; audioContext := v;
     inputAnalyser := inputAnalyser c; outputAnalyser := outputAnalyser c;
     animationFrameId := animationFrameId c; config := config c;
     conversationId := conversationId c |}.

Definition set_inputAnalyser v (c : Client) : Client :=
  {| peerConnection := peerConnection c; dataChannel := dataChannel c;
     localStream := localStream c; audioElement := audioElement c;
     connectionState := connectionState c; microphoneMuted := microphoneMuted c;
     playbackMuted := playbackMuted c; audioContext := audioContext c;
     inputAnalyser := v; outputAnalyser := outputAnalyser c;
     animationFrameId := animationFrameId c; config := config c;
     conversationId := conversationId c |}.

Definition set_outputAnalyser v (c : Client) : Client :=
  {| peerConnection := peerConnection c; dataChannel := dataChannel c;
     localStream := localStream c; audioElement := audioElement c;
     connectionState := connectionState c; microphoneMuted := microphoneMuted c;
     playbackMuted := playbackMuted c; audioContext := audioContext c;
     inputAnalyser := inputAnalyser c; outputAnalyser := v;
     animationFrameId := animationFrameId c; config := config c;
     conversationId := conversationId c |}.

Definition set_animationFrameId v (c : Client) : Client :=
  {| peerConnection := peerConnection c; dataChannel := dataChannel c;
     localStream := localStream c; audioElement := audioElement c;
     connectionState := connectionState c; microphoneMuted := microphoneMuted c;
     playbackMuted := playbackMuted c; audioContext := audioContext c;
     inputAnalyser := inputAnalyser c; outputAnalyser := outputAnalyser c;
     animationFrameId := v; config := config c; conversationId := conversationId c |}.

Definition set_conversationId v (c : Client) : Client :=
  {| peerConnection := peerConnection c; dataChannel := dataChannel c;
     localStream := localStream c; audioElement := audioElement c;
     connectionState := connectionState c; microphoneMuted := microphoneMuted c;
     playbackMuted := playbackMuted c; audioContext := audioContext c;
     inputAnalyser := inputAnalyser c; outputAnalyser := outputAnalyser c;
     animationFrameId := animationFrameId c; config := config c; conversationId := v |}.

(** The stores of the platform. *)
Definition set_tracks v (w : World) : World :=
  {| tracks := v; conns := conns w; channels := channels w; audios := audios w;
     contexts := contexts w; frames := frames w; next_frame := next_frame w;
     timers := timers w |}.

Definition set_conns v (w : World) : World :=
  {| tracks := tracks w; conns := v; channels := channels w; audios := audios w;
     contexts := contexts w; frames := frames w; next_frame := next_frame w;
     timers := timers w |}.

Definition set_channels v (w : World) : World :=
  {| tracks := tracks w; conns := conns w; channels := v; audios := audios w;
     contexts := contexts w; frames := frames w; next_frame := next_frame w;
     timers := timers w |}.

Definition set_audios v (w : World) : World :=
  {| tracks := tracks w; conns := conns w; channels := channels w; audios := v;
     contexts := contexts w; frames := frames w; next_frame := next_frame w;
     timers := timers w |}.

Definition set_contexts v (w : World) : World :=
  {| tracks := tracks w; conns := conns w; channels := channels w;
     audios := audios w; contexts := v; frames := frames w;
     next_frame := next_frame w; timers := timers w |}.

Definition set_frames v (w : World) : World :=
  {| tracks := tracks w; conns := conns w; channels := channels w;
     audios := audios w; contexts := contexts w; frames := v;
     next_frame := next_frame w; timers := timers w |}.

Definition set_next_frame v (w : World) : World :=
  {| tracks := tracks w; conns := conns w; channels := channels w;
     audios := audios w; contexts := contexts w; frames := frames w; next_frame := v;
     timers := timers w |}.

Definition set_timers v (w : World) : World :=
  {| tracks := tracks w; conns := conns w; channels := channels w;
     audios := audios w; contexts := contexts w; frames := frames w;
     next_frame := next_frame w; timers := v |}.

(** ** Platform operations on the stores *)

Definition fresh_track : Track := {| track_live := true; track_enabled := true |}.

(** [track.stop()] *)
Definition track_stop (t : nat) (w : World) : World :=
  set_tracks (alter (fun tr => {| track_live := false; track_enabled := track_enabled tr |}) t
                (tracks w)) w.

(** [track.enabled = b] *)
Definition track_enable (b : bool) (t : nat) (w : World) : World :=
  set_tracks (alter (fun tr => {| track_live := track_live tr; track_enabled := b |}) t
                (tracks w)) w.

(** The stream [getUserMedia] resolves with: [n] new live tracks. *)
Definition new_stream (n : nat) (w : World) : list nat * World :=
  (seq (length (tracks w)) n, set_tracks (tracks w ++ replicate n fresh_track) w).

Definition fresh_conn : PeerConnection :=
  {| pc_closed := false; pc_ice := ice_new; pc_senders := [];
     pc_local := None; pc_remote := None |}.

(** [pc.addTrack(track, stream)] *)
Definition add_sender (t : nat) (pc : PeerConnection) : PeerConnection :=
  {| pc_closed := pc_closed pc; pc_ice := pc_ice pc; pc_senders := pc_senders pc ++ [t];
     pc_local := pc_local pc; pc_remote := pc_remote pc |}.

Definition set_ice (st : IceState) (pc : PeerConnection) : PeerConnection :=
  {| pc_closed := pc_closed pc; pc_ice := st; pc_senders := pc_senders pc;
     pc_local := pc_local pc; pc_remote := pc_remote pc |}.

Definition set_local (sdp : string) (pc : PeerConnection) : PeerConnection :=
  {| pc_closed := pc_closed pc; pc_ice := pc_ice pc; pc_senders := pc_senders pc;
     pc_local := Some sdp; pc_remote := pc_remote pc |}.

Definition set_remote (sdp : string) (pc : PeerConnection) : PeerConnection :=
  {| pc_closed := pc_closed pc; pc_ice := pc_ice pc; pc_senders := pc_senders pc;
     pc_local := pc_local pc; pc_remote := Some sdp |}.

Definition closed_conn (pc : PeerConnection) : PeerConnection :=
  {| pc_closed := true; pc_ice := ice_closed; pc_senders := pc_senders pc;
     pc_local := pc_local pc; pc_remote := pc_remote pc |}.

Definition set_ready (r : ReadyState) (dc : DataChannel) : DataChannel :=
  {| dc_ready := r; dc_pc := dc_pc dc |}.

(** [pc.close()]: the connection is closed and so are its data channels. *)
Definition conn_close (p : nat) (w : World) : World :=
  set_channels
    ((fun dc => if Nat.eqb (dc_pc dc) p then set_ready rs_closed dc else dc) <$> channels w)
    (set_conns (alter closed_conn p (conns w)) w).

(** [dc.close()]: a channel that is connecting or open starts closing. *)
Definition channel_close (d : nat) (w : World) : World :=
  set_channels
    (alter (fun dc => match dc_ready dc with
                      | rs_connecting | rs_open => set_ready rs_closing dc
                      | _ => dc
                      end) d (channels w)) w.

Definition fresh_audio : AudioElement :=
  {| au_autoplay := false; au_muted := false; au_src := None |}.

Definition audio_autoplay (b : bool) (a : nat) (w : World) : World :=
  set_audios (alter (fun au => {| au_autoplay := b; au_muted := au_muted au;
                                  au_src := au_src au |}) a (audios w)) w.

Definition audio_muted (b : bool) (a : nat) (w : World) : World :=
  set_audios (alter (fun au => {| au_autoplay := au_autoplay au; au_muted := b;
                                  au_src := au_src au |}) a (audios w)) w.

Definition audio_src (src : option nat) (a : nat) (w : World) : World :=
  set_audios (alter (fun au => {| au_autoplay := au_autoplay au; au_muted := au_muted au;
                                  au_src := src |}) a (audios w)) w.

(** [audioContext.close()] *)
Definition context_close (c : nat) (w : World) : World :=
  set_contexts (alter (fun _ => {| ctx_closed := true |}) c (contexts w)) w.

(** [requestAnimationFrame]: the id returned and the world with the frame pending. *)
Definition request_frame (w : World) : nat * World :=
  (next_frame w, set_next_frame (S (next_frame w)) (set_frames (frames w ++ [next_frame w]) w)).

(** [cancelAnimationFrame(id)] *)
Definition cancel_frame (id : nat) (w : World) : World :=
  set_frames (filter (fun i => i <> id) (frames w)) w.

(** [dc.readyState === 'open'] for the channel a reference points to. *)
Definition is_open (w : World) (d : nat) : bool :=
  match channels w !! d with
  | Some dc => match dc_ready dc with rs_open => true | _ => false end
  | None => false
  end.

(** ** The methods of [RealtimeVoiceClient] *)

Module RealtimeVoiceClient.

Section Methods.

(** [JSON.parse] ([None]: it throws a SyntaxError), [JSON.stringify] and the
    conversion of a number to a string, as the platform provides them. *)
Variable JSON_parse : string -> option Value.
Variable JSON_stringify : Value -> string.
Variable Number_toString : spec_float -> string.

(** The text ToString yields, as applied by template literals, [new Error]
    and [JSON.parse], when it yields one; [to_string] below adds the case
    in which it throws. *)
Fixpoint ToString (v : Value) : string :=
  match v with
  | VUndefined => "undefined"
  | VNull => "null"
  | VBool b => if b then "true" else "false"
  | VNum n => Number_toString n
  | VStr s => s
  | VArr l => String.concat ","
                (map (fun x => match x with
                               | VUndefined | VNull => EmptyString
                               | _ => ToString x
                               end) l)
  | VObj _ => "[object Object]"
  end.

(** ToString as a template literal and [new Error(v)] apply it. *)
Definition to_string (v : Value) : Result string :=
  if unprintable v then Throw (TypeError "Cannot convert object to primitive value")
  else Ok (ToString v).

Definition parse (text : string) : M Value :=
  match JSON_parse text with
  | Some v => mret v
  | None => throw (SyntaxError "JSON.parse")
  end.

(** [v === 'lit'] *)
Definition is_str (v : Value) (lit : string) : bool :=
  match v with
  | VStr s => String.eqb s lit
  | _ => false
  end.

Definition of_option (o : option string) : Value :=
  match o with
  | Some s => VStr s
  | None => VUndefined
  end.

Definition cfg {A} (f : RealtimeVoiceConfig -> A) : M A := this (fun c => f (config c)).

Definition updateConnectionState (state : ConnectionState) : M unit :=
  modify_client (set_connectionState state) ;;
  cb ← cfg onConnectionStateChange;
  when cb (emit (CbConnectionStateChange state)).

Definition handleError (e : Exn) : M unit :=
  emit (Console "error" "RealtimeVoiceClient error:") ;;
  cb ← cfg onError;
  when cb (emit (CbError e)).

Definition sendJson (data : Value) : M unit :=
  dc ← this dataChannel;
  match dc with
  | Some d =>
      ready ← gets (fun s => is_open (world s) d);
      when ready (emit (Sent d (JSON_stringify data)))
  | None => mret tt
  end.

(** The blocks of [disconnect], named after the comment that heads each. *)

(* Stop audio analysis *)
Definition stop_audio_analysis : M unit :=
  frame ← this animationFrameId;
  match frame with
  | Some (S _ as id) =>
      modify_world (cancel_frame id) ;;
      modify_client (set_animationFrameId None)
  | _ => mret tt
  end.

(* Close audio context *)
Definition close_audio_context : M unit :=
  ctx ← this audioContext;
  match ctx with
  | Some c =>
      modify_world (context_close c) ;;
      modify_client (set_audioContext None) ;;
      modify_client (set_inputAnalyser None) ;;
      modify_client (set_outputAnalyser None)
  | None => mret tt
  end.

(* Stop microphone tracks *)
Definition stop_microphone_tracks : M unit :=
  stream ← this localStream;
  match stream with
  | Some ts =>
      forEach (fun t => modify_world (track_stop t)) ts ;;
      modify_client (set_localStream None)
  | None => mret tt
  end.

(* Stop sender tracks *)
Definition stop_sender_tracks : M unit :=
  pc ← this peerConnection;
  match pc with
  | Some p =>
      senders ← gets (fun s => from_option pc_senders [] (conns (world s) !! p));
      forEach (fun t => modify_world (track_stop t)) senders ;;
      modify_world (conn_close p) ;;
      modify_client (set_peerConnection None)
  | None => mret tt
  end.

(* Clean up audio element *)
Definition clean_up_audio_element : M unit :=
  au ← this audioElement;
  match au with
  | Some a =>
      emit (AudioPause a) ;;
      modify_world (audio_src None a) ;; emit (AudioSetSrc a None) ;;
      modify_client (set_audioElement None)
  | None => mret tt
  end.

(* Close data channel *)
Definition close_data_channel : M unit :=
  dc ← this dataChannel;
  match dc with
  | Some d =>
      modify_world (channel_close d) ;;
      modify_client (set_dataChannel None)
  | None => mret tt
  end.

Definition disconnect : M unit :=
  stop_audio_analysis ;;
  close_audio_context ;;
  stop_microphone_tracks ;;
  stop_sender_tracks ;;
  clean_up_audio_element ;;
  close_data_channel ;;
  updateConnectionState disconnected.

Definition toggleMicrophone (enabled : bool) : M unit :=
  modify_client (set_microphoneMuted (negb enabled)) ;;
  stream ← this localStream;
  match stream with
  | Some ts => forEach (fun t => modify_world (track_enable enabled t)) ts
  | None => mret tt
  end.

Definition togglePlayback (enabled : bool) : M unit :=
  modify_client (set_playbackMuted (negb enabled)) ;;
  au ← this audioElement;
  match au with
  | Some a => modify_world (audio_muted (negb enabled) a)
  | None => mret tt
  end.

Definition getConnectionState : M ConnectionState := this connectionState.

(** [!this.dataChannel || this.dataChannel.readyState !== 'open'] *)
Definition channel_not_open (s : Sys) : bool :=
  match dataChannel (client s) with
  | Some d => negb (is_open (world s) d)
  | None => true
  end.

Definition user_message (text : string) : Value :=
  VObj [("type", VStr "conversation.item.create");
        ("item", VObj [("type", VStr "message");
                       ("role", VStr "user");
                       ("content", VArr [VObj [("type", VStr "input_text");
                                               ("text", VStr text)]])])].

Definition response_create : Value := VObj [("type", VStr "response.create")].

Definition sendText (text : string) : M unit :=
  closed ← gets channel_not_open;
  if closed : bool then throw (Error "Data channel not open")
  else
    sendJson (user_message text) ;;
    sendJson response_create ;;
    (* Emit user transcript *)
    cb ← cfg onTranscript;
    when cb (emit (CbTranscript (VStr text) user)).

(** [JSON.stringify(result)] as a property value: [undefined] for [undefined]. *)
Definition stringified (result : Value) : Value :=
  match result with
  | VUndefined => VUndefined
  | _ => VStr (JSON_stringify result)
  end.

Definition tool_output (callId : string) (result : Value) : Value :=
  VObj [("type", VStr "conversation.item.create");
        ("item", VObj [("type", VStr "function_call_output");
                       ("call_id", VStr callId);
                       ("output", stringified result)])].

Definition sendToolResult (callId : string) (result : Value) : M unit :=
  closed ← gets channel_not_open;
  if closed : bool then throw (Error "Data channel not open")
  else
    dc ← this dataChannel;
    match dc with
    | Some d =>
        emit (Sent d (JSON_stringify (tool_output callId result))) ;;
        (* Trigger response to continue the conversation *)
        emit (Sent d (JSON_stringify response_create))
    | None => mret tt
    end.

Definition stopPlayback : M unit :=
  au ← this audioElement;
  match au with
  | Some a =>
      emit (AudioPause a) ;;
      srcObject ← gets (fun s => from_option au_src None (audios (world s) !! a));
      match srcObject with
      | Some src =>
          (* Keep the stream but clear current audio buffer *)
          modify_world (audio_src None a) ;; emit (AudioSetSrc a None) ;;
          modify_world (audio_src (Some src) a) ;; emit (AudioSetSrc a (Some src))
      | None => mret tt
      end
  | None => mret tt
  end.

(** One run of the closure [analyze] of [startAudioAnalysis]; the samples
    themselves are floating-point data and are not represented. *)
Definition analyze : M unit :=
  input ← this inputAnalyser;
  match input with
  | Some _ =>
      spectrum ← cfg onMicrophoneSpectrum; when spectrum (emit CbMicrophoneSpectrum) ;;
      level ← cfg onMicrophoneLevel; when level (emit CbMicrophoneLevel)
  | None => mret tt
  end ;;
  output ← this outputAnalyser;
  match output with
  | Some _ =>
      spectrum ← cfg onPlaybackSpectrum; when spectrum (emit CbPlaybackSpectrum) ;;
      level ← cfg onPlaybackLevel; when level (emit CbPlaybackLevel)
  | None => mret tt
  end ;;
  id ← gets (fun s => fst (request_frame (world s)));
  modify_world (fun w => snd (request_frame w)) ;;
  modify_client (set_animationFrameId (Some id)).

Definition startAudioAnalysis : M unit := analyze.

(** [new AudioContext()] may throw; [created] is what the platform does. *)
Definition setupAudioAnalysis (created : Result unit) : M unit :=
  lift created ;;
  ctx ← gets (fun s => length (contexts (world s)));
  modify_world (fun w => set_contexts (contexts w ++ [{| ctx_closed := false |}]) w) ;;
  modify_client (set_audioContext (Some ctx)) ;;
  (* Setup microphone analysis *)
  stream ← this localStream;
  level ← cfg onMicrophoneLevel;
  spectrum ← cfg onMicrophoneSpectrum;
  match stream with
  | Some _ =>
      if level || spectrum then
        modify_client (set_inputAnalyser (Some ctx)) ;;
        startAudioAnalysis
      else mret tt
  | None => mret tt
  end.

(** [audio_tracks] is [stream.getAudioTracks().length]. *)
Definition setupPlaybackAnalysis (audio_tracks : nat) : M unit :=
  ctx ← this audioContext;
  level ← cfg onPlaybackLevel;
  spectrum ← cfg onPlaybackSpectrum;
  match ctx with
  | Some c =>
      if negb level && negb spectrum then mret tt
      else
        (* Ensure we have audio tracks *)
        match audio_tracks with
        | 0 => mret tt
        | S _ =>
            modify_client (set_outputAnalyser (Some c)) ;;
            (* Start analysis if not already running *)
            frame ← this animationFrameId;
            match frame with
            | Some (S _) => mret tt
            | _ => startAudioAnalysis
            end
        end
  | None => mret tt
  end.

Definition handleRealtimeMessage (message : Value) : M unit :=
  type ← lift (get message "type");
  if is_str type "session.created" || is_str type "session.updated" then
    st ← this connectionState;
    match st with
    | connecting => updateConnectionState connected
    | _ => mret tt
    end
  else if is_str type "conversation.item.created" then
    (* New conversation item - could be user or assistant *)
    item ← lift (get message "item");
    role ← lift (if truthy item then get item "role" else Ok VUndefined);
    started ← cfg onResponseStart;
    when (truthy item && is_str role "assistant" && started) (emit CbResponseStart) ;;
    (* Handle user transcript if available *)
    transcript ← lift (if truthy item && is_str role "user"
                       then formatted ← get item "formatted"; get_opt formatted "transcript"
                       else Ok VUndefined);
    if truthy item && is_str role "user" && truthy transcript then
      cbu ← cfg onUserTranscript; when cbu (emit (CbUserTranscript transcript)) ;;
      cbt ← cfg onTranscript; when cbt (emit (CbTranscript transcript user))
    else mret tt
  else if is_str type "conversation.item.input_audio_transcription.completed" then
    (* User's speech was transcribed *)
    transcript ← lift (get message "transcript");
    if truthy transcript then
      cbu ← cfg onUserTranscript; when cbu (emit (CbUserTranscript transcript)) ;;
      cbt ← cfg onTranscript; when cbt (emit (CbTranscript transcript user))
    else mret tt
  else if is_str type "response.audio_transcript.delta"
          || is_str type "response.output_audio_transcript.delta" then
    cb ← cfg onTranscriptChunk;
    delta ← lift (if cb : bool then get message "delta" else Ok VUndefined);
    when (cb && truthy delta) (emit (CbTranscriptChunk delta))
  else if is_str type "response.audio_transcript.done"
          || is_str type "response.output_audio_transcript.done" then
    (* Complete transcript for this response *)
    cb ← cfg onTranscript;
    transcript ← lift (if cb : bool then get message "transcript" else Ok VUndefined);
    when (cb && truthy transcript) (emit (CbTranscript transcript assistant))
  else if is_str type "response.function_call_arguments.done" then
    (* Tool call requested by the assistant *)
    cb ← cfg onToolCall;
    call_id ← lift (if cb : bool then get message "call_id" else Ok VUndefined);
    name ← lift (if cb && truthy call_id then get message "name" else Ok VUndefined);
    if cb && truthy call_id && truthy name then
      (* [JSON.parse] converts its argument to a string; a conversion that
         throws is caught by the handler below like the SyntaxError that
         the text of an object, which is not JSON, raises. *)
      args ← try_catch
               (arguments ← lift (get message "arguments");
                if truthy arguments then parse (ToString arguments) else mret (VObj []))
               (fun e => emit (Console "error" "Failed to parse tool arguments:") ;;
                         mret (VObj []));
      emit (CbToolCall call_id name args)
    else mret tt
  else if is_str type "input_audio_buffer.speech_started" then
    mret tt
  else if is_str type "input_audio_buffer.speech_stopped" then
    mret tt
  else if is_str type "response.cancelled" || is_str type "response.interrupted" then
    (* Response was interrupted by user speech (VAD) *)
    stopPlayback
  else if is_str type "error" then
    err ← lift (get message "error");
    msg ← lift (get_opt err "message");
    text ← lift (to_string (or_else msg (VStr "Unknown error")));
    handleError (Error text)
  else mret tt.

(** The [onmessage] handler installed by [setupDataChannel]. *)
Definition onmessage (data : string) : M unit :=
  try_catch
    (message ← parse data; handleRealtimeMessage message)
    (fun e => emit (Console "error" "Failed to parse message:")).

(** ** The event loop *)

(** The tasks that reach the client: the events of the handlers it installs
    on its peer connection and data channel, its timer and animation frame,
    and the calls of the host on the public methods other than [connect].
    A call of [connect] is not a task: it is suspended at each [await] and
    two calls of it interleave, which a task run to completion does not
    express.  Every statement below that quantifies over tasks is therefore
    about a client on which at most one call of [connect] is in progress
    and on which none is started by the tasks themselves. *)
Inductive Event :=
| EvIceConnectionStateChange (pc : nat) (st : IceState)
| EvTrack (pc : nat) (stream : nat) (audio_tracks : nat)
| EvChannelOpen (dc : nat)
| EvChannelMessage (dc : nat) (data : string)
| EvChannelError (dc : nat) (e : Exn)
| EvTimeout
| EvAnimationFrame (id : nat)
| EvDisconnect
| EvToggleMicrophone (enabled : bool)
| EvTogglePlayback (enabled : bool)
| EvSendText (text : string)
| EvSendToolResult (callId : string) (result : Value).

(** [peerConnection.oniceconnectionstatechange] *)
Definition oniceconnectionstatechange : M unit :=
  pc ← this peerConnection;
  ice ← gets (fun s => p ← pc; c ← conns (world s) !! p; Some (pc_ice c));
  match ice with
  | Some ice_connected => updateConnectionState connected
  | Some ice_failed =>
      updateConnectionState error ;;
      handleError (Error "ICE connection failed")
  | _ => mret tt
  end.

(** [peerConnection.ontrack] *)
Definition ontrack (stream audio_tracks : nat) : M unit :=
  au ← this audioElement;
  match au with
  | Some _ => mret tt
  | None =>
      a ← gets (fun s => length (audios (world s)));
      modify_world (fun w => set_audios (audios w ++ [fresh_audio]) w) ;;
      modify_client (set_audioElement (Some a)) ;;
      modify_world (audio_autoplay true a)
  end ;;
  au ← this audioElement;
  muted ← this playbackMuted;
  match au with
  | Some a =>
      modify_world (audio_src (Some stream) a) ;; emit (AudioSetSrc a (Some stream)) ;;
      modify_world (audio_muted muted a)
  | None => mret tt
  end ;;
  (* Setup playback analysis if needed *)
  ctx ← this audioContext;
  level ← cfg onPlaybackLevel;
  spectrum ← cfg onPlaybackSpectrum;
  match ctx with
  | Some _ => if level || spectrum then setupPlaybackAnalysis audio_tracks else mret tt
  | None => mret tt
  end.

Definition nonempty (o : option string) : bool := truthy (of_option o).

(** [dataChannel.onopen] *)
Definition onopen : M unit :=
  greeting ← cfg initialInstructions;
  when (nonempty greeting) (modify_world (fun w => set_timers (S (timers w)) w)).

(** The callback [onopen] hands to [setTimeout]. *)
Definition greet : M unit :=
  greeting ← cfg initialInstructions;
  sendJson (VObj [("type", VStr "response.create");
                  ("response", VObj [("instructions", of_option greeting)])]).

(** One task of the event loop.  An event of a closed connection or of a
    channel that does not exist is not delivered; an exception a task raises
    goes to the host and the state it leaves stays. *)
Definition dispatch (ev : Event) (s : Sys) : Sys :=
  match ev with
  | EvIceConnectionStateChange p st =>
      match conns (world s) !! p with
      | Some c =>
          if pc_closed c then s
          else exec (modify_world (fun w => set_conns (alter (set_ice st) p (conns w)) w) ;;
                     oniceconnectionstatechange) s
      | None => s
      end
  | EvTrack p stream audio_tracks =>
      match conns (world s) !! p with
      | Some c => if pc_closed c then s else exec (ontrack stream audio_tracks) s
      | None => s
      end
  | EvChannelOpen d =>
      match channels (world s) !! d with
      | Some c =>
          match dc_ready c with
          | rs_connecting =>
              exec (modify_world (fun w => set_channels (alter (set_ready rs_open) d (channels w)) w) ;;
                    onopen) s
          | _ => s
          end
      | None => s
      end
  | EvChannelMessage d data => if is_open (world s) d then exec (onmessage data) s else s
  | EvChannelError d e =>
      match channels (world s) !! d with
      | Some _ => exec (handleError e) s
      | None => s
      end
  | EvTimeout =>
      match timers (world s) with
      | S n => exec (modify_world (set_timers n) ;; greet) s
      | 0 => s
      end
  | EvAnimationFrame id =>
      if bool_decide (id ∈ frames (world s))
      then exec (modify_world (cancel_frame id) ;; analyze) s
      else s
  | EvDisconnect => exec disconnect s
  | EvToggleMicrophone enabled => exec (toggleMicrophone enabled) s
  | EvTogglePlayback enabled => exec (togglePlayback enabled) s
  | EvSendText text => exec (sendText text) s
  | EvSendToolResult callId result => exec (sendToolResult callId result) s
  end.

Definition run (tasks : list Event) (s : Sys) : Sys := foldl (fun s ev => dispatch ev s) s tasks.

(** [await p]: the event loop runs [tasks], then [p] settles with [outcome]. *)
Definition await {A} (tasks : list Event) (outcome : Result A) : M A :=
  fun s => (outcome, run tasks s).

(** ** connect *)

(** An HTTP response; [response.ok] is a status in the range 200-299. *)
Record Response := { status : nat }.
Definition ok (r : Response) : bool := (200 <=? status r)%nat && (status r <=? 299)%nat.

(** What the platform and the network do during one call of [connect]: the
    outcome of each operation that can fail, and the tasks the event loop
    runs while [connect] is suspended at each [await]. *)
Record ConnectEnv := {
  token_response : Result Response;       (* fetch('/api/realtime/client-secret') *)
  token_json : Result Value;              (* response.json() *)
  user_media : Result nat;                (* getUserMedia: the number of tracks *)
  audio_context : Result unit;            (* new AudioContext() *)
  peer_connection : Result unit;          (* new RTCPeerConnection() *)
  data_channel : Result unit;             (* createDataChannel('oai-events') *)
  offer : Result string;                  (* createOffer(): the sdp *)
  local_description : Result unit;        (* setLocalDescription(offer) *)
  call_response : Result Response;        (* fetch(apiUrl + '?model=' + model) *)
  answer : Result string;                 (* response.text() *)
  remote_description : Result unit;       (* setRemoteDescription(answer) *)
  during_token_response : list Event;
  during_token_json : list Event;
  during_user_media : list Event;
  during_offer : list Event;
  during_local_description : list Event;
  during_call_response : list Event;
  during_answer : list Event;
  during_remote_description : list Event
}.

Definition session_config (c : Client) : Value :=
  VObj [("session",
         VObj ([("type", VStr "realtime");
                ("model", VStr "gpt-realtime");
                ("instructions", of_option (systemPrompt (config c)));
                ("audio",
                 VObj [("input",
                        VObj [("turn_detection",
                               VObj [("type", VStr "semantic_vad");
                                     ("create_response", VBool true);
                                     ("interrupt_response", VBool true)])]);
                       ("output", VObj [("voice", of_option (voice (config c)))])])]
               ++ match tools (config c) with
                  | Some (t :: ts) => [("tools", VArr (t :: ts))]
                  | _ => []
                  end));
        ("conversationId", of_option (conversationId c))].

Definition fetchToken (env : ConnectEnv) : M Value :=
  body ← this session_config;
  token ← cfg authToken;
  emit (if nonempty token
        then Console "log" "Using auth token for realtime API:"
        else Console "warn" "No auth token provided for realtime API") ;;
  emit (Fetch "/api/realtime/client-secret"
          (if nonempty token then (fun t => "Bearer " +:+ t) <$> token else None)
          (JSON_stringify body)) ;;
  response ← await (during_token_response env) (token_response env);
  if ok response then await (during_token_json env) (token_json env)
  else throw (Error ("Failed to fetch token: " +:+ pretty (status response))).

(** [this.peerConnection.m(...)]: reading a method of [null] is a TypeError. *)
Definition the_peerConnection : M nat :=
  pc ← this peerConnection;
  match pc with
  | Some p => mret p
  | None => throw (TypeError "Cannot read properties of null")
  end.

Definition setupDataChannel (env : ConnectEnv) : M unit :=
  p ← the_peerConnection;
  lift (data_channel env) ;;
  d ← gets (fun s => length (channels (world s)));
  modify_world (fun w => set_channels (channels w ++ [{| dc_ready := rs_connecting; dc_pc := p |}]) w) ;;
  modify_client (set_dataChannel (Some d)).

Definition connect_body (env : ConnectEnv) (cid : option string) : M unit :=
  modify_client (set_conversationId cid) ;;
  updateConnectionState connecting ;;
  (* Get ephemeral token from backend *)
  tokenData ← fetchToken env;
  secret ← lift (get tokenData "client_secret");
  value ← lift (get_opt secret "value");
  token ← lift (if truthy value then Ok value else get tokenData "value");
  (* Get user's microphone *)
  n ← await (during_user_media env) (user_media env);
  ts ← gets (fun s => fst (new_stream n (world s)));
  modify_world (fun w => snd (new_stream n w)) ;;
  modify_client (set_localStream (Some ts)) ;;
  (* Setup audio analysis if callbacks are provided *)
  c ← this config;
  (if onMicrophoneSpectrum c || onMicrophoneLevel c || onPlaybackSpectrum c || onPlaybackLevel c
   then setupAudioAnalysis (audio_context env) else mret tt) ;;
  (* Create peer connection *)
  lift (peer_connection env) ;;
  p ← gets (fun s => length (conns (world s)));
  modify_world (fun w => set_conns (conns w ++ [fresh_conn]) w) ;;
  modify_client (set_peerConnection (Some p)) ;;
  (* Add microphone tracks *)
  forEach (fun t => modify_world (fun w => set_conns (alter (add_sender t) p (conns w)) w)) ts ;;
  (* Setup data channel *)
  setupDataChannel env ;;
  (* Create and send offer *)
  p ← the_peerConnection;
  sdp ← await (during_offer env) (offer env);
  p ← the_peerConnection;
  await (during_local_description env) (local_description env) ;;
  modify_world (fun w => set_conns (alter (set_local sdp) p (conns w)) w) ;;
  (* Send offer to OpenAI Realtime API *)
  proxy ← lift (get tokenData "proxy_url");
  apiUrl ← match or_else proxy (VStr "https://api.openai.com") with
           | VStr baseUrl => mret (strip_v1 baseUrl +:+ "/v1/realtime/calls")
           | _ => throw (TypeError "baseUrl.replace is not a function")
           end;
  emit (Console "log" "Connecting to realtime API at:") ;;
  authorization ← lift (to_string token);
  emit (Fetch (apiUrl +:+ "?model=gpt-realtime") (Some ("Bearer " +:+ authorization)) sdp) ;;
  response ← await (during_call_response env) (call_response env);
  (if ok response then mret tt
   else throw (Error ("Failed to connect: " +:+ pretty (status response)))) ;;
  answerSdp ← await (during_answer env) (answer env);
  p ← the_peerConnection;
  await (during_remote_description env) (remote_description env) ;;
  modify_world (fun w => set_conns (alter (set_remote answerSdp) p (conns w)) w).

Definition connect (env : ConnectEnv) (cid : option string) : M unit :=
  try_catch (connect_body env cid)
    (fun e => handleError e ;; disconnect ;; throw e).

(** ** Construction *)

Definition default {A} (d : A) (o : option A) : option A :=
  match o with
  | Some x => Some x
  | None => Some d
  end.

(** [this.config] as the constructor leaves it: a field the caller's
    configuration has wins over the default. *)
Definition resolved (c : RealtimeVoiceConfig) : RealtimeVoiceConfig :=
  {| voice := default "cedar" (voice c);
     language := default "en" (language c);
     systemPrompt := default "You are a helpful, conversational assistant." (systemPrompt c);
     initialInstructions := initialInstructions c;
     authToken := authToken c;
     tools := default [] (tools c);
     onConnectionStateChange := onConnectionStateChange c;
     onTranscript := onTranscript c;
     onTranscriptChunk := onTranscriptChunk c;
     onUserTranscript := onUserTranscript c;
     onResponseStart := onResponseStart c;
     onError := onError c;
     onToolCall := onToolCall c;
     onMicrophoneLevel := onMicrophoneLevel c;
     onMicrophoneSpectrum := onMicrophoneSpectrum c;
     onPlaybackLevel := onPlaybackLevel c;
     onPlaybackSpectrum := onPlaybackSpectrum c |}.

Definition constructor (c : RealtimeVoiceConfig) : Client :=
  {| peerConnection := None; dataChannel := None; localStream := None;
     audioElement := None; connectionState := disconnected;
     microphoneMuted := false; playbackMuted := false; audioContext := None;
     inputAnalyser := None; outputAnalyser := None; animationFrameId := None;
     config := resolved c; conversationId := None |}.

Definition empty_world : World :=
  {| tracks := []; conns := []; channels := []; audios := []; contexts := [];
     frames := []; next_frame := 1; timers := 0 |}.

(** A client just constructed, nothing allocated, nothing observed. *)
Definition fresh (c : RealtimeVoiceConfig) : Sys :=
  {| client := constructor c; world := empty_world; trace := [] |}.

End Methods.

End RealtimeVoiceClient.

Import RealtimeVoiceClient.

(** * The routes of /api/realtime *)

Module realtime.

(** What one request lets the outside observe, in order. *)
Inductive Out :=
| Log (level : string)                       (* a call of console.<level> *)
| GetUserKeyValues (userId : Value)          (* getUserKeyValues({ userId, name }) *)
| Post (url authorization body : string)     (* fetch(url, { method: 'POST', ... }) *)
| Reply (code : nat) (json : Value).         (* res.status(code).json(json) *)

(** A handler: it appends to the output and returns or throws. *)
Definition H (A : Type) : Type := list Out -> Result A * list Out.

#[global] Instance H_ret : MRet H := fun A a out => (Ok a, out).
#[global] Instance H_bind : MBind H := fun A B f m out =>
  match m out with
  | (Ok a, out') => f a out'
  | (Throw e, out') => (Throw e, out')
  end.

Definition lift {A} (r : Result A) : H A := fun out => (r, out).
Definition emit (o : Out) : H unit := fun out => (Ok tt, (out ++ [o])%list).
Definition when (b : bool) (m : H unit) : H unit := if b then m else mret tt.

(** [try { body } catch (e) { handler e }] *)
Definition try_catch {A} (body : H A) (handler : Exn -> H A) : H A :=
  fun out => match body out with
             | (Ok a, out') => (Ok a, out')
             | (Throw e, out') => handler e out'
             end.

(** [process.env]: a variable that is not set is [None]. *)
Record Env := {
  OPENAI_API_KEY : option string;
  AI_PROXY_DOMAIN : option string;
  OPENAI_REVERSE_PROXY : option string
}.

(** The request as [requireJwtAuth] and the body parser leave it.  The
    properties the handlers read from it and from the upstream answer
    ([session], [conversationId], [messages], [id], [apiKey], [audio],
    [output], [voice], [instructions], [client_secret], [value],
    [expires_at], [session_id]) are read with [get] and [get_opt]; none of
    them exists on a primitive or on an array. *)
Record Request := { req_body : Value; req_user : Value }.

(** The outcomes of what the handler awaits during one request. *)
Record Services := {
  user_key_values : Result Value;     (* getUserKeyValues({ userId, name }) *)
  upstream : Result Response;         (* fetch(apiUrl, ...) *)
  upstream_text : Result string;      (* response.text() *)
  upstream_json : Result Value        (* response.json() *)
}.

(** [a || d] for an environment variable [a] and a string [d]. *)
Definition env_or (a : option string) (d : string) : string :=
  match a with
  | Some s => if String.eqb s EmptyString then d else s
  | None => d
  end.

(** [AI_PROXY_DOMAIN || OPENAI_REVERSE_PROXY || 'https://api.openai.com'] *)
Definition base_url (env : Env) : string :=
  env_or (AI_PROXY_DOMAIN env) (env_or (OPENAI_REVERSE_PROXY env) "https://api.openai.com").

(** [v.length], whose value is only logged: reading it throws on [null]
    and [undefined]. *)
Definition length_of (v : Value) : Result unit :=
  match v with
  | VUndefined | VNull =>
      Throw (TypeError "Cannot read properties of null or undefined (reading 'length')")
  | _ => Ok tt
  end.

Section Routes.

Variable JSON_stringify : Value -> string.
Variable Number_toString : spec_float -> string.

(** [isUserProvided] of @librechat/api. *)
Variable isUserProvided : option string -> bool.

Definition reply (code : nat) (json : Value) : H unit := emit (Reply code json).

(** The body the handler posts upstream. *)
Definition requestBody (voice instructions : Value) : Value :=
  VObj [("model", VStr "gpt-4o-realtime-preview-2024-12-17");
        ("voice", or_else voice (VStr "alloy"));
        ("instructions", or_else instructions (VStr "You are a helpful assistant"))].

(** [router.post('/client-secret', requireJwtAuth, async (req, res) => ...)] *)
Definition client_secret (env : Env) (sv : Services) (req : Request) : H unit :=
  try_catch
    (session ← lift (get (req_body req) "session");
     conversationId ← lift (get (req_body req) "conversationId");
     userId ← lift (get (req_user req) "id");
     (* Get OpenAI API key *)
     openaiKey ← (if isUserProvided (OPENAI_API_KEY env)
                  then
                    emit (GetUserKeyValues userId) ;;
                    userValues ← lift (user_key_values sv);
                    lift (get_opt userValues "apiKey")
                  else mret (of_option (OPENAI_API_KEY env)));
     if negb (truthy openaiKey)
     then reply 400 (VObj [("error", VStr "OpenAI API key not configured")])
     else
       (* Use AI proxy domain if configured, otherwise use OpenAI directly *)
       let apiUrl := strip_v1 (base_url env) +:+ "/v1/realtime/sessions" in
       emit (Log "log") ;;
       session ← lift (get (req_body req) "session");
       audio ← lift (get_opt session "audio");
       output ← lift (get_opt audio "output");
       voice ← lift (get_opt output "voice");
       session ← lift (get (req_body req) "session");
       instructions ← lift (get_opt session "instructions");
       emit (Log "log") ;;
       emit (Log "log") ;;
       (* Request a client secret from OpenAI's Realtime API *)
       authorization ← lift (to_string Number_toString openaiKey);
       emit (Post apiUrl ("Bearer " +:+ authorization)
               (JSON_stringify (requestBody voice instructions))) ;;
       response ← lift (upstream sv);
       if negb (ok response)
       then
         error ← lift (upstream_text sv);
         emit (Log "error") ;;
         reply (status response)
           (VObj [("error", VStr "Failed to get ephemeral token"); ("details", VStr error)])
       else
         data ← lift (upstream_json sv);
         (* Log conversation start for tracking *)
         when (truthy conversationId)
           (lift (printable conversationId) ;; emit (Log "log")) ;;
         (* Return the client secret with proxy URL if configured *)
         secret ← lift (get data "client_secret");
         value ← lift (get_opt secret "value");
         value ← (if truthy value then mret value else lift (get data "value"));
         expires_at ← lift (get data "expires_at");
         id ← lift (get data "id");
         session_id ← (if truthy id then mret id else lift (get data "session_id"));
         reply 200
           (VObj [("value", value);
                  ("expires_at", expires_at);
                  ("session_id", session_id);
                  ("proxy_url", or_else (of_option (AI_PROXY_DOMAIN env)) VNull)]))
    (fun e =>
       emit (Log "error") ;;
       reply 500 (VObj [("error", VStr "Internal server error")])).

(** [router.post('/transcript', requireJwtAuth, async (req, res) => ...)] *)
Definition transcript (req : Request) : H unit :=
  try_catch
    (conversationId ← lift (get (req_body req) "conversationId");
     messages ← lift (get (req_body req) "messages");
     userId ← lift (get (req_user req) "id");
     lift (printable conversationId) ;;
     lift (length_of messages) ;;
     emit (Log "log") ;;
     reply 200 (VObj [("success", VBool true)]))
    (fun e =>
       emit (Log "error") ;;
       reply 500 (VObj [("error", VStr "Failed to save transcript")])).

End Routes.

(** The replies and the upstream requests of an output. *)
Definition replies (out : list Out) : list (nat * Value) :=
  omap (fun o => match o with Reply code json => Some (code, json) | _ => None end) out.

Definition posts (out : list Out) : list (string * string * string) :=
  omap (fun o => match o with Post url auth body => Some (url, auth, body) | _ => None end) out.

Definition lookups (out : list Out) : list Value :=
  omap (fun o => match o with GetUserKeyValues userId => Some userId | _ => None end) out.

(** [null] and [undefined]. *)
Definition nullish (v : Value) : bool :=
  match v with
  | VUndefined | VNull => true
  | _ => false
  end.

End realtime.

(** The address [connect] posts its offer to, from the credential reply:
    [(tokenData.proxy_url || 'https://api.openai.com').replace(/\/v1\/?$/, '')
     + '/v1/realtime/calls']. *)
Definition call_endpoint (tokenData : Value) : Result string :=
  proxy ← get tokenData "proxy_url";
  match or_else proxy (VStr "https://api.openai.com") with
  | VStr baseUrl => Ok (strip_v1 baseUrl +:+ "/v1/realtime/calls")
  | _ => Throw (TypeError "baseUrl.replace is not a function")
  end.

(** The credential [connect] presents with its offer:
    [tokenData.client_secret?.value || tokenData.value]. *)
Definition credential (tokenData : Value) : Result Value :=
  secret ← get tokenData "client_secret";
  value ← get_opt secret "value";
  if truthy value then Ok value else get tokenData "value".

(** * What the properties speak of *)

(** The trace with [obs] appended, everything else as in [s]. *)
Definition observe (obs : list Obs) (s : Sys) : Sys :=
  {| client := client s; world := world s; trace := trace s ++ obs |}.

(** The case labels of the switch of [handleRealtimeMessage]. *)
Definition vocabulary : list string :=
  [ "session.created"; "session.updated";
    "conversation.item.created";
    "conversation.item.input_audio_transcription.completed";
    "response.audio_transcript.delta"; "response.output_audio_transcript.delta";
    "response.audio_transcript.done"; "response.output_audio_transcript.done";
    "response.function_call_arguments.done";
    "input_audio_buffer.speech_started"; "input_audio_buffer.speech_stopped";
    "response.cancelled"; "response.interrupted";
    "error" ].

(** What [stopPlayback] does to the playback element of the client [c]:
    nothing without an element, a pause, and a detach followed by a reattach
    of the source the element has. *)
Definition interruption (c : Client) (w : World) : list Obs :=
  match audioElement c with
  | None => []
  | Some a =>
      AudioPause a ::
      match from_option au_src None (audios w !! a) with
      | Some src => [AudioSetSrc a None; AudioSetSrc a (Some src)]
      | None => []
      end
  end.

(** [ts.forEach(track => track.stop())] *)
Definition stop_all (ts : list nat) (w : World) : World :=
  foldl (fun w t => track_stop t w) w ts.

(** The platform objects after each block of [disconnect], for a client
    with fields [c]. *)
Definition frame_cancelled (c : Client) (w : World) : World :=
  match animationFrameId c with
  | Some (S _ as id) => cancel_frame id w
  | _ => w
  end.

Definition context_closed (c : Client) (w : World) : World :=
  from_option (fun x => context_close x w) w (audioContext c).

Definition microphone_stopped (c : Client) (w : World) : World :=
  from_option (fun ts => stop_all ts w) w (localStream c).

Definition transport_closed (c : Client) (w : World) : World :=
  from_option
    (fun p => conn_close p (stop_all (from_option pc_senders [] (conns w !! p)) w))
    w (peerConnection c).

Definition audio_detached (c : Client) (w : World) : World :=
  from_option (fun a => audio_src None a w) w (audioElement c).

Definition channel_closed (c : Client) (w : World) : World :=
  from_option (fun d => channel_close d w) w (dataChannel c).

(** The platform objects after [disconnect]. *)
Definition teardown_world (c : Client) (w : World) : World :=
  channel_closed c
    (audio_detached c
       (transport_closed c
          (microphone_stopped c (context_closed c (frame_cancelled c w))))).

(** The fields of the client after [disconnect]. *)
Definition teardown_client (c : Client) : Client :=
  {| peerConnection := None; dataChannel := None; localStream := None;
     audioElement := None; connectionState := disconnected;
     microphoneMuted := microphoneMuted c; playbackMuted := playbackMuted c;
     audioContext := None;
     inputAnalyser := if audioContext c is Some _ then None else inputAnalyser c;
     outputAnalyser := if audioContext c is Some _ then None else outputAnalyser c;
     animationFrameId := match animationFrameId c with
                         | Some (S _) => None
                         | other => other
                         end;
     config := config c; conversationId := conversationId c |}.

(** What [updateConnectionState('disconnected')] lets the outside observe. *)
Definition notify_disconnected (c : Client) : list Obs :=
  if onConnectionStateChange (config c) then [CbConnectionStateChange disconnected] else [].

(** What [disconnect] lets the outside observe. *)
Definition teardown_trace (c : Client) : list Obs :=
  from_option (fun a => [AudioPause a; AudioSetSrc a None]) [] (audioElement c)
  ++ notify_disconnected c.

(** The tasks the event loop runs during one call of [connect]; when there
    are none the call is not interleaved with anything. *)
Definition tasks (env : ConnectEnv) : list Event :=
  during_token_response env ++ during_token_json env ++ during_user_media env
  ++ during_offer env ++ during_local_description env ++ during_call_response env
  ++ during_answer env ++ during_remote_description env.

(** Whether the peer connection of the client is closed, and its ICE state. *)
Definition transport (s : Sys) : option (bool * IceState) :=
  p ← peerConnection (client s);
  c ← conns (world s) !! p;
  Some (pc_closed c, pc_ice c).

(** A track that has not ended, a connection that is not closed, a channel
    that is connecting or open: an object that still holds its resource. *)
Definition live_track (w : World) (t : nat) : bool :=
  from_option track_live false (tracks w !! t).

Definition live_conn (w : World) (p : nat) : bool :=
  from_option (fun c => negb (pc_closed c)) false (conns w !! p).

Definition active (r : ReadyState) : bool :=
  match r with
  | rs_connecting | rs_open => true
  | rs_closing | rs_closed => false
  end.

Definition live_channel (w : World) (d : nat) : bool :=
  from_option (fun c => active (dc_ready c)) false (channels w !! d).

(** From [w] to [w'] no track, connection or channel is created and none
    that was released comes back. *)
Record ages (w w' : World) : Prop := {
  ages_tracks : length (tracks w') = length (tracks w);
  ages_conns : length (conns w') = length (conns w);
  ages_channels : length (channels w') = length (channels w);
  ages_track t : live_track w' t = true -> live_track w t = true;
  ages_conn p : live_conn w' p = true -> live_conn w p = true;
  ages_channel d : live_channel w' d = true -> live_channel w d = true
}.

(** Relative to the world [w0] a call started in: every track, connection
    and channel created since and still holding its resource is referenced
    by the client, so that [disconnect] reaches it. *)
Record owned (w0 : World) (s : Sys) : Prop := {
  owned_track t :
    length (tracks w0) <= t -> live_track (world s) t = true ->
    exists ts, localStream (client s) = Some ts /\ t ∈ ts;
  owned_conn p :
    length (conns w0) <= p -> live_conn (world s) p = true ->
    peerConnection (client s) = Some p;
  owned_channel d :
    length (channels w0) <= d -> live_channel (world s) d = true ->
    dataChannel (client s) = Some d
}.

(** Nothing created since [w0] holds a resource any more. *)
Record released (w0 : World) (w : World) : Prop := {
  released_track t : length (tracks w0) <= t -> live_track w t = false;
  released_conn p : length (conns w0) <= p -> live_conn w p = false;
  released_channel d : length (channels w0) <= d -> live_channel w d = false
}.

(** Nothing has been created since [w0]. *)
Definition untouched (w0 : World) (s : Sys) : Prop :=
  length (tracks (world s)) = length (tracks w0) /\
  length (conns (world s)) = length (conns w0) /\
  length (channels (world s)) = length (channels w0).

(** From [w] to [w'] every track, connection and channel that holds its
    resource still does; objects may have been created. *)
Record lasts (w w' : World) : Prop := {
  lasts_tracks : length (tracks w) <= length (tracks w');
  lasts_conns : length (conns w) <= length (conns w');
  lasts_channels : length (channels w) <= length (channels w');
  lasts_track t : live_track w t = true -> live_track w' t = true;
  lasts_conn p : live_conn w p = true -> live_conn w' p = true;
  lasts_channel d : live_channel w d = true -> live_channel w' d = true
}.

(** [ts.forEach(track => { track.enabled = b })] *)
Definition enable_all (b : bool) (ts : list nat) (w : World) : World :=
  foldl (fun w t => track_enable b t w) w ts.

(** The track [tr] with [enabled] set to [b]. *)
Definition enabled_as (b : bool) (tr : Track) : Track :=
  {| track_live := track_live tr; track_enabled := b |}.

(** What a finalised user turn lets the outside observe. *)
Definition user_turn (c : Client) (transcript : Value) : list Obs :=
  (if onUserTranscript (config c) then [CbUserTranscript transcript] else [])
  ++ (if onTranscript (config c) then [CbTranscript transcript user] else []).

(** What [handleError(e)] lets the outside observe. *)
Definition reported (c : Client) (e : Exn) : list Obs :=
  Console "error" "RealtimeVoiceClient error:"
  :: if onError (config c) then [CbError e] else [].

(** What [updateConnectionState(st)] lets the outside observe. *)
Definition notified (c : Client) (st : ConnectionState) : list Obs :=
  if onConnectionStateChange (config c) then [CbConnectionStateChange st] else [].

(** The messages sent on the data channels, in order. *)
Definition sends (tr : list Obs) : list (nat * string) :=
  omap (fun o => match o with
                 | Sent d data => Some (d, data)
                 | _ => None
                 end) tr.

(** The greeting [onopen] schedules: a response trigger with instructions. *)
Definition greeting (instructions : string) : Value :=
  VObj [("type", VStr "response.create");
        ("response", VObj [("instructions", VStr instructions)])].

(** At most one sampling loop: the frame the client remembers is the only
    one pending, and frame ids are positive. *)
Definition sampling (s : Sys) : Prop :=
  0 < next_frame (world s) /\
  ((animationFrameId (client s) = None /\ frames (world s) = []) \/
   exists id, animationFrameId (client s) = Some id /\ 0 < id /\
              id < next_frame (world s) /\ frames (world s) = [id]).

(** ** A small platform instance, to run the model on concrete inputs *)

Module Demo.

Definition quoted (s : string) : string :=
  String "034"%char (s +:+ String "034"%char EmptyString).

(** Serialises without escaping; every number prints as [0]. *)
Fixpoint stringify (v : Value) : string :=
  match v with
  | VUndefined | VNull => "null"
  | VBool b => if b then "true" else "false"
  | VNum _ => "0"
  | VStr s => quoted s
  | VArr l => "[" +:+ String.concat "," (map stringify l) +:+ "]"
  | VObj fields =>
      "{" +:+ String.concat ","
                (map (fun kv => quoted (fst kv) +:+ ":" +:+ stringify (snd kv)) fields)
          +:+ "}"
  end.

Definition number_toString (n : spec_float) : string := "0".

(** Parses the texts of [table], one message of each kind used below. *)
Definition table : list Value :=
  [ VObj [];
    VNull;
    VObj [("type", VStr "session.created")];
    VObj [("type", VStr "response.interrupted")];
    VObj [("type", VStr "x.future.event")];
    VObj [("city", VStr "Paris")] ].

Definition parse (text : string) : option Value :=
  find (fun v => String.eqb (stringify v) text) table.

Definition config : RealtimeVoiceConfig :=
  {| voice := None; language := None; systemPrompt := None;
     initialInstructions := Some "Hello! How can I help you today?";
     authToken := Some "jwt";
     tools := None;
     onConnectionStateChange := true; onTranscript := true; onTranscriptChunk := true;
     onUserTranscript := false; onResponseStart := true; onError := true;
     onToolCall := true;
     onMicrophoneLevel := true; onMicrophoneSpectrum := false;
     onPlaybackLevel := true; onPlaybackSpectrum := false |}.

(** Every operation succeeds and no task runs while [connect] is suspended. *)
Definition quiet : ConnectEnv :=
  {| token_response := Ok {| status := 200 |};
     token_json := Ok (VObj [("value", VStr "ek_1")]);
     user_media := Ok 1;
     audio_context := Ok tt;
     peer_connection := Ok tt;
     data_channel := Ok tt;
     offer := Ok "v=0 offer";
     local_description := Ok tt;
     call_response := Ok {| status := 201 |};
     answer := Ok "v=0 answer";
     remote_description := Ok tt;
     during_token_response := []; during_token_json := []; during_user_media := [];
     during_offer := []; during_local_description := []; during_call_response := [];
     during_answer := []; during_remote_description := [] |}.

(** The calls endpoint answers 403 to the offer; the data channel opens
    while the answer is awaited. *)
Definition forbidden : ConnectEnv :=
  {| token_response := Ok {| status := 200 |};
     token_json := Ok (VObj [("value", VStr "ek_1")]);
     user_media := Ok 1;
     audio_context := Ok tt;
     peer_connection := Ok tt;
     data_channel := Ok tt;
     offer := Ok "v=0 offer";
     local_description := Ok tt;
     call_response := Ok {| status := 403 |};
     answer := Ok "v=0 answer";
     remote_description := Ok tt;
     during_token_response := []; during_token_json := []; during_user_media := [];
     during_offer := []; during_local_description := [];
     during_call_response := [EvChannelOpen 0];
     during_answer := []; during_remote_description := [] |}.

Abbreviation connect := (connect parse stringify number_toString).
Abbreviation dispatch := (dispatch parse stringify number_toString).
Abbreviation run := (run parse stringify number_toString).
Abbreviation sendText := (sendText stringify).
Abbreviation sendToolResult := (sendToolResult stringify).
Abbreviation onmessage := (onmessage parse number_toString).
Abbreviation handleRealtimeMessage := (handleRealtimeMessage parse number_toString).

(** The state in which a first [connect] resolves. *)
Definition started : Sys :=
  Eval vm_compute in exec (connect quiet None) (fresh config).

(** The session once the channel has opened, the transport has reported
    connectivity and the remote audio has arrived. *)
Definition live : Sys :=
  Eval vm_compute in
    run [EvChannelOpen 0; EvIceConnectionStateChange 0 ice_connected; EvTrack 0 7 1] started.

(** The state a second [connect] on the live session resolves in. *)
Definition restarted : Sys :=
  Eval vm_compute in exec (connect quiet None) live.

(** The state the [connect] refused by the calls endpoint rejects in. *)
Definition torn_down : Sys :=
  Eval vm_compute in exec (connect forbidden None) (fresh config).

Definition interrupted : Value := VObj [("type", VStr "response.interrupted")].

Definition future : Value := VObj [("type", VStr "x.future.event")].


(** A client whose microphone was switched off before any session, and
    the state in which its first [connect] resolves. *)
Definition switched_off : Sys :=
  Eval vm_compute in exec (toggleMicrophone false) (fresh config).

Definition switched_off_started : Sys :=
  Eval vm_compute in exec (connect quiet None) switched_off.

(** The credential endpoint answers 401. *)
Definition unauthorized : ConnectEnv :=
  {| token_response := Ok {| status := 401 |};
     token_json := Ok VNull;
     user_media := Ok 1;
     audio_context := Ok tt;
     peer_connection := Ok tt;
     data_channel := Ok tt;
     offer := Ok "v=0 offer";
     local_description := Ok tt;
     call_response := Ok {| status := 201 |};
     answer := Ok "v=0 answer";
     remote_description := Ok tt;
     during_token_response := []; during_token_json := []; during_user_media := [];
     during_offer := []; during_local_description := []; during_call_response := [];
     during_answer := []; during_remote_description := [] |}.

Definition session_created : Value := VObj [("type", VStr "session.created")].

Definition user_item : Value :=
  VObj [("type", VStr "conversation.item.created");
        ("item", VObj [("role", VStr "user");
                       ("formatted", VObj [("transcript", VStr "hi there")])])].

Definition transcription_completed : Value :=
  VObj [("type", VStr "conversation.item.input_audio_transcription.completed");
        ("transcript", VStr "hi there")].

Definition transcript_delta : Value :=
  VObj [("type", VStr "response.audio_transcript.delta"); ("delta", VStr "Hel")].

Definition error_event : Value :=
  VObj [("type", VStr "error"); ("error", VObj [("message", VStr "rate limit")])].

(** An error whose message does not convert to a string. *)
Definition opaque_error : Value :=
  VObj [("type", VStr "error");
        ("error", VObj [("message", VObj [("toString", VBool true)])])].

(** The routes.  The key is taken from the environment; a reverse proxy is
    configured and no proxy domain. *)
Definition isUserProvided (value : option string) : bool :=
  match value with
  | Some v => String.eqb v "user_provided"
  | None => false
  end.

Definition env : realtime.Env :=
  {| realtime.OPENAI_API_KEY := Some "sk-1";
     realtime.AI_PROXY_DOMAIN := None;
     realtime.OPENAI_REVERSE_PROXY := Some "https://proxy.example/v1" |}.

Definition keyless : realtime.Env :=
  {| realtime.OPENAI_API_KEY := None;
     realtime.AI_PROXY_DOMAIN := None;
     realtime.OPENAI_REVERSE_PROXY := None |}.

Definition request : realtime.Request :=
  {| realtime.req_body :=
       VObj [("session", VObj [("instructions", VStr "Be brief")]);
             ("conversationId", VStr "c1")];
     realtime.req_user := VObj [("id", VStr "u1")] |}.

Definition granted : realtime.Services :=
  {| realtime.user_key_values := Ok VNull;
     realtime.upstream := Ok {| status := 200 |};
     realtime.upstream_text := Ok "unused";
     realtime.upstream_json :=
       Ok (VObj [("client_secret", VObj [("value", VStr "ek_1")]);
                 ("id", VStr "sess_1")]) |}.

Definition rejected : realtime.Services :=
  {| realtime.user_key_values := Ok VNull;
     realtime.upstream := Ok {| status := 401 |};
     realtime.upstream_text := Ok "invalid key";
     realtime.upstream_json := Ok VNull |}.

Abbreviation client_secret :=
  (realtime.client_secret stringify number_toString isUserProvided).

(** The body of the reply to [request] when the upstream service grants. *)
Definition secret_reply : Value :=
  VObj [("value", VStr "ek_1"); ("expires_at", VUndefined);
        ("session_id", VStr "sess_1"); ("proxy_url", VNull)].

End Demo.


(** * Properties *)

(** Unfolds the monad, leaving the state transformer. *)
Ltac monad :=
  cbv beta iota zeta delta
    [mbind mret M_bind M_ret Result_bind Result_ret throw gets this cfg lift emit
     modify_client modify_world when try_catch exec fst snd].

Section Properties.

Variable JSON_parse : string -> option Value.
Variable JSON_stringify : Value -> string.
Variable Number_toString : spec_float -> string.

Local Abbreviation sendJson := (sendJson JSON_stringify).
Local Abbreviation sendText := (sendText JSON_stringify).
Local Abbreviation sendToolResult := (sendToolResult JSON_stringify).
Local Abbreviation handleRealtimeMessage := (handleRealtimeMessage JSON_parse Number_toString).
Local Abbreviation onmessage := (onmessage JSON_parse Number_toString).
Local Abbreviation dispatch := (dispatch JSON_parse JSON_stringify Number_toString).
Local Abbreviation run := (run JSON_parse JSON_stringify Number_toString).
Local Abbreviation await := (await JSON_parse JSON_stringify Number_toString).
Local Abbreviation fetchToken := (fetchToken JSON_parse JSON_stringify Number_toString).
Local Abbreviation greet := (greet JSON_stringify).
Local Abbreviation connect_body := (connect_body JSON_parse JSON_stringify Number_toString).
Local Abbreviation connect := (connect JSON_parse JSON_stringify Number_toString).

Lemma observe_nil s : observe [] s = s.
Proof. destruct s. unfold observe. simpl. by rewrite app_nil_r. Qed.

(** ** Sending *)

Lemma sendJson_open data s d :
  dataChannel (client s) = Some d -> is_open (world s) d = true ->
  sendJson data s = (Ok tt, observe [Sent d (JSON_stringify data)] s).
Proof.
  intros Hd Ho. unfold RealtimeVoiceClient.sendJson. monad. rewrite Hd, Ho. reflexivity.
Qed.

(** C6: with an open control channel, [sendText t] returns normally after
    sending exactly two messages on it, first the [conversation.item.create]
    of a [message] item of role [user] whose content is the one
    [input_text] part with text [t], then the [response.create] command,
    and after reporting [(t, user)] to the transcript callback (when one is
    configured); nothing else changes. *)
Theorem sendText_open (t : string) (s : Sys) (d : nat) :
  dataChannel (client s) = Some d ->
  is_open (world s) d = true ->
  sendText t s =
    (Ok tt,
     observe ([Sent d (JSON_stringify
                         (VObj [("type", VStr "conversation.item.create");
                                ("item",
                                 VObj [("type", VStr "message");
                                       ("role", VStr "user");
                                       ("content",
                                        VArr [VObj [("type", VStr "input_text");
                                                    ("text", VStr t)]])])]));
               Sent d (JSON_stringify (VObj [("type", VStr "response.create")]))]
              ++ if onTranscript (config (client s))
                 then [CbTranscript (VStr t) user] else []) s).
Proof.
  intros Hd Ho. destruct s as [c w tr]. simpl in Hd, Ho.
  unfold RealtimeVoiceClient.sendText, channel_not_open, RealtimeVoiceClient.sendJson, observe. monad.
  simpl. repeat (rewrite ?Hd, ?Ho; simpl).
  destruct (onTranscript (config c)); simpl; rewrite <- ?app_assoc; reflexivity.
Qed.

(** C7: while the control channel is absent or not open, [sendText] and
    [sendToolResult] throw [Error('Data channel not open')] and leave the
    whole state, trace included, as it was. *)
Theorem send_not_open (s : Sys) :
  (forall d, dataChannel (client s) = Some d -> is_open (world s) d = false) ->
  (forall t, sendText t s = (Throw (Error "Data channel not open"), s)) /\
  (forall callId result,
     sendToolResult callId result s = (Throw (Error "Data channel not open"), s)).
Proof.
  intros H.
  assert (Hc : channel_not_open s = true).
  { unfold channel_not_open. destruct (dataChannel (client s)) as [d|]; [|done].
    by rewrite (H d eq_refl). }
  split; intros; unfold RealtimeVoiceClient.sendText, RealtimeVoiceClient.sendToolResult; monad;
    rewrite Hc; reflexivity.
Qed.

(** ** Inbound messages *)

(** C10: a payload [JSON.parse] rejects is caught by the message handler: it
    returns normally, the only effect is the console line, no callback is
    invoked and the client and the platform objects are unchanged. *)
Theorem onmessage_malformed (data : string) (s : Sys) :
  JSON_parse data = None ->
  onmessage data s = (Ok tt, observe [Console "error" "Failed to parse message:"] s).
Proof.
  intros H. unfold RealtimeVoiceClient.onmessage, parse. monad. rewrite H. reflexivity.
Qed.

Lemma is_str_outside (type : Value) (lit : string) :
  (forall t, type = VStr t -> t ∉ vocabulary) -> lit ∈ vocabulary -> is_str type lit = false.
Proof.
  intros H Hin. destruct type; try reflexivity. simpl.
  apply String.eqb_neq. intros ->. exact (H lit eq_refl Hin).
Qed.

(** C9: a message whose [type] is none of the case labels (or is not a
    string at all) is handled by doing nothing: the handler returns normally
    with the state, trace included, as it was; so does the [onmessage]
    handler on a payload that parses to such a message. *)
Theorem unknown_type_noop (message type : Value) (s : Sys) :
  get message "type" = Ok type ->
  (forall t, type = VStr t -> t ∉ vocabulary) ->
  handleRealtimeMessage message s = (Ok tt, s) /\
  (forall data, JSON_parse data = Some message -> onmessage data s = (Ok tt, s)).
Proof.
  intros Hget Hout.
  assert (Hnoop : handleRealtimeMessage message s = (Ok tt, s)).
  { unfold RealtimeVoiceClient.handleRealtimeMessage. monad. rewrite Hget.
    rewrite !(is_str_outside type) by (try exact Hout; unfold vocabulary; repeat constructor).
    reflexivity. }
  split; [exact Hnoop|].
  intros data Hparse. unfold RealtimeVoiceClient.onmessage, parse. monad.
  rewrite Hparse. fold (handleRealtimeMessage message). by rewrite Hnoop.
Qed.


Lemma reattach (l : list AudioElement) (a src : nat) :
  from_option au_src None (l !! a) = Some src ->
  alter (fun au => {| au_autoplay := au_autoplay au; au_muted := au_muted au;
                      au_src := Some src |}) a
    (alter (fun au => {| au_autoplay := au_autoplay au; au_muted := au_muted au;
                         au_src := None |}) a l) = l.
Proof.
  intros H. rewrite list_alter_alter_eq. apply list_eq. intros i.
  destruct (decide (a = i)) as [->|Hne].
  - rewrite list_lookup_alter_eq. destruct (l !! i) as [[ap mu sr]|]; simpl in *; congruence.
  - by rewrite list_lookup_alter_ne.
Qed.

(** C5: on a response-cancelled or response-interrupted message the handler
    returns normally having paused the playback element and detached and
    reattached its source, and nothing else: every field of the client (the
    connection state among them) and every platform object (transport,
    control channel, tracks, the source of the element) is as before. *)
Theorem interruption_keeps_session (message : Value) (s : Sys) :
  get message "type" = Ok (VStr "response.cancelled") \/
  get message "type" = Ok (VStr "response.interrupted") ->
  handleRealtimeMessage message s = (Ok tt, observe (interruption (client s) (world s)) s).
Proof.
  intros Hty. destruct s as [c w tr].
  assert (Hstop : stopPlayback {| client := c; world := w; trace := tr |}
                  = (Ok tt, observe (interruption c w)
                              {| client := c; world := w; trace := tr |})).
  { unfold stopPlayback, interruption, observe. monad. simpl.
    destruct (audioElement c) as [a|]; simpl; [|by rewrite app_nil_r].
    destruct (from_option au_src None (audios w !! a)) as [src|] eqn:Hsrc; simpl; [|done].
    rewrite <- !app_assoc. simpl. do 3 f_equal.
    destruct w; unfold audio_src, set_audios; simpl in *. f_equal. by apply reattach. }
  unfold RealtimeVoiceClient.handleRealtimeMessage. monad.
  destruct Hty as [-> | ->]; simpl; exact Hstop.
Qed.

(** ** disconnect *)

Lemma forEach_world (f : nat -> World -> World) (l : list nat) (s : Sys) :
  forEach (fun t s => (Ok tt, {| client := client s; world := f t (world s);
                                 trace := trace s |})) l s
  = (Ok tt, {| client := client s;
               world := foldl (fun w t => f t w) (world s) l;
               trace := trace s |}).
Proof.
  revert s. induction l as [|t l IH]; intros s; simpl.
  - by destruct s.
  - monad. simpl. rewrite IH. reflexivity.
Qed.

Lemma bind_eq {A B} (m : M A) (k : A -> M B) (s s' : Sys) (a : A) :
  m s = (Ok a, s') -> (m ≫= k) s = k a s'.
Proof. intros H. unfold mbind, M_bind. by rewrite H. Qed.

Section Teardown.

Variables (c : Client) (w : World) (tr : list Obs).

Let s := {| client := c; world := w; trace := tr |}.

Lemma stop_audio_analysis_eq :
  stop_audio_analysis s
  = (Ok tt, {| client := match animationFrameId c with
                         | Some (S _) => set_animationFrameId None c
                         | _ => c
                         end;
               world := match animationFrameId c with
                        | Some (S _ as id) => cancel_frame id w
                        | _ => w
                        end;
               trace := tr |}).
Proof. unfold stop_audio_analysis. monad. simpl. by destruct (animationFrameId c) as [[|?]|]. Qed.

Lemma close_audio_context_eq :
  close_audio_context s
  = (Ok tt, {| client := if audioContext c is Some _
                         then set_outputAnalyser None
                                (set_inputAnalyser None (set_audioContext None c))
                         else c;
               world := from_option (fun x => context_close x w) w (audioContext c);
               trace := tr |}).
Proof. unfold close_audio_context. monad. simpl. by destruct (audioContext c). Qed.

Lemma stop_microphone_tracks_eq :
  stop_microphone_tracks s
  = (Ok tt, {| client := set_localStream None c;
               world := from_option (fun ts => stop_all ts w) w (localStream c);
               trace := tr |}).
Proof.
  unfold stop_microphone_tracks. monad. simpl.
  destruct (localStream c) as [ts|] eqn:H; [by rewrite forEach_world|].
  unfold set_localStream. destruct c; simpl in *. by subst.
Qed.

Lemma stop_sender_tracks_eq :
  stop_sender_tracks s
  = (Ok tt, {| client := set_peerConnection None c;
               world := from_option
                          (fun p => conn_close p
                             (stop_all (from_option pc_senders [] (conns w !! p)) w))
                          w (peerConnection c);
               trace := tr |}).
Proof.
  unfold stop_sender_tracks. monad. simpl.
  destruct (peerConnection c) as [p|] eqn:H; [by rewrite forEach_world|].
  unfold set_peerConnection. destruct c; simpl in *. by subst.
Qed.

Lemma clean_up_audio_element_eq :
  clean_up_audio_element s
  = (Ok tt, {| client := set_audioElement None c;
               world := from_option (fun a => audio_src None a w) w (audioElement c);
               trace := tr ++ from_option (fun a => [AudioPause a; AudioSetSrc a None]) []
                                (audioElement c) |}).
Proof.
  unfold clean_up_audio_element. monad. simpl.
  destruct (audioElement c) as [a|] eqn:H; simpl.
  - by rewrite <- app_assoc.
  - rewrite app_nil_r. unfold set_audioElement. destruct c; simpl in *. by subst.
Qed.

Lemma close_data_channel_eq :
  close_data_channel s
  = (Ok tt, {| client := set_dataChannel None c;
               world := from_option (fun d => channel_close d w) w (dataChannel c);
               trace := tr |}).
Proof.
  unfold close_data_channel. monad. simpl.
  destruct (dataChannel c) as [d|] eqn:H; [done|].
  unfold set_dataChannel. destruct c; simpl in *. by subst.
Qed.

Lemma updateConnectionState_eq (st : ConnectionState) :
  updateConnectionState st s
  = (Ok tt, {| client := set_connectionState st c; world := w;
               trace := tr ++ if onConnectionStateChange (config c)
                              then [CbConnectionStateChange st] else [] |}).
Proof.
  unfold updateConnectionState. monad. simpl.
  destruct (onConnectionStateChange (config c)); simpl; by rewrite ?app_nil_r.
Qed.

End Teardown.

Lemma disconnect_eq (s : Sys) :
  disconnect s = (Ok tt, {| client := teardown_client (client s);
                            world := teardown_world (client s) (world s);
                            trace := trace s ++ teardown_trace (client s) |}).
Proof.
  destruct s as [c w tr]. unfold disconnect.
  erewrite bind_eq by apply stop_audio_analysis_eq.
  erewrite bind_eq by apply close_audio_context_eq.
  erewrite bind_eq by apply stop_microphone_tracks_eq.
  erewrite bind_eq by apply stop_sender_tracks_eq.
  erewrite bind_eq by apply clean_up_audio_element_eq.
  erewrite bind_eq by apply close_data_channel_eq.
  rewrite updateConnectionState_eq.
  unfold teardown_client, teardown_world, teardown_trace, notify_disconnected,
    channel_closed, audio_detached, transport_closed, microphone_stopped,
    context_closed, frame_cancelled.
  destruct c as [pc dc ls au st mm pm ctx ia oa fr cf cid]. simpl.
  rewrite <- app_assoc.
  destruct fr as [[|fr]|], ctx as [ctx|]; reflexivity.
Qed.

(** C4: from every state [disconnect] returns normally and leaves the
    connection state [disconnected]; a second call returns normally too and
    leaves the client and every platform object exactly as the first call
    left them, its only effect being one more notification of
    [disconnected] to the state-change callback, if one is configured. *)
Theorem disconnect_idempotent (s : Sys) :
  exists s1 s2,
    disconnect s = (Ok tt, s1) /\
    connectionState (client s1) = disconnected /\
    disconnect s1 = (Ok tt, s2) /\
    connectionState (client s2) = disconnected /\
    client s2 = client s1 /\
    world s2 = world s1 /\
    trace s2 = (trace s1 ++ notify_disconnected (client s1))%list.
Proof.
  eexists _, _. split; [apply disconnect_eq|]. split; [reflexivity|].
  split; [apply disconnect_eq|]. split; [reflexivity|].
  destruct s as [c w tr]. destruct c as [pc dc ls au st mm pm ctx ia oa fr cf cid].
  simpl. repeat split.
  - unfold teardown_client. simpl. by destruct fr as [[|fr]|], ctx.
  - unfold teardown_world, frame_cancelled. simpl. by destruct fr as [[|fr]|].
Qed.

(** ** Relations every step of a computation respects *)

Section Stable.

Context (R : relation Sys) `{!PreOrder R}.

(** [m] takes every state to an [R]-related one, however it completes. *)
Definition stable {A} (m : M A) : Prop := forall s, R s (snd (m s)).

Lemma stable_ret {A} (a : A) : stable (mret a).
Proof. intros s. reflexivity. Qed.

Lemma stable_throw {A} (e : Exn) : stable (@throw A e).
Proof. intros s. reflexivity. Qed.

Lemma stable_lift {A} (r : Result A) : stable (lift r).
Proof. intros s. reflexivity. Qed.

Lemma stable_gets {A} (f : Sys -> A) : stable (gets f).
Proof. intros s. reflexivity. Qed.

Lemma stable_this {A} (f : Client -> A) : stable (this f).
Proof. apply stable_gets. Qed.

Lemma stable_cfg {A} (f : RealtimeVoiceConfig -> A) : stable (cfg f).
Proof. apply stable_gets. Qed.

Lemma stable_bind {A B} (m : M A) (k : A -> M B) :
  stable m -> (forall a, stable (k a)) -> stable (m ≫= k).
Proof.
  intros Hm Hk s. unfold mbind, M_bind. specialize (Hm s).
  destruct (m s) as [[a|e] s1]; simpl in *; [|done].
  etrans; [exact Hm|apply Hk].
Qed.

Lemma stable_when (b : bool) (m : M unit) : stable m -> stable (when b m).
Proof. intros Hm. destruct b; [exact Hm|apply stable_ret]. Qed.

Lemma stable_try_catch {A} (body : M A) (handler : Exn -> M A) :
  stable body -> (forall e, stable (handler e)) -> stable (try_catch body handler).
Proof.
  intros Hb Hh s. unfold try_catch. specialize (Hb s).
  destruct (body s) as [[a|e] s1]; simpl in *; [done|].
  etrans; [exact Hb|apply Hh].
Qed.

Lemma stable_forEach {A} (f : A -> M unit) (l : list A) :
  (forall x, stable (f x)) -> stable (forEach f l).
Proof.
  intros Hf. induction l as [|x l IH]; simpl; [apply stable_ret|].
  apply stable_bind; [apply Hf|intros _; exact IH].
Qed.

Lemma stable_exec {A} (m : M A) (s : Sys) : stable m -> R s (exec m s).
Proof. intros H. apply H. Qed.

Lemma stable_await_nil {A} (outcome : Result A) : stable (await [] outcome).
Proof. intros s. reflexivity. Qed.

Lemma stable_parse (text : string) : stable (parse JSON_parse text).
Proof. unfold parse. destruct (JSON_parse text); [apply stable_ret|apply stable_throw]. Qed.

End Stable.

(** Splits a computation along its binds and branches; [prim] settles the
    primitive steps. *)
Ltac stable_with prim :=
  repeat first
    [ progress prim
    | solve [apply stable_ret; typeclasses eauto]
    | solve [apply stable_parse; typeclasses eauto]
    | solve [apply stable_throw; typeclasses eauto]
    | solve [apply stable_lift; typeclasses eauto]
    | solve [apply stable_gets; typeclasses eauto]
    | solve [apply stable_this; typeclasses eauto]
    | solve [apply stable_cfg; typeclasses eauto]
    | solve [apply stable_await_nil; typeclasses eauto]
    | apply stable_bind; [typeclasses eauto| |intros ?]
    | apply stable_when; [typeclasses eauto|]
    | apply stable_try_catch; [typeclasses eauto| |intros ?]
    | apply stable_forEach; [typeclasses eauto|intros ?]
    | match goal with
      | |- stable _ (match ?x with _ => _ end) => destruct x
      | |- stable _ (if ?x then _ else _) => destruct x
      end ].

(** *** The connection state is kept *)

Definition same_state : relation Sys :=
  fun s s' => connectionState (client s') = connectionState (client s).

#[local] Instance same_state_preorder : PreOrder same_state.
Proof. split; [by intros s|]. intros s1 s2 s3. unfold same_state. congruence. Qed.

Lemma same_state_emit o : stable same_state (emit o).
Proof. by intros s. Qed.

Lemma same_state_world f : stable same_state (modify_world f).
Proof. by intros s. Qed.

Lemma same_state_client f :
  (forall c, connectionState (f c) = connectionState c) -> stable same_state (modify_client f).
Proof. intros H s. apply H. Qed.

Ltac same_state_prim :=
  idtac; lazymatch goal with
  | |- stable _ (emit _) => apply same_state_emit
  | |- stable _ (modify_world _) => apply same_state_world
  | |- stable _ (modify_client _) => apply same_state_client; intros ?; reflexivity
  end.

Lemma same_state_analyze : stable same_state analyze.
Proof. unfold analyze. stable_with same_state_prim. Qed.

Lemma same_state_setupAudioAnalysis created :
  stable same_state (setupAudioAnalysis created).
Proof.
  unfold setupAudioAnalysis, startAudioAnalysis.
  stable_with ltac:(idtac; lazymatch goal with
                    | |- stable _ analyze => apply same_state_analyze
                    | _ => same_state_prim
                    end).
Qed.

Lemma handleError_eq (e : Exn) (s : Sys) :
  handleError e s
  = (Ok tt, observe (Console "error" "RealtimeVoiceClient error:"
                     :: if onError (config (client s)) then [CbError e] else []) s).
Proof.
  destruct s as [c w tr]. unfold handleError, observe. monad. simpl.
  destruct (onError (config c)); simpl; by rewrite <- ?app_assoc.
Qed.

(** The catch block of [connect]: report, tear down, rethrow. *)
Lemma connect_eq (env : ConnectEnv) (cid : option string) (s : Sys) :
  connect env cid s
  = match connect_body env cid s with
    | (Ok a, s') => (Ok a, s')
    | (Throw e, s') => (Throw e, exec disconnect (exec (handleError e) s'))
    end.
Proof.
  unfold RealtimeVoiceClient.connect, try_catch.
  destruct (connect_body env cid s) as [[a|e] s1]; [done|].
  erewrite bind_eq by apply handleError_eq.
  erewrite bind_eq by apply disconnect_eq.
  unfold exec. by rewrite handleError_eq, disconnect_eq.
Qed.

Lemma tasks_nil (env : ConnectEnv) :
  tasks env = [] ->
  during_token_response env = [] /\ during_token_json env = [] /\
  during_user_media env = [] /\ during_offer env = [] /\
  during_local_description env = [] /\ during_call_response env = [] /\
  during_answer env = [] /\ during_remote_description env = [].
Proof.
  unfold tasks. intros H.
  repeat (apply app_eq_nil in H as [? H]). by repeat split.
Qed.

Lemma connect_body_quiet (env : ConnectEnv) (cid : option string) (s : Sys) :
  tasks env = [] ->
  connectionState (client (snd (connect_body env cid s))) = connecting.
Proof.
  intros Hq. apply tasks_nil in Hq as (H1 & H2 & H3 & H4 & H5 & H6 & H7 & H8).
  destruct s as [c w tr]. unfold RealtimeVoiceClient.connect_body.
  erewrite bind_eq by reflexivity.
  erewrite bind_eq by apply updateConnectionState_eq.
  match goal with
  | |- connectionState (client (snd (?rest ?s1))) = _ =>
      change (same_state s1 (snd (rest s1)));
      generalize s1; change (stable same_state rest)
  end.
  unfold RealtimeVoiceClient.fetchToken, RealtimeVoiceClient.setupDataChannel, the_peerConnection.
  rewrite H1, H2, H3, H4, H5, H6, H7, H8.
  stable_with ltac:(idtac; lazymatch goal with
                    | |- stable _ (setupAudioAnalysis _) =>
                        apply same_state_setupAudioAnalysis
                    | _ => same_state_prim
                    end).
Qed.

Lemma bind_ok_inv {A B} (m : M A) (k : A -> M B) (s s' : Sys) (b : B) :
  (m ≫= k) s = (Ok b, s') -> exists a s1, m s = (Ok a, s1) /\ k a s1 = (Ok b, s').
Proof.
  unfold mbind, M_bind. destruct (m s) as [[a|e] s1]; [|done]. intros H. by exists a, s1.
Qed.

(** *** The transport is kept *)

Definition same_transport : relation Sys := fun s s' => transport s' = transport s.

#[local] Instance same_transport_preorder : PreOrder same_transport.
Proof. split; [by intros s|]. intros s1 s2 s3. unfold same_transport. congruence. Qed.

Lemma same_transport_emit o : stable same_transport (emit o).
Proof. by intros s. Qed.

Lemma same_transport_client f :
  (forall c, peerConnection (f c) = peerConnection c) ->
  stable same_transport (modify_client f).
Proof. intros H s. unfold same_transport, transport. simpl. by rewrite H. Qed.

Lemma same_transport_alter (f : PeerConnection -> PeerConnection) (q : nat) :
  (forall c, pc_closed (f c) = pc_closed c /\ pc_ice (f c) = pc_ice c) ->
  stable same_transport (modify_world (fun w => set_conns (alter f q (conns w)) w)).
Proof.
  intros H s. unfold same_transport, transport. simpl.
  destruct (peerConnection (client s)) as [p|]; simpl; [|done].
  destruct (decide (q = p)) as [->|Hne].
  - rewrite list_lookup_alter_eq. destruct (conns (world s) !! p) as [c|]; simpl; [|done].
    by destruct (H c) as [-> ->].
  - by rewrite list_lookup_alter_ne.
Qed.

Lemma same_transport_channels f :
  stable same_transport (modify_world (fun w => set_channels (f w) w)).
Proof. by intros s. Qed.

Ltac same_transport_prim :=
  idtac; lazymatch goal with
  | |- stable _ (emit _) => apply same_transport_emit
  | |- stable _ (modify_client _) => apply same_transport_client; intros ?; reflexivity
  | |- stable _ (modify_world (fun w => set_conns _ w)) =>
      apply same_transport_alter; intros ?; split; reflexivity
  | |- stable _ (modify_world (fun w => set_channels _ w)) => apply same_transport_channels
  end.

(** After the peer connection is constructed, a quiet [connect] leaves it
    referenced, open and in the ICE state it was created in. *)
Lemma connect_body_transport (env : ConnectEnv) (cid : option string) (s s' : Sys) :
  tasks env = [] ->
  connect_body env cid s = (Ok tt, s') ->
  transport s' = Some (false, ice_new).
Proof.
  intros Hq H. apply tasks_nil in Hq as (H1 & H2 & H3 & H4 & H5 & H6 & H7 & H8).
  unfold RealtimeVoiceClient.connect_body in H.
  do 13 (apply bind_ok_inv in H as (? & ? & _ & H)).
  apply bind_ok_inv in H as (p & s1 & Hp & H).
  apply bind_ok_inv in H as (? & s2 & Hs2 & H).
  apply bind_ok_inv in H as (? & s3 & Hs3 & H).
  unfold gets, modify_world, modify_client in Hp, Hs2, Hs3. simplify_eq.
  match type of H with
  | ?rest ?s3 = _ =>
      assert (Hst : stable same_transport rest);
      [| specialize (Hst s3); rewrite H in Hst; simpl in Hst;
         unfold same_transport in Hst; rewrite Hst ]
  end.
  - unfold RealtimeVoiceClient.setupDataChannel, the_peerConnection.
    rewrite H4, H5, H6, H7, H8. stable_with same_transport_prim.
  - unfold transport. simpl. by rewrite list_lookup_middle.
Qed.

Lemma ice_connected_promotes (s : Sys) (p : nat) (c : PeerConnection) :
  peerConnection (client s) = Some p ->
  conns (world s) !! p = Some c ->
  pc_closed c = false ->
  connectionState (client (dispatch (EvIceConnectionStateChange p ice_connected) s))
  = connected.
Proof.
  intros Hp Hc Hopen. unfold RealtimeVoiceClient.dispatch. rewrite Hc, Hopen.
  unfold oniceconnectionstatechange, exec.
  erewrite bind_eq by reflexivity. erewrite bind_eq by reflexivity.
  erewrite bind_eq by reflexivity. simpl.
  rewrite Hp. simpl. rewrite list_lookup_alter_eq, Hc. simpl.
  by rewrite updateConnectionState_eq.
Qed.

Lemma session_event_promotes (s : Sys) (d : nat) (data : string) (message : Value) :
  connectionState (client s) = connecting ->
  is_open (world s) d = true ->
  JSON_parse data = Some message ->
  get message "type" = Ok (VStr "session.created") \/
  get message "type" = Ok (VStr "session.updated") ->
  connectionState (client (dispatch (EvChannelMessage d data) s)) = connected.
Proof.
  intros Hst Ho Hparse Hty. unfold RealtimeVoiceClient.dispatch. rewrite Ho.
  unfold RealtimeVoiceClient.onmessage, parse, exec, try_catch. rewrite Hparse.
  erewrite bind_eq by reflexivity.
  unfold RealtimeVoiceClient.handleRealtimeMessage.
  destruct s as [c w tr]. simpl in Hst.
  destruct Hty as [Hty | Hty];
    (erewrite (bind_eq (lift _)) by (unfold lift; rewrite Hty; reflexivity));
    simpl; (erewrite bind_eq by reflexivity); simpl;
    rewrite Hst, updateConnectionState_eq; reflexivity.
Qed.

Lemma the_peerConnection_inv (s s1 : Sys) (p : nat) :
  the_peerConnection s = (Ok p, s1) -> s1 = s /\ peerConnection (client s) = Some p.
Proof.
  unfold the_peerConnection. monad.
  destruct (peerConnection (client s)) as [p'|]; [|done]. intros H. by simplify_eq.
Qed.

Lemma await_nil_inv {A} (r : Result A) (s s1 : Sys) (a : A) :
  await [] r s = (Ok a, s1) -> r = Ok a /\ s1 = s.
Proof. unfold RealtimeVoiceClient.await, RealtimeVoiceClient.run. simpl. intros H. by simplify_eq. Qed.

Lemma lift_inv {A} (r : Result A) (s s1 : Sys) (a : A) :
  lift r s = (Ok a, s1) -> r = Ok a /\ s1 = s.
Proof. unfold lift. intros H. by simplify_eq. Qed.

(** What a call of [connect] during which no task runs has done when its
    body returns. *)
Lemma connect_body_exchange (env : ConnectEnv) (cid : option string) (s s' : Sys) :
  tasks env = [] ->
  connect_body env cid s = (Ok tt, s') ->
  exists p c d ch sdp ans r base auth tr,
    offer env = Ok sdp /\ call_response env = Ok r /\ ok r = true /\
    answer env = Ok ans /\
    peerConnection (client s') = Some p /\ conns (world s') !! p = Some c /\
    pc_local c = Some sdp /\ pc_remote c = Some ans /\
    trace s' = (tr ++ [Fetch ((base +:+ "/v1/realtime/calls") +:+ "?model=gpt-realtime")
                         (Some ("Bearer " +:+ auth)) sdp])%list /\
    dataChannel (client s') = Some d /\ channels (world s') !! d = Some ch /\
    dc_ready ch = rs_connecting.
Proof.
  intros Hq H. pose proof (connect_body_transport env cid s s' Hq H) as Htr.
  apply tasks_nil in Hq as (H1 & H2 & H3 & H4 & H5 & H6 & H7 & H8).
  unfold RealtimeVoiceClient.connect_body in H.
  do 17 (apply bind_ok_inv in H as (? & ? & _ & H)).
  apply bind_ok_inv in H as ([] & s5 & Hdc & H).
  unfold RealtimeVoiceClient.setupDataChannel in Hdc.
  apply bind_ok_inv in Hdc as (p0 & sa & Hp0 & Hdc).
  apply bind_ok_inv in Hdc as (? & sb & Hl & Hdc).
  apply bind_ok_inv in Hdc as (d & sc & Hd & Hdc).
  apply bind_ok_inv in Hdc as (? & sd & Hmw & Hdc).
  apply the_peerConnection_inv in Hp0 as [-> Hp0].
  apply lift_inv in Hl as [_ ->].
  unfold gets, modify_world, modify_client in Hd, Hmw, Hdc. simplify_eq.
  rewrite H4, H5, H6, H7, H8 in H.
  apply bind_ok_inv in H as (p1 & s6 & Hp1 & H).
  apply the_peerConnection_inv in Hp1 as [-> Hp1].
  apply bind_ok_inv in H as (sdp & s7 & Hoff & H).
  apply await_nil_inv in Hoff as [Hoff ->].
  apply bind_ok_inv in H as (p2 & s8 & Hp2 & H).
  apply the_peerConnection_inv in Hp2 as [-> Hp2].
  apply bind_ok_inv in H as ([] & s9 & Hloc & H).
  apply await_nil_inv in Hloc as [Hloc ->].
  apply bind_ok_inv in H as ([] & s10 & Hsl & H).
  unfold modify_world in Hsl. simplify_eq.
  apply bind_ok_inv in H as (proxy & s11 & Hpx & H).
  apply lift_inv in Hpx as [Hpx ->].
  apply bind_ok_inv in H as (apiUrl & s12 & Hurl & H).
  destruct (or_else proxy (VStr "https://api.openai.com")) as [| | | |baseUrl| |] eqn:Hbase;
    try discriminate Hurl.
  unfold mret, M_ret in Hurl. simplify_eq.
  apply bind_ok_inv in H as ([] & s13 & Hlog & H).
  unfold emit in Hlog. simplify_eq.
  apply bind_ok_inv in H as (auth & s14 & Hauth & H).
  apply lift_inv in Hauth as [Hauth ->].
  apply bind_ok_inv in H as ([] & s15 & Hf & H).
  unfold emit in Hf. simplify_eq.
  apply bind_ok_inv in H as (r & s16 & Hr & H).
  apply await_nil_inv in Hr as [Hr ->].
  apply bind_ok_inv in H as ([] & s17 & Hok & H).
  destruct (ok r) eqn:Hokr; [|discriminate Hok].
  unfold mret, M_ret in Hok. simplify_eq.
  apply bind_ok_inv in H as (ans & s18 & Hans & H).
  apply await_nil_inv in Hans as [Hans ->].
  apply bind_ok_inv in H as (p3 & s19 & Hp3 & H).
  apply the_peerConnection_inv in Hp3 as [-> Hp3].
  apply bind_ok_inv in H as ([] & s20 & Hrem & H).
  apply await_nil_inv in Hrem as [Hrem ->].
  unfold modify_world in H. simplify_eq.
  cbn [client world trace set_dataChannel peerConnection set_channels conns
       set_conns] in *.
  repeat match goal with
         | H : peerConnection (client sc) = Some ?q |- _ =>
             lazymatch q with
             | p0 => fail
             | _ => rewrite Hp0 in H; injection H as <-
             end
         end.
  unfold transport in Htr.
  cbn [client world trace set_dataChannel peerConnection set_channels conns
       set_conns] in Htr.
  rewrite Hp0 in Htr. cbn [mbind option_bind] in Htr.
  rewrite !list_lookup_alter_eq in Htr.
  destruct (conns (world sc) !! p0) as [c0|] eqn:Hc0; [|done].
  exists p0, (set_remote ans (set_local sdp c0)), (length (channels (world sc))),
    {| dc_ready := rs_connecting; dc_pc := p0 |}, sdp, ans, r, (strip_v1 baseUrl), auth.
  eexists. split_and!; try done.
  - cbn [client world trace set_dataChannel peerConnection set_channels conns set_conns].
    by rewrite !list_lookup_alter_eq, Hc0.
  - cbn [client world trace set_dataChannel peerConnection set_channels conns set_conns
         channels].
    by rewrite list_lookup_middle.
Qed.

(** C1, as the code has it: a call of [connect] during which no task runs
    resolves when the offer/answer exchange is complete and on nothing
    else.  At resolution the offer has been set as the local description
    and posted to the calls endpoint (the last thing observed), the reply
    had a status in 200-299 and its text has been applied as the remote
    description; the connection state is still [connecting], on a peer
    connection that is open and whose ICE state is still [new], and the
    data channel has not opened.  The state becomes [connected]
    afterwards, when the transport reports [connected], or when the
    channel of the session opens and a session-created or session-updated
    message arrives on it. *)
Theorem connect_resolves_on_answer (env : ConnectEnv) (cid : option string) (s s' : Sys) :
  tasks env = [] ->
  connect env cid s = (Ok tt, s') ->
  connectionState (client s') = connecting /\
  transport s' = Some (false, ice_new) /\
  (exists p c sdp ans r base auth tr,
     offer env = Ok sdp /\ call_response env = Ok r /\ ok r = true /\
     answer env = Ok ans /\
     peerConnection (client s') = Some p /\ conns (world s') !! p = Some c /\
     pc_local c = Some sdp /\ pc_remote c = Some ans /\
     trace s' = (tr ++ [Fetch ((base +:+ "/v1/realtime/calls") +:+ "?model=gpt-realtime")
                          (Some ("Bearer " +:+ auth)) sdp])%list) /\
  (forall p, peerConnection (client s') = Some p ->
     connectionState (client (dispatch (EvIceConnectionStateChange p ice_connected) s'))
     = connected) /\
  (exists d,
     dataChannel (client s') = Some d /\
     is_open (world s') d = false /\
     forall data message,
       JSON_parse data = Some message ->
       get message "type" = Ok (VStr "session.created") \/
       get message "type" = Ok (VStr "session.updated") ->
       connectionState (client (run [EvChannelOpen d; EvChannelMessage d data] s'))
       = connected).
Proof.
  intros Hq H. rewrite connect_eq in H.
  destruct (connect_body env cid s) as [[[]|e] s1] eqn:Hbody; [|done].
  injection H as <-.
  assert (Hst : connectionState (client s1) = connecting).
  { pose proof (connect_body_quiet env cid s Hq) as Hc. by rewrite Hbody in Hc. }
  pose proof (connect_body_transport env cid s s1 Hq Hbody) as Htr.
  destruct (connect_body_exchange env cid s s1 Hq Hbody)
    as (p & c & d & ch & sdp & ans & r & base & auth & tr
        & Hoff & Hr & Hok & Hans & Hp & Hc & Hl & Hrm & Htrace & Hd & Hch & Hrs).
  split_and!; [exact Hst|exact Htr| | |].
  - by exists p, c, sdp, ans, r, base, auth, tr.
  - intros p' Hp'. rewrite Hp in Hp'. injection Hp' as <-.
    apply (ice_connected_promotes s1 p c Hp Hc).
    unfold transport in Htr. rewrite Hp in Htr. cbn [mbind option_bind] in Htr.
    rewrite Hc in Htr. cbn in Htr. congruence.
  - exists d. split; [exact Hd|]. split.
    { unfold is_open. by rewrite Hch, Hrs. }
    intros data message Hparse Hty.
    unfold RealtimeVoiceClient.run. cbn [foldl].
    apply session_event_promotes with (message := message); [|
      |exact Hparse|exact Hty].
    + unfold RealtimeVoiceClient.dispatch. rewrite Hch, Hrs. rewrite <- Hst.
      apply (stable_exec same_state). unfold onopen. stable_with same_state_prim.
    + unfold RealtimeVoiceClient.dispatch. rewrite Hch, Hrs.
      destruct s1 as [c1 w1 tr1]. cbn [world] in Hch.
      unfold onopen, nonempty, is_open. monad. simpl.
      destruct (truthy _); simpl; by rewrite list_lookup_alter_eq, Hch.
Qed.


(** ** Ownership of the platform objects *)

#[local] Instance ages_preorder : PreOrder ages.
Proof.
  split.
  - intros w. by split.
  - intros w1 w2 w3 [] []. split; try congruence; auto.
Qed.

Lemma ages_same (w w' : World) :
  tracks w' = tracks w -> conns w' = conns w -> channels w' = channels w -> ages w w'.
Proof.
  intros Ht Hc Hd.
  split; unfold live_track, live_conn, live_channel; rewrite ?Ht, ?Hc, ?Hd; done.
Qed.

Lemma ages_alter_track (f : Track -> Track) (t : nat) (w : World) :
  (forall tr, track_live (f tr) = true -> track_live tr = true) ->
  ages w (set_tracks (alter f t (tracks w)) w).
Proof.
  intros Hf. split; simpl; rewrite ?length_alter; try done.
  intros t'. unfold live_track. simpl.
  destruct (decide (t = t')) as [->|Hne].
  - rewrite list_lookup_alter_eq. destruct (tracks w !! t'); simpl; [apply Hf|done].
  - by rewrite list_lookup_alter_ne.
Qed.

Lemma ages_alter_conn (f : PeerConnection -> PeerConnection) (p : nat) (w : World) :
  (forall c, pc_closed (f c) = false -> pc_closed c = false) ->
  ages w (set_conns (alter f p (conns w)) w).
Proof.
  intros Hf. split; simpl; rewrite ?length_alter; try done.
  intros p'. unfold live_conn. simpl.
  destruct (decide (p = p')) as [->|Hne].
  - rewrite list_lookup_alter_eq. destruct (conns w !! p') as [c|]; simpl; [|done].
    specialize (Hf c). destruct (pc_closed (f c)), (pc_closed c); simpl; try done.
    intros _. by specialize (Hf eq_refl).
  - by rewrite list_lookup_alter_ne.
Qed.

Lemma ages_alter_channel (f : DataChannel -> DataChannel) (d : nat) (w : World) :
  (forall c, active (dc_ready (f c)) = true -> active (dc_ready c) = true) ->
  ages w (set_channels (alter f d (channels w)) w).
Proof.
  intros Hf. split; simpl; rewrite ?length_alter; try done.
  intros d'. unfold live_channel. simpl.
  destruct (decide (d = d')) as [->|Hne].
  - rewrite list_lookup_alter_eq. destruct (channels w !! d'); simpl; [apply Hf|done].
  - by rewrite list_lookup_alter_ne.
Qed.

Lemma ages_track_stop t w : ages w (track_stop t w).
Proof. by apply ages_alter_track. Qed.

Lemma ages_track_enable b t w : ages w (track_enable b t w).
Proof. by apply ages_alter_track. Qed.

Lemma ages_channel_close d w : ages w (channel_close d w).
Proof.
  apply ages_alter_channel. intros c.
  destruct (dc_ready c) eqn:E; simpl; rewrite ?E; done.
Qed.

Lemma ages_conn_close p w : ages w (conn_close p w).
Proof.
  unfold conn_close. etrans; [apply (ages_alter_conn closed_conn p); by intros c|].
  split; simpl; rewrite ?length_fmap; try done.
  intros d. unfold live_channel. simpl. rewrite list_lookup_fmap.
  destruct (alter closed_conn p (conns w)); destruct (channels w !! d) as [c|]; simpl;
    try done; destruct (dc_pc c =? p)%nat; done.
Qed.

Lemma ages_stop_all ts w : ages w (stop_all ts w).
Proof.
  unfold stop_all. revert w. induction ts as [|t ts IH]; intros w; simpl; [done|].
  etrans; [apply ages_track_stop|apply IH].
Qed.

Lemma live_track_lt w t : live_track w t = true -> t < length (tracks w).
Proof.
  unfold live_track. intros H. apply lookup_lt_is_Some.
  destruct (tracks w !! t); [by eexists|done].
Qed.

Lemma live_conn_lt w p : live_conn w p = true -> p < length (conns w).
Proof.
  unfold live_conn. intros H. apply lookup_lt_is_Some.
  destruct (conns w !! p); [by eexists|done].
Qed.

Lemma live_channel_lt w d : live_channel w d = true -> d < length (channels w).
Proof.
  unfold live_channel. intros H. apply lookup_lt_is_Some.
  destruct (channels w !! d); [by eexists|done].
Qed.

Lemma untouched_owned w0 s : untouched w0 s -> owned w0 s.
Proof.
  intros (Ht & Hc & Hd). split.
  - intros t Hle Hl. apply live_track_lt in Hl. lia.
  - intros p Hle Hl. apply live_conn_lt in Hl. lia.
  - intros d Hle Hl. apply live_channel_lt in Hl. lia.
Qed.

(** *** Steps that keep the references and create nothing *)

Definition neutral : relation Sys := fun s s' =>
  localStream (client s') = localStream (client s) /\
  peerConnection (client s') = peerConnection (client s) /\
  dataChannel (client s') = dataChannel (client s) /\
  ages (world s) (world s').

#[local] Instance neutral_preorder : PreOrder neutral.
Proof.
  split.
  - intros s. by split_and!.
  - intros s1 s2 s3 (? & ? & ? & ?) (? & ? & ? & ?).
    split_and!; try congruence. by etrans.
Qed.

(** *** Steps that keep every created object owned *)

Definition safe : relation Sys := fun s s' =>
  (length (tracks (world s')) = length (tracks (world s)) /\
   length (conns (world s')) = length (conns (world s)) /\
   length (channels (world s')) = length (channels (world s))) /\
  forall w0, owned w0 s -> owned w0 s'.

#[local] Instance safe_preorder : PreOrder safe.
Proof.
  split.
  - intros s. by split_and!.
  - intros s1 s2 s3 [(? & ? & ?) H12] [(? & ? & ?) H23].
    split; [split_and!; congruence|auto].
Qed.

Lemma neutral_safe s s' : neutral s s' -> safe s s'.
Proof.
  intros (Hl & Hp & Hd & Ha). split; [by destruct Ha|].
  intros w0 Ho. split.
  - intros t Hle Hlive. rewrite Hl. apply Ho; [done|]. by apply Ha.
  - intros p Hle Hlive. rewrite Hp. apply Ho; [done|]. by apply Ha.
  - intros d Hle Hlive. rewrite Hd. apply Ho; [done|]. by apply Ha.
Qed.

Lemma stable_mono (R R' : relation Sys) {A} (m : M A) :
  (forall s s', R s s' -> R' s s') -> stable R m -> stable R' m.
Proof. intros H Hm s. apply H, Hm. Qed.

Lemma safe_untouched w0 s s' : safe s s' -> untouched w0 s -> untouched w0 s'.
Proof. intros [(? & ? & ?) _] (? & ? & ?). unfold untouched. split_and!; congruence. Qed.

Lemma neutral_emit o : stable neutral (emit o).
Proof. intros s. unfold neutral. simpl. by split_and!. Qed.

Lemma neutral_client f :
  (forall c, localStream (f c) = localStream c /\
             peerConnection (f c) = peerConnection c /\
             dataChannel (f c) = dataChannel c) ->
  stable neutral (modify_client f).
Proof. intros H s. destruct (H (client s)) as (? & ? & ?). by split_and!. Qed.

Lemma neutral_world f : (forall w, ages w (f w)) -> stable neutral (modify_world f).
Proof. intros H s. split_and!; try done; simpl; apply H. Qed.

Ltac solve_ages :=
  first [ apply ages_track_stop | apply ages_track_enable | apply ages_channel_close
        | apply ages_conn_close
        | apply ages_alter_conn; intros ?; simpl; solve [auto]
        | apply ages_same; reflexivity ].

Ltac neutral_prim :=
  idtac; lazymatch goal with
  | |- stable _ (emit _) => apply neutral_emit
  | |- stable _ (modify_client _) => apply neutral_client; intros ?; split_and!; reflexivity
  | |- stable _ (modify_world _) => apply neutral_world; intros ?; solve_ages
  end.

Lemma neutral_updateConnectionState st : stable neutral (updateConnectionState st).
Proof. unfold updateConnectionState. stable_with neutral_prim. Qed.

Lemma neutral_handleError e : stable neutral (handleError e).
Proof. unfold handleError. stable_with neutral_prim. Qed.

Lemma neutral_sendJson data : stable neutral (sendJson data).
Proof. unfold RealtimeVoiceClient.sendJson. stable_with neutral_prim. Qed.

Lemma neutral_analyze : stable neutral analyze.
Proof. unfold analyze. stable_with neutral_prim. Qed.

Lemma neutral_stopPlayback : stable neutral stopPlayback.
Proof. unfold stopPlayback. stable_with neutral_prim. Qed.

Ltac neutral_step :=
  idtac; lazymatch goal with
  | |- stable _ (updateConnectionState _) => apply neutral_updateConnectionState
  | |- stable _ (handleError _) => apply neutral_handleError
  | |- stable _ (sendJson _) => apply neutral_sendJson
  | |- stable _ analyze => apply neutral_analyze
  | |- stable _ startAudioAnalysis => apply neutral_analyze
  | |- stable _ stopPlayback => apply neutral_stopPlayback
  | _ => neutral_prim
  end.

Lemma neutral_handleRealtimeMessage message :
  stable neutral (handleRealtimeMessage message).
Proof.
  unfold RealtimeVoiceClient.handleRealtimeMessage, parse. stable_with neutral_step.
Qed.

Lemma neutral_onmessage data : stable neutral (onmessage data).
Proof.
  unfold RealtimeVoiceClient.onmessage, parse.
  stable_with ltac:(idtac; lazymatch goal with
                    | |- stable _ (handleRealtimeMessage _) =>
                        apply neutral_handleRealtimeMessage
                    | _ => neutral_step
                    end).
Qed.

Lemma neutral_setupPlaybackAnalysis n : stable neutral (setupPlaybackAnalysis n).
Proof. unfold setupPlaybackAnalysis, startAudioAnalysis. stable_with neutral_step. Qed.

Lemma neutral_setupAudioAnalysis created : stable neutral (setupAudioAnalysis created).
Proof. unfold setupAudioAnalysis, startAudioAnalysis. stable_with neutral_step. Qed.

Lemma neutral_ontrack stream n : stable neutral (ontrack stream n).
Proof.
  unfold ontrack.
  stable_with ltac:(idtac; lazymatch goal with
                    | |- stable _ (setupPlaybackAnalysis _) =>
                        apply neutral_setupPlaybackAnalysis
                    | _ => neutral_step
                    end).
Qed.

Lemma neutral_onopen : stable neutral onopen.
Proof. unfold onopen. stable_with neutral_step. Qed.

Lemma neutral_greet : stable neutral greet.
Proof. unfold RealtimeVoiceClient.greet. stable_with neutral_step. Qed.

Lemma neutral_oniceconnectionstatechange : stable neutral oniceconnectionstatechange.
Proof. unfold oniceconnectionstatechange. stable_with neutral_step. Qed.

Lemma neutral_toggleMicrophone b : stable neutral (toggleMicrophone b).
Proof. unfold toggleMicrophone. stable_with neutral_step. Qed.

Lemma neutral_togglePlayback b : stable neutral (togglePlayback b).
Proof. unfold togglePlayback. stable_with neutral_step. Qed.

Lemma neutral_sendText t : stable neutral (sendText t).
Proof. unfold RealtimeVoiceClient.sendText. stable_with neutral_step. Qed.

Lemma neutral_sendToolResult callId result : stable neutral (sendToolResult callId result).
Proof. unfold RealtimeVoiceClient.sendToolResult. stable_with neutral_step. Qed.

(** *** disconnect releases what the client refers to *)

Lemma track_stop_kills t w : live_track (track_stop t w) t = false.
Proof.
  unfold live_track, track_stop. simpl. rewrite list_lookup_alter_eq.
  by destruct (tracks w !! t).
Qed.

Lemma dead_stays_dead w w' t : ages w w' -> live_track w t = false -> live_track w' t = false.
Proof.
  intros Ha Hd. destruct (live_track w' t) eqn:E; [|done].
  apply Ha in E. congruence.
Qed.

Lemma closed_stays_closed w w' p : ages w w' -> live_conn w p = false -> live_conn w' p = false.
Proof.
  intros Ha Hd. destruct (live_conn w' p) eqn:E; [|done].
  apply Ha in E. congruence.
Qed.

Lemma inactive_stays_inactive w w' d :
  ages w w' -> live_channel w d = false -> live_channel w' d = false.
Proof.
  intros Ha Hd. destruct (live_channel w' d) eqn:E; [|done].
  apply Ha in E. congruence.
Qed.

Lemma stop_all_kills ts t w : t ∈ ts -> live_track (stop_all ts w) t = false.
Proof.
  revert w. induction ts as [|t' ts IH]; intros w Hin; [by apply elem_of_nil in Hin|].
  apply elem_of_cons in Hin as [->|Hin]; [|by apply IH].
  change (live_track (stop_all ts (track_stop t' w)) t' = false).
  eapply dead_stays_dead; [apply ages_stop_all|apply track_stop_kills].
Qed.

Lemma conn_close_kills p w : live_conn (conn_close p w) p = false.
Proof.
  unfold live_conn, conn_close. simpl. rewrite list_lookup_alter_eq.
  by destruct (conns w !! p).
Qed.

Lemma channel_close_kills d w : live_channel (channel_close d w) d = false.
Proof.
  unfold live_channel, channel_close. simpl. rewrite list_lookup_alter_eq.
  destruct (channels w !! d) as [c|]; simpl; [|done]. by destruct (dc_ready c) eqn:E; simpl; rewrite ?E.
Qed.

Lemma ages_frame_cancelled c w : ages w (frame_cancelled c w).
Proof. unfold frame_cancelled. destruct (animationFrameId c) as [[|?]|]; by apply ages_same. Qed.

Lemma ages_context_closed c w : ages w (context_closed c w).
Proof. unfold context_closed. destruct (audioContext c); by apply ages_same. Qed.

Lemma ages_microphone_stopped c w : ages w (microphone_stopped c w).
Proof. unfold microphone_stopped. destruct (localStream c); [apply ages_stop_all|done]. Qed.

Lemma ages_transport_closed c w : ages w (transport_closed c w).
Proof.
  unfold transport_closed. destruct (peerConnection c); simpl; [|done].
  etrans; [apply ages_stop_all|apply ages_conn_close].
Qed.

Lemma ages_audio_detached c w : ages w (audio_detached c w).
Proof. unfold audio_detached. destruct (audioElement c); by apply ages_same. Qed.

Lemma ages_channel_closed c w : ages w (channel_closed c w).
Proof. unfold channel_closed. destruct (dataChannel c); [apply ages_channel_close|done]. Qed.

Lemma ages_teardown c w : ages w (teardown_world c w).
Proof.
  unfold teardown_world.
  etrans; [apply ages_frame_cancelled|]. etrans; [apply ages_context_closed|].
  etrans; [apply ages_microphone_stopped|]. etrans; [apply ages_transport_closed|].
  etrans; [apply ages_audio_detached|]. apply ages_channel_closed.
Qed.

Lemma teardown_released (w0 : World) (s : Sys) :
  owned w0 s -> released w0 (teardown_world (client s) (world s)).
Proof.
  intros Ho. pose proof (ages_teardown (client s) (world s)) as Ha.
  split.
  - intros t Hle. destruct (live_track (world s) t) eqn:Hl;
      [|by eapply dead_stays_dead].
    destruct (owned_track _ _ Ho t Hle Hl) as (ts & Hts & Hin).
    unfold teardown_world.
    eapply dead_stays_dead.
    { etrans; [apply ages_transport_closed|].
      etrans; [apply ages_audio_detached|apply ages_channel_closed]. }
    unfold microphone_stopped. rewrite Hts. simpl. by apply stop_all_kills.
  - intros p Hle. destruct (live_conn (world s) p) eqn:Hl;
      [|by eapply closed_stays_closed].
    pose proof (owned_conn _ _ Ho p Hle Hl) as Hp.
    unfold teardown_world.
    eapply closed_stays_closed.
    { etrans; [apply ages_audio_detached|apply ages_channel_closed]. }
    unfold transport_closed. rewrite Hp. simpl. apply conn_close_kills.
  - intros d Hle. destruct (live_channel (world s) d) eqn:Hl;
      [|by eapply inactive_stays_inactive].
    pose proof (owned_channel _ _ Ho d Hle Hl) as Hd.
    unfold teardown_world, channel_closed. rewrite Hd. simpl.
    apply channel_close_kills.
Qed.

Lemma released_owned (w0 : World) (s : Sys) : released w0 (world s) -> owned w0 s.
Proof.
  intros [Ht Hp Hd]. split.
  - intros t Hle Hl. rewrite Ht in Hl; done.
  - intros p Hle Hl. rewrite Hp in Hl; done.
  - intros d Hle Hl. rewrite Hd in Hl; done.
Qed.

Lemma safe_disconnect : stable safe disconnect.
Proof.
  intros s. rewrite disconnect_eq. simpl.
  pose proof (ages_teardown (client s) (world s)) as Ha.
  split; [by destruct Ha|].
  intros w0 Ho. apply released_owned. simpl. by apply teardown_released.
Qed.

(** *** The event loop keeps every created object owned *)

Lemma ages_open (d : nat) (c : DataChannel) (w : World) :
  channels w !! d = Some c -> dc_ready c = rs_connecting ->
  ages w (set_channels (alter (set_ready rs_open) d (channels w)) w).
Proof.
  intros Hc Hr. split; simpl; rewrite ?length_alter; try done.
  intros d'. unfold live_channel. simpl.
  destruct (decide (d = d')) as [->|Hne].
  - rewrite list_lookup_alter_eq, Hc. simpl. by rewrite Hr.
  - by rewrite list_lookup_alter_ne.
Qed.

Lemma neutral_dispatch_ice p st :
  stable neutral (modify_world (fun w => set_conns (alter (set_ice st) p (conns w)) w) ;;
                  oniceconnectionstatechange).
Proof.
  stable_with ltac:(idtac; lazymatch goal with
                    | |- stable _ oniceconnectionstatechange =>
                        apply neutral_oniceconnectionstatechange
                    | _ => neutral_step
                    end).
Qed.

Lemma neutral_dispatch_timeout n : stable neutral (modify_world (set_timers n) ;; greet).
Proof.
  stable_with ltac:(idtac; lazymatch goal with
                    | |- stable _ greet => apply neutral_greet
                    | _ => neutral_step
                    end).
Qed.

Lemma neutral_dispatch_frame id : stable neutral (modify_world (cancel_frame id) ;; analyze).
Proof. stable_with neutral_step. Qed.

Lemma safe_dispatch (ev : Event) (s : Sys) : safe s (dispatch ev s).
Proof.
  destruct ev; unfold RealtimeVoiceClient.dispatch.
  - destruct (conns (world s) !! pc) as [c|]; [|reflexivity].
    destruct (pc_closed c); [reflexivity|]. apply neutral_safe, neutral_dispatch_ice.
  - destruct (conns (world s) !! pc) as [c|]; [|reflexivity].
    destruct (pc_closed c); [reflexivity|]. apply neutral_safe, neutral_ontrack.
  - destruct (channels (world s) !! dc) as [c|] eqn:Hc; [|reflexivity].
    destruct (dc_ready c) eqn:Hr; try reflexivity.
    unfold exec. erewrite bind_eq by reflexivity. apply neutral_safe.
    etrans; [|apply neutral_onopen].
    unfold neutral. simpl. split_and!; try done. by eapply ages_open.
  - destruct (is_open (world s) dc); [|reflexivity]. apply neutral_safe, neutral_onmessage.
  - destruct (channels (world s) !! dc); [|reflexivity]. apply neutral_safe, neutral_handleError.
  - destruct (timers (world s)); [reflexivity|]. apply neutral_safe, neutral_dispatch_timeout.
  - case_bool_decide; [|reflexivity]. apply neutral_safe, neutral_dispatch_frame.
  - apply safe_disconnect.
  - apply neutral_safe, neutral_toggleMicrophone.
  - apply neutral_safe, neutral_togglePlayback.
  - apply neutral_safe, neutral_sendText.
  - apply neutral_safe, neutral_sendToolResult.
Qed.

Lemma safe_run (tasks : list Event) (s : Sys) : safe s (run tasks s).
Proof.
  unfold RealtimeVoiceClient.run. revert s. induction tasks as [|ev tasks IH]; intros s; simpl;
    [reflexivity|].
  etrans; [apply (safe_dispatch ev)|apply IH].
Qed.

Lemma safe_await {A} (tasks : list Event) (outcome : Result A) :
  stable safe (await tasks outcome).
Proof. intros s. apply safe_run. Qed.

(** ** connect keeps what it creates owned *)

(** [m], run from [s], ends in a state satisfying [Q] when it returns and
    [E] when it throws. *)
Definition wp {A} (m : M A) (Q : A -> Sys -> Prop) (E : Sys -> Prop) (s : Sys) : Prop :=
  match m s with
  | (Ok a, s') => Q a s'
  | (Throw _, s') => E s'
  end.

Lemma wp_bind {A B} (m : M A) (k : A -> M B) Q E s :
  wp m (fun a => wp (k a) Q E) E s -> wp (m ≫= k) Q E s.
Proof. unfold wp, mbind, M_bind. by destruct (m s) as [[a|e] s1]. Qed.

Lemma wp_bind_eq {A B} (m : M A) (k : A -> M B) Q E s a s1 :
  m s = (Ok a, s1) -> wp (k a) Q E s1 -> wp (m ≫= k) Q E s.
Proof. intros Hm H. apply wp_bind. unfold wp at 1. by rewrite Hm. Qed.

Lemma wp_stable {A} (R : relation Sys) (m : M A) Q E s :
  stable R m -> (forall s', R s s' -> (forall a, Q a s') /\ E s') -> wp m Q E s.
Proof.
  intros Hm H. unfold wp. specialize (Hm s). destruct (m s) as [[a|e] s1]; simpl in Hm.
  - by apply H.
  - by apply H.
Qed.

(** One step that keeps the phase invariant [P]. *)
Lemma wp_step {A B} (R : relation Sys) (P : Sys -> Prop) (m : M A) (k : A -> M B) Q E s :
  stable R m ->
  P s ->
  (forall s s', P s -> R s s' -> P s') ->
  (forall s, P s -> E s) ->
  (forall a s', P s' -> wp (k a) Q E s') ->
  wp (m ≫= k) Q E s.
Proof.
  intros Hm HP Hclosed HE Hk. apply wp_bind. apply (wp_stable R); [done|].
  intros s' HR. split; [intros a; apply Hk|apply HE]; by eapply Hclosed.
Qed.

Ltac safe_step :=
  idtac; lazymatch goal with
  | |- stable _ (await _ _) => apply safe_await
  | |- stable _ disconnect => apply safe_disconnect
  | |- stable _ (setupAudioAnalysis _) =>
      apply (stable_mono neutral safe); [exact neutral_safe|apply neutral_setupAudioAnalysis]
  | |- stable _ _ =>
      apply (stable_mono neutral safe); [exact neutral_safe|neutral_step]
  end.

Section Phases.

Variable w0 : World.

(** The phases of [connect]: nothing created yet; the microphone acquired;
    the transport constructed; the channel attached. *)
Definition acquired (s : Sys) : Prop :=
  owned w0 s /\
  length (conns (world s)) = length (conns w0) /\
  length (channels (world s)) = length (channels w0).

Definition constructed (s : Sys) : Prop :=
  owned w0 s /\ length (channels (world s)) = length (channels w0).

Lemma untouched_safe s s' : untouched w0 s -> safe s s' -> untouched w0 s'.
Proof. intros. by eapply safe_untouched. Qed.

Lemma acquired_safe s s' : acquired s -> safe s s' -> acquired s'.
Proof.
  intros (Ho & Hc & Hd) [(Ht' & Hc' & Hd') Hsafe]. unfold acquired.
  split_and!; [auto|congruence..].
Qed.

Lemma constructed_safe s s' : constructed s -> safe s s' -> constructed s'.
Proof.
  intros (Ho & Hd) [(Ht' & Hc' & Hd') Hsafe]. unfold constructed.
  split_and!; [auto|congruence].
Qed.

Lemma owned_safe s s' : owned w0 s -> safe s s' -> owned w0 s'.
Proof. intros Ho [_ Hsafe]. auto. Qed.

Lemma connect_body_owned (env : ConnectEnv) (cid : option string) (s : Sys) :
  untouched w0 s ->
  wp (connect_body env cid) (fun _ => owned w0) (owned w0) s.
Proof.
  intros H0. unfold RealtimeVoiceClient.connect_body, RealtimeVoiceClient.fetchToken.
  (* nothing created: up to the resolution of getUserMedia *)
  do 7 (eapply (wp_step safe (untouched w0));
        [stable_with safe_step|done|apply untouched_safe|apply untouched_owned|];
        clear s H0; intros ? s H0).
  (* this.localStream = <the stream> *)
  do 3 (eapply wp_bind_eq; [reflexivity|]).
  match goal with |- wp _ _ _ ?s1 => assert (H1 : acquired s1) end.
  { destruct H0 as (Ht & Hc & Hd). split_and!; [|done..]. split; simpl.
    - intros t Hle Hl. eexists. split; [done|].
      apply live_track_lt in Hl. simpl in Hl.
      rewrite length_app, length_replicate in Hl. apply elem_of_seq. lia.
    - intros p Hle Hl. apply live_conn_lt in Hl. simpl in Hl. lia.
    - intros d Hle Hl. apply live_channel_lt in Hl. simpl in Hl. lia. }
  match goal with |- wp _ _ _ ?s1 => generalize dependent s1 end.
  intros s1 H1.
  do 3 (eapply (wp_step safe acquired);
        [stable_with safe_step|done|apply acquired_safe|by intros ? []|];
        clear s1 H1; intros ? s1 H1).
  (* this.peerConnection = new RTCPeerConnection() *)
  do 3 (eapply wp_bind_eq; [reflexivity|]).
  match goal with |- wp _ _ _ ?s1 => assert (H2 : constructed s1) end.
  { destruct H1 as (Ho & Hc & Hd). split; [|done]. split; simpl.
    - intros t Hle Hl. by apply Ho.
    - intros p Hle Hl. apply live_conn_lt in Hl. simpl in Hl.
      rewrite length_app in Hl. simpl in Hl. f_equal. lia.
    - intros d Hle Hl. apply live_channel_lt in Hl. simpl in Hl. lia. }
  match goal with |- wp _ _ _ ?s1 => generalize dependent s1 end.
  intros s2 H2.
  eapply (wp_step safe constructed);
    [stable_with safe_step|done|apply constructed_safe|by intros ? []|].
  clear s2 H2. intros _ s2 H2.
  (* this.dataChannel = createDataChannel('oai-events') *)
  apply wp_bind. unfold RealtimeVoiceClient.setupDataChannel.
  do 2 (eapply (wp_step safe constructed);
        [stable_with safe_step|done|apply constructed_safe|by intros ? []|];
        clear s2 H2; intros ? s2 H2).
  do 2 (eapply wp_bind_eq; [reflexivity|]).
  unfold wp at 1. simpl.
  match goal with |- wp _ _ _ ?s1 => assert (H3 : owned w0 s1) end.
  { destruct H2 as (Ho & Hd). split; simpl.
    - intros t Hle Hl. by apply Ho.
    - intros p Hle Hl. by apply Ho.
    - intros d Hle Hl. apply live_channel_lt in Hl. simpl in Hl.
      rewrite length_app in Hl. simpl in Hl. f_equal. lia. }
  match goal with |- wp _ _ _ ?s1 => generalize dependent s1 end.
  intros s3 H3.
  (* the handshake *)
  apply (wp_stable safe); [stable_with safe_step|].
  intros s' Hs. split; [intros _|]; by eapply owned_safe.
Qed.

End Phases.

(** C2, as the code has it: when [connect] rejects, the catch block has
    reported the error and run [disconnect]: the connection state is
    [disconnected] (not [error]), the client refers to no stream, transport
    or channel, and every track, peer connection and data channel created
    during the call has been stopped or closed, whatever the step that
    failed and whatever tasks ran while the call was suspended; the tasks
    are platform events and calls of the public methods other than
    [connect], so no other call of [connect] overlaps this one. *)
Theorem connect_failure_releases (env : ConnectEnv) (cid : option string)
    (s s' : Sys) (e : Exn) :
  connect env cid s = (Throw e, s') ->
  connectionState (client s') = disconnected /\
  localStream (client s') = None /\
  peerConnection (client s') = None /\
  dataChannel (client s') = None /\
  released (world s) (world s') /\
  (onError (config (client s')) = true -> CbError e ∈ trace s').
Proof.
  intros H. rewrite connect_eq in H.
  pose proof (connect_body_owned (world s) env cid s) as Hwp.
  unfold wp in Hwp.
  destruct (connect_body env cid s) as [[a|e'] s1]; [done|].
  injection H as -> <-.
  assert (Ho : owned (world s) s1) by by apply Hwp.
  unfold exec. rewrite handleError_eq. simpl. rewrite disconnect_eq. simpl.
  split_and!; try reflexivity.
  - by apply (teardown_released (world s) s1).
  - intros Hcb. rewrite Hcb. rewrite !elem_of_app. left. right.
    apply elem_of_cons. right. by apply list_elem_of_singleton.
Qed.

(** ** connect does not look at the connection state *)

#[local] Instance lasts_preorder : PreOrder lasts.
Proof.
  split.
  - intros w. by split.
  - intros w1 w2 w3 [] []. split; try lia; auto.
Qed.

Lemma lasts_same (w w' : World) :
  tracks w' = tracks w -> conns w' = conns w -> channels w' = channels w -> lasts w w'.
Proof.
  intros Ht Hc Hd.
  split; unfold live_track, live_conn, live_channel; rewrite ?Ht, ?Hc, ?Hd; done.
Qed.

Lemma lasts_new_tracks (l : list Track) (w : World) : lasts w (set_tracks (tracks w ++ l) w).
Proof.
  split; simpl; rewrite ?length_app; try lia; try done.
  intros t Hl. unfold live_track in *. simpl.
  rewrite lookup_app_l; [done|]. by apply live_track_lt.
Qed.

Lemma lasts_new_conns (l : list PeerConnection) (w : World) :
  lasts w (set_conns (conns w ++ l) w).
Proof.
  split; simpl; rewrite ?length_app; try lia; try done.
  intros p Hl. unfold live_conn in *. simpl.
  rewrite lookup_app_l; [done|]. by apply live_conn_lt.
Qed.

Lemma lasts_new_channels (l : list DataChannel) (w : World) :
  lasts w (set_channels (channels w ++ l) w).
Proof.
  split; simpl; rewrite ?length_app; try lia; try done.
  intros d Hl. unfold live_channel in *. simpl.
  rewrite lookup_app_l; [done|]. by apply live_channel_lt.
Qed.

Lemma lasts_alter_conn (f : PeerConnection -> PeerConnection) (p : nat) (w : World) :
  (forall c, pc_closed (f c) = pc_closed c) ->
  lasts w (set_conns (alter f p (conns w)) w).
Proof.
  intros Hf. split; simpl; rewrite ?length_alter; try done.
  intros p'. unfold live_conn. simpl.
  destruct (decide (p = p')) as [->|Hne].
  - rewrite list_lookup_alter_eq. destruct (conns w !! p') as [c|]; simpl; [|done].
    by rewrite Hf.
  - by rewrite list_lookup_alter_ne.
Qed.

(** Steps that keep the three references and every live object. *)
Definition kept : relation Sys := fun s s' =>
  localStream (client s') = localStream (client s) /\
  peerConnection (client s') = peerConnection (client s) /\
  dataChannel (client s') = dataChannel (client s) /\
  lasts (world s) (world s').

#[local] Instance kept_preorder : PreOrder kept.
Proof.
  split.
  - intros s. by split_and!.
  - intros s1 s2 s3 (? & ? & ? & ?) (? & ? & ? & ?).
    split_and!; try congruence. by etrans.
Qed.

Lemma kept_emit o : stable kept (emit o).
Proof. intros s. unfold kept. simpl. by split_and!. Qed.

Lemma kept_client f :
  (forall c, localStream (f c) = localStream c /\
             peerConnection (f c) = peerConnection c /\
             dataChannel (f c) = dataChannel c) ->
  stable kept (modify_client f).
Proof. intros H s. destruct (H (client s)) as (? & ? & ?). by split_and!. Qed.

Lemma kept_world f : (forall w, lasts w (f w)) -> stable kept (modify_world f).
Proof. intros H s. split_and!; try done; simpl; apply H. Qed.

Ltac kept_prim :=
  idtac; lazymatch goal with
  | |- stable _ (emit _) => apply kept_emit
  | |- stable _ (modify_client _) => apply kept_client; intros ?; split_and!; reflexivity
  | |- stable _ (modify_world _) =>
      apply kept_world; intros ?;
      first [ apply lasts_alter_conn; intros ?; reflexivity
            | apply lasts_same; reflexivity ]
  end.

Lemma kept_setupAudioAnalysis created : stable kept (setupAudioAnalysis created).
Proof. unfold setupAudioAnalysis, startAudioAnalysis, analyze. stable_with kept_prim. Qed.

Ltac kept_step :=
  idtac; lazymatch goal with
  | |- stable _ (setupAudioAnalysis _) => apply kept_setupAudioAnalysis
  | _ => kept_prim
  end.

Section Again.

Variable w0 : World.

(** The phases of a quiet [connect], relative to the world it started in. *)
Definition began (s : Sys) : Prop := lasts w0 (world s).

Definition has_stream (s : Sys) : Prop :=
  began s /\
  exists ts, localStream (client s) = Some ts /\ forall t, t ∈ ts -> length (tracks w0) <= t.

Definition has_transport (s : Sys) : Prop :=
  has_stream s /\ exists p, peerConnection (client s) = Some p /\ length (conns w0) <= p.

Definition has_channel (s : Sys) : Prop :=
  has_transport s /\ exists d, dataChannel (client s) = Some d /\ length (channels w0) <= d.

Lemma began_kept s s' : began s -> kept s s' -> began s'.
Proof. intros Hb (_ & _ & _ & Hl). unfold began. by etrans. Qed.

Lemma has_stream_kept s s' : has_stream s -> kept s s' -> has_stream s'.
Proof.
  intros [Hb Hs] Hk. split; [by eapply began_kept|].
  destruct Hk as (-> & _). done.
Qed.

Lemma has_transport_kept s s' : has_transport s -> kept s s' -> has_transport s'.
Proof.
  intros [Hb Hs] Hk. split; [by eapply has_stream_kept|].
  destruct Hk as (_ & -> & _). done.
Qed.

Lemma has_channel_kept s s' : has_channel s -> kept s s' -> has_channel s'.
Proof.
  intros [Hb Hs] Hk. split; [by eapply has_transport_kept|].
  destruct Hk as (_ & _ & -> & _). done.
Qed.

Lemma connect_body_again (env : ConnectEnv) (cid : option string) (s : Sys) :
  tasks env = [] ->
  began s ->
  wp (connect_body env cid) (fun _ => has_channel) (fun _ => True) s.
Proof.
  intros Hq H0. apply tasks_nil in Hq as (Q1 & Q2 & Q3 & Q4 & Q5 & Q6 & Q7 & Q8).
  unfold RealtimeVoiceClient.connect_body, RealtimeVoiceClient.fetchToken.
  rewrite Q1, Q2, Q3, Q4, Q5, Q6, Q7, Q8.
  do 7 (eapply (wp_step kept began);
        [stable_with kept_step|done|apply began_kept|done|];
        clear s H0; intros ? s H0).
  (* this.localStream = <the stream> *)
  do 3 (eapply wp_bind_eq; [reflexivity|]).
  match goal with |- wp _ _ _ ?s1 => assert (H1 : has_stream s1) end.
  { split.
    - unfold began. simpl. etrans; [exact H0|]. apply lasts_new_tracks.
    - eexists. split; [done|]. simpl. intros t Ht. apply elem_of_seq in Ht.
      pose proof (lasts_tracks _ _ H0). lia. }
  match goal with |- wp _ _ _ ?s1 => generalize dependent s1 end.
  intros s1 H1.
  do 3 (eapply (wp_step kept has_stream);
        [stable_with kept_step|done|apply has_stream_kept|done|];
        clear s1 H1; intros ? s1 H1).
  (* this.peerConnection = new RTCPeerConnection() *)
  do 3 (eapply wp_bind_eq; [reflexivity|]).
  match goal with |- wp _ _ _ ?s1 => assert (H2 : has_transport s1) end.
  { destruct H1 as [Hb Hs]. split; [split|].
    - unfold began. simpl. etrans; [exact Hb|]. apply lasts_new_conns.
    - exact Hs.
    - eexists. split; [done|]. simpl. apply (lasts_conns _ _ Hb). }
  match goal with |- wp _ _ _ ?s1 => generalize dependent s1 end.
  intros s2 H2.
  eapply (wp_step kept has_transport);
    [stable_with kept_step|done|apply has_transport_kept|done|].
  clear s2 H2. intros _ s2 H2.
  (* this.dataChannel = createDataChannel('oai-events') *)
  apply wp_bind. unfold RealtimeVoiceClient.setupDataChannel.
  do 2 (eapply (wp_step kept has_transport);
        [stable_with kept_step|done|apply has_transport_kept|done|];
        clear s2 H2; intros ? s2 H2).
  do 2 (eapply wp_bind_eq; [reflexivity|]).
  unfold wp at 1. simpl.
  match goal with |- wp _ _ _ ?s1 => assert (H3 : has_channel s1) end.
  { destruct H2 as [[Hb Hs] Hp]. split; [split; [split|]|].
    - unfold began. simpl. etrans; [exact Hb|]. apply lasts_new_channels.
    - exact Hs.
    - exact Hp.
    - eexists. split; [done|]. simpl. apply (lasts_channels _ _ Hb). }
  match goal with |- wp _ _ _ ?s1 => generalize dependent s1 end.
  intros s3 H3.
  (* the handshake *)
  apply (wp_stable kept); [stable_with kept_step|].
  intros s' Hs. split; [intros _|done]. by eapply has_channel_kept.
Qed.

End Again.

(** C3, as the code has it: [connect] has no guard.  It never reads the
    connection state, so a call made while [connecting] or [connected] runs
    exactly as a call made from any other state with the same fields; and
    whenever a call during which no task runs resolves, the client refers to
    a stream, a peer connection and a data channel that did not exist
    before the call, while every track, connection and channel that was
    live before the call is still live: nothing of the previous session is
    stopped or closed. *)
Theorem connect_unguarded (env : ConnectEnv) (cid : option string) (s : Sys) :
  (forall st,
     connect env cid {| client := set_connectionState st (client s);
                        world := world s; trace := trace s |}
     = connect env cid s) /\
  (tasks env = [] ->
   forall s', connect env cid s = (Ok tt, s') ->
     lasts (world s) (world s') /\
     (exists ts, localStream (client s') = Some ts /\
                 forall t, t ∈ ts -> length (tracks (world s)) <= t) /\
     (exists p, peerConnection (client s') = Some p /\ length (conns (world s)) <= p) /\
     (exists d, dataChannel (client s') = Some d /\ length (channels (world s)) <= d)).
Proof.
  split.
  - intros st. destruct s as [c w tr]. simpl.
    unfold RealtimeVoiceClient.connect, try_catch, RealtimeVoiceClient.connect_body.
    erewrite !(bind_eq (modify_client _)) by reflexivity.
    erewrite !(bind_eq (updateConnectionState _)) by apply updateConnectionState_eq.
    by destruct c.
  - intros Hq s' H. rewrite connect_eq in H.
    pose proof (connect_body_again (world s) env cid s Hq) as Hwp. unfold wp in Hwp.
    destruct (connect_body env cid s) as [[[]|e] s1]; [|done].
    injection H as <-.
    destruct Hwp as [[[Hb Hs] Hp] Hd]; [by unfold began|]. by split_and!.
Qed.

(** * Further properties of the client *)

(** ** The whole session *)

(** X1: once [connect] has resolved, whatever platform events and calls of
    the public methods other than [connect] run during it and afterwards, a
    call of [disconnect] leaves no track, peer connection or data channel
    created since the call of [connect] live, and the state
    [disconnected]. *)
Theorem session_released (env : ConnectEnv) (cid : option string) (s s1 : Sys)
    (later : list Event) :
  connect env cid s = (Ok tt, s1) ->
  released (world s) (world (exec disconnect (run later s1))) /\
  connectionState (client (exec disconnect (run later s1))) = disconnected.
Proof.
  intros H. rewrite connect_eq in H.
  pose proof (connect_body_owned (world s) env cid s) as Hwp. unfold wp in Hwp.
  destruct (connect_body env cid s) as [[[]|e] s0]; [|done].
  injection H as <-.
  assert (Ho : owned (world s) s0) by by apply Hwp.
  assert (Ho' : owned (world s) (run later s0)) by by apply (safe_run later s0).
  unfold exec. rewrite disconnect_eq. simpl. split; [|done].
  by apply teardown_released.
Qed.

(** ** Muting the microphone *)

Lemma toggleMicrophone_eq (b : bool) (s : Sys) :
  toggleMicrophone b s
  = (Ok tt, {| client := set_microphoneMuted (negb b) (client s);
               world := from_option (fun ts => enable_all b ts (world s)) (world s)
                          (localStream (client s));
               trace := trace s |}).
Proof.
  destruct s as [c w tr]. unfold toggleMicrophone. monad. simpl.
  destruct (localStream c) as [ts|]; simpl; [|done]. by rewrite forEach_world.
Qed.

Lemma enable_all_rest (b : bool) (ts : list nat) (w : World) :
  enable_all b ts w = set_tracks (tracks (enable_all b ts w)) w.
Proof.
  unfold enable_all. revert w. induction ts as [|t ts IH]; intros w; simpl.
  - by destruct w.
  - rewrite IH. unfold track_enable at 2. by destruct w.
Qed.

Lemma enable_all_lookup (b : bool) (ts : list nat) (w : World) (t : nat) :
  tracks (enable_all b ts w) !! t
  = if bool_decide (t ∈ ts) then enabled_as b <$> tracks w !! t else tracks w !! t.
Proof.
  unfold enable_all. revert w. induction ts as [|t' ts IH]; intros w; cbn [foldl].
  - rewrite bool_decide_eq_false_2; [done|]. apply not_elem_of_nil.
  - rewrite IH. unfold track_enable. cbn [tracks set_tracks].
    fold (enabled_as b).
    destruct (decide (t' = t)) as [->|Hne].
    + rewrite list_lookup_alter_eq.
      rewrite (bool_decide_eq_true_2 (t ∈ t :: ts)) by (apply elem_of_cons; by left).
      case_bool_decide; [|done]. by destruct (tracks w !! t).
    + rewrite list_lookup_alter_ne by done.
      rewrite (bool_decide_ext (t ∈ t' :: ts) (t ∈ ts)); [done|].
      rewrite elem_of_cons. split; [by intros [->|?]|by right].
Qed.

(** X2: [toggleMicrophone(enabled)] is local to the media pipeline: it
    returns normally, nothing is sent or notified, every track of the
    captured stream has its [enabled] flag set to [enabled] and keeps its
    liveness, and every other track, the connections, the channels and the
    connection state are as before. *)
Theorem toggleMicrophone_local (enabled : bool) (s : Sys) :
  exists s',
    toggleMicrophone enabled s = (Ok tt, s') /\
    trace s' = trace s /\
    microphoneMuted (client s') = negb enabled /\
    connectionState (client s') = connectionState (client s) /\
    conns (world s') = conns (world s) /\
    channels (world s') = channels (world s) /\
    (forall ts t, localStream (client s) = Some ts -> t ∈ ts ->
       tracks (world s') !! t = enabled_as enabled <$> tracks (world s) !! t) /\
    (forall t, (forall ts, localStream (client s) = Some ts -> t ∉ ts) ->
       tracks (world s') !! t = tracks (world s) !! t).
Proof.
  eexists. split; [apply toggleMicrophone_eq|]. simpl.
  split_and!; try done.
  - destruct (localStream (client s)); simpl; [|done]. by rewrite enable_all_rest.
  - destruct (localStream (client s)); simpl; [|done]. by rewrite enable_all_rest.
  - intros ts t -> Hin. simpl. rewrite enable_all_lookup. by rewrite bool_decide_eq_true_2.
  - intros t Hout. destruct (localStream (client s)) as [ts|]; simpl; [|done].
    rewrite enable_all_lookup. rewrite bool_decide_eq_false_2; [done|]. by apply Hout.
Qed.

Lemma enable_all_twice (b1 b2 : bool) (ts : list nat) (w : World) :
  enable_all b2 ts (enable_all b1 ts w) = enable_all b2 ts w.
Proof.
  assert (Ht : tracks (enable_all b2 ts (enable_all b1 ts w))
               = tracks (enable_all b2 ts w)).
  { apply list_eq. intros t. rewrite !enable_all_lookup.
    case_bool_decide; [|done]. destruct (tracks w !! t); reflexivity. }
  rewrite (enable_all_rest b2 ts (enable_all b1 ts w)), Ht.
  rewrite (enable_all_rest b2 ts w) at 2.
  rewrite (enable_all_rest b1 ts w). by destruct w.
Qed.

(** X3: of two calls of [toggleMicrophone] the last one decides: muting
    and then unmuting, or the same call twice, leaves the state the last
    call alone would leave. *)
Theorem toggleMicrophone_last_wins (first last : bool) (s : Sys) :
  exec (toggleMicrophone last) (exec (toggleMicrophone first) s)
  = exec (toggleMicrophone last) s.
Proof.
  unfold exec. rewrite !toggleMicrophone_eq. simpl.
  destruct s as [c w tr]. simpl. f_equal.
  destruct (localStream c) as [ts|]; simpl; [|done]. apply enable_all_twice.
Qed.

(** ** Muting the playback *)

(** Steps that leave the playback elements and the reference to one alone. *)
Definition same_audio : relation Sys := fun s s' =>
  audios (world s') = audios (world s) /\
  audioElement (client s') = audioElement (client s).

#[local] Instance same_audio_preorder : PreOrder same_audio.
Proof.
  split; [by intros s|]. intros s1 s2 s3 [] []. split; congruence.
Qed.

Ltac same_audio_prim :=
  idtac; lazymatch goal with
  | |- stable _ (emit _) => by intros ?
  | |- stable _ (modify_client _) => by intros ?
  | |- stable _ (modify_world _) => by intros ?
  end.

Lemma same_audio_playback_analysis ctx level spectrum n :
  stable same_audio
    (match ctx : option nat with
     | Some _ => if level || spectrum : bool then setupPlaybackAnalysis n else mret tt
     | None => mret tt
     end).
Proof.
  unfold setupPlaybackAnalysis, startAudioAnalysis, analyze.
  stable_with same_audio_prim.
Qed.

(** The playback elements after [ontrack], when the element in use is [a]. *)
Lemma ontrack_audio (stream n : nat) (s : Sys) :
  let a := from_option id (length (audios (world s))) (audioElement (client s)) in
  let w := if audioElement (client s) is Some _ then world s
           else audio_autoplay true a (set_audios (audios (world s) ++ [fresh_audio]) (world s)) in
  audioElement (client (exec (ontrack stream n) s)) = Some a /\
  audios (world (exec (ontrack stream n) s))
  = audios (audio_muted (playbackMuted (client s)) a (audio_src (Some stream) a w)).
Proof.
  destruct s as [c w tr]. destruct c as [pc dc ls au st mm pm ctx ia oa fr cf cid].
  unfold exec, ontrack.
  destruct au as [a|]; repeat (erewrite bind_eq by reflexivity);
    match goal with
    | |- context [snd (?tail ?s2)] =>
        pose proof (same_audio_playback_analysis ctx (onPlaybackLevel cf)
                      (onPlaybackSpectrum cf) n s2) as [Ha He]
    end;
    simpl in Ha, He |- *; by rewrite Ha, He.
Qed.

Lemma togglePlayback_eq (b : bool) (s : Sys) :
  togglePlayback b s
  = (Ok tt, {| client := set_playbackMuted (negb b) (client s);
               world := from_option (fun a => audio_muted (negb b) a (world s)) (world s)
                          (audioElement (client s));
               trace := trace s |}).
Proof.
  destruct s as [c w tr]. unfold togglePlayback. monad. simpl.
  by destruct (audioElement c).
Qed.

(** X4: the playback mute is remembered: after [togglePlayback(enabled)]
    the element in use, if there is one, is muted exactly when [enabled] is
    false, and so is the element a later remote track is attached to, also
    when that element is only created then; nothing is sent or notified by
    the call. *)
Theorem playback_mute_applies (enabled : bool) (stream n : nat) (s : Sys) :
  (forall a, audioElement (client s) = Some a -> a < length (audios (world s))) ->
  trace (exec (togglePlayback enabled) s) = trace s /\
  (forall a, audioElement (client s) = Some a ->
     au_muted <$> audios (world (exec (togglePlayback enabled) s)) !! a
     = Some (negb enabled)) /\
  exists a au,
    audioElement (client (exec (ontrack stream n) (exec (togglePlayback enabled) s)))
    = Some a /\
    audios (world (exec (ontrack stream n) (exec (togglePlayback enabled) s))) !! a
    = Some au /\
    au_muted au = negb enabled /\
    au_src au = Some stream.
Proof.
  intros Hwf. unfold exec at 1 2 4 6. rewrite togglePlayback_eq. simpl.
  split; [done|]. split.
  - intros a Ha. rewrite Ha. simpl. rewrite list_lookup_alter_eq.
    destruct (lookup_lt_is_Some_2 _ _ (Hwf a Ha)) as [au ->]. done.
  - match goal with
    | |- context [exec (ontrack stream n) ?s1] =>
        destruct (ontrack_audio stream n s1) as [He Ha]
    end.
    rewrite He, Ha. simpl. clear He Ha.
    destruct (audioElement (client s)) as [a|] eqn:Hel; simpl.
    + destruct (lookup_lt_is_Some_2 _ _ (Hwf a eq_refl)) as [au Hau].
      eexists a, _. split; [done|].
      rewrite !list_lookup_alter_eq, Hau. simpl. done.
    + eexists _, _. split; [done|].
      rewrite !list_lookup_alter_eq, list_lookup_middle by done. simpl. done.
Qed.

(** X5: the client keeps one playback element: a remote track that arrives
    while an element exists is attached to that element and no element is
    created; without one, exactly one is created, with autoplay on. *)
Theorem ontrack_one_element (stream n : nat) (s : Sys) :
  (forall a, audioElement (client s) = Some a -> a < length (audios (world s))) ->
  exists a au,
    audioElement (client (exec (ontrack stream n) s)) = Some a /\
    audios (world (exec (ontrack stream n) s)) !! a = Some au /\
    au_src au = Some stream /\
    match audioElement (client s) with
    | Some a0 =>
        a = a0 /\
        length (audios (world (exec (ontrack stream n) s))) = length (audios (world s))
    | None =>
        au_autoplay au = true /\
        length (audios (world (exec (ontrack stream n) s)))
        = S (length (audios (world s)))
    end.
Proof.
  intros Hwf. destruct (ontrack_audio stream n s) as [He Ha]. rewrite He, Ha.
  clear He Ha. destruct (audioElement (client s)) as [a|] eqn:Hel; simpl.
  - destruct (lookup_lt_is_Some_2 _ _ (Hwf a eq_refl)) as [au Hau].
    eexists a, _. split; [done|].
    rewrite !list_lookup_alter_eq, Hau, !length_alter. simpl. done.
  - eexists _, _. split; [done|].
    rewrite !list_lookup_alter_eq, list_lookup_middle, !length_alter, length_app by done.
    simpl. split_and!; try done. lia.
Qed.

(** ** The transport reports *)

(** X6: when the transport of the client reports ICE [failed], the state
    becomes [error] and the error callback receives
    [Error('ICE connection failed')], but nothing is released: the client
    keeps its references, the connection stays open, and the tracks and
    channels are untouched. *)
Theorem ice_failed_keeps_resources (s : Sys) (p : nat) (c : PeerConnection) :
  peerConnection (client s) = Some p ->
  conns (world s) !! p = Some c ->
  pc_closed c = false ->
  let s' := dispatch (EvIceConnectionStateChange p ice_failed) s in
  connectionState (client s') = error /\
  trace s' = (trace s ++ notified (client s) error
              ++ reported (client s) (Error "ICE connection failed"))%list /\
  localStream (client s') = localStream (client s) /\
  peerConnection (client s') = Some p /\
  dataChannel (client s') = dataChannel (client s) /\
  live_conn (world s') p = true /\
  tracks (world s') = tracks (world s) /\
  channels (world s') = channels (world s).
Proof.
  intros Hp Hc Hopen. unfold RealtimeVoiceClient.dispatch. rewrite Hc, Hopen.
  unfold oniceconnectionstatechange, exec.
  do 3 (erewrite bind_eq by reflexivity). simpl.
  rewrite Hp. simpl. rewrite list_lookup_alter_eq, Hc. simpl.
  erewrite bind_eq by apply updateConnectionState_eq.
  rewrite handleError_eq. destruct s as [cl w tr]. simpl in *.
  unfold notified, reported, live_conn. simpl.
  rewrite list_lookup_alter_eq, Hc. simpl. rewrite Hopen.
  split_and!; try done. by rewrite <- app_assoc.
Qed.

(** X7: an ICE state other than [connected] and [failed] reported by the
    transport of the client changes neither the fields of the client nor
    the trace: in particular an ICE [disconnected] leaves the connection
    state as it was and notifies nobody. *)
Theorem ice_other_states_ignored (s : Sys) (p : nat) (st : IceState) :
  peerConnection (client s) = Some p ->
  st <> ice_connected -> st <> ice_failed ->
  client (dispatch (EvIceConnectionStateChange p st) s) = client s /\
  trace (dispatch (EvIceConnectionStateChange p st) s) = trace s.
Proof.
  intros Hp Hc Hf. unfold RealtimeVoiceClient.dispatch.
  destruct (conns (world s) !! p) as [c|] eqn:Hl; [|done].
  destruct (pc_closed c); [done|].
  unfold oniceconnectionstatechange, exec.
  do 3 (erewrite bind_eq by reflexivity). simpl.
  rewrite Hp. simpl. rewrite list_lookup_alter_eq, Hl. simpl.
  by destruct st.
Qed.

(** ** Inbound messages *)

(** X8: a session-created or session-updated message only ever promotes
    [connecting]: in any other connection state it is handled by doing
    nothing, so it does not revive a session that is in [error] or
    [disconnected]. *)
Theorem session_event_elsewhere (message : Value) (s : Sys) :
  get message "type" = Ok (VStr "session.created") \/
  get message "type" = Ok (VStr "session.updated") ->
  connectionState (client s) <> connecting ->
  handleRealtimeMessage message s = (Ok tt, s).
Proof.
  intros Hty Hst. unfold RealtimeVoiceClient.handleRealtimeMessage.
  destruct s as [c w tr]. simpl in Hst.
  destruct Hty as [Hty | Hty];
    (erewrite (bind_eq (lift _)) by (unfold lift; rewrite Hty; reflexivity));
    simpl; (erewrite bind_eq by reflexivity); simpl;
    by destruct (connectionState c).
Qed.

(** X9: the two ways a finalised user transcript can arrive, inside a
    conversation-item-created message for a user item and as an
    input-audio-transcription-completed message, are handled alike: each
    reports the transcript to the user-transcript callback and then to the
    transcript callback as a user turn, and changes nothing else. *)
Theorem user_transcript_paths (created completed item formatted transcript : Value)
    (s : Sys) :
  get created "type" = Ok (VStr "conversation.item.created") ->
  get created "item" = Ok item ->
  get item "role" = Ok (VStr "user") ->
  get item "formatted" = Ok formatted ->
  get_opt formatted "transcript" = Ok transcript ->
  get completed "type"
  = Ok (VStr "conversation.item.input_audio_transcription.completed") ->
  get completed "transcript" = Ok transcript ->
  truthy transcript = true ->
  handleRealtimeMessage created s = (Ok tt, observe (user_turn (client s) transcript) s) /\
  handleRealtimeMessage completed s = (Ok tt, observe (user_turn (client s) transcript) s).
Proof.
  intros Hty1 Hitem Hrole Hfmt Htr Hty2 Htr2 Ht.
  assert (Hi : truthy item = true) by (by destruct item).
  destruct s as [c w tr]. unfold RealtimeVoiceClient.handleRealtimeMessage, user_turn, observe.
  monad. simpl. split.
  - rewrite Hty1. simpl. rewrite Hitem, Hi, Hrole. simpl.
    rewrite ?Bool.andb_false_r. rewrite Hfmt. simpl. rewrite Htr, Ht. simpl.
    destruct (onUserTranscript (config c)) eqn:E1, (onTranscript (config c)) eqn:E2;
      simpl; rewrite ?E1, ?E2; simpl; by rewrite <- ?app_assoc, ?app_nil_r.
  - rewrite Hty2. simpl. rewrite Htr2, Ht. simpl.
    destruct (onUserTranscript (config c)) eqn:E1, (onTranscript (config c)) eqn:E2;
      simpl; rewrite ?E1, ?E2; simpl; by rewrite <- ?app_assoc, ?app_nil_r.
Qed.

(** X10: the text of the assistant is forwarded only when there is some:
    a transcript delta goes to the chunk callback and a transcript done to
    the transcript callback as an assistant turn, under either name of the
    event, and a missing or empty text fires no callback; nothing else
    changes. *)
Theorem assistant_text_forwarded (message text : Value) (s : Sys) :
  (get message "type" = Ok (VStr "response.audio_transcript.delta") \/
   get message "type" = Ok (VStr "response.output_audio_transcript.delta") ->
   get message "delta" = Ok text ->
   handleRealtimeMessage message s
   = (Ok tt, observe (if onTranscriptChunk (config (client s)) && truthy text
                      then [CbTranscriptChunk text] else []) s)) /\
  (get message "type" = Ok (VStr "response.audio_transcript.done") \/
   get message "type" = Ok (VStr "response.output_audio_transcript.done") ->
   get message "transcript" = Ok text ->
   handleRealtimeMessage message s
   = (Ok tt, observe (if onTranscript (config (client s)) && truthy text
                      then [CbTranscript text assistant] else []) s)).
Proof.
  destruct s as [c w tr]. unfold RealtimeVoiceClient.handleRealtimeMessage, observe.
  split; intros Hty Htext; monad; simpl.
  - destruct Hty as [-> | ->]; simpl;
      destruct (onTranscriptChunk (config c)) eqn:E; simpl;
      rewrite ?Htext; simpl; destruct (truthy text); simpl; by rewrite ?app_nil_r.
  - destruct Hty as [-> | ->]; simpl;
      destruct (onTranscript (config c)) eqn:E; simpl;
      rewrite ?Htext; simpl; destruct (truthy text); simpl; by rewrite ?app_nil_r.
Qed.

Lemma unprintable_or_else (msg : Value) (d : string) :
  unprintable (or_else msg (VStr d)) = unprintable msg.
Proof.
  unfold or_else. destruct msg as [| |[]|n|t|l|fields]; try reflexivity.
  - by destruct n.
  - simpl. by destruct (String.eqb t EmptyString).
Qed.

(** X11: an in-band error message whose [message] member converts to a
    string is reported and nothing more: the error callback receives an
    [Error] carrying that text, or 'Unknown error' when the member is
    missing or falsy, and the connection state, the references and every
    platform object are as before.  When the conversion throws (an object
    with a [toString] member) the handler throws that TypeError before
    anything is reported, and [onmessage] logs it like a parse failure. *)
Theorem error_event_reported (message err msg : Value) (s : Sys) :
  get message "type" = Ok (VStr "error") ->
  get message "error" = Ok err ->
  get_opt err "message" = Ok msg ->
  handleRealtimeMessage message s
  = (if unprintable msg
     then (Throw (TypeError "Cannot convert object to primitive value"), s)
     else (Ok tt,
           observe (reported (client s)
                      (Error (if truthy msg then ToString Number_toString msg
                              else "Unknown error"))) s)) /\
  forall data, JSON_parse data = Some message ->
    onmessage data s
    = (Ok tt,
       observe (if unprintable msg
                then [Console "error" "Failed to parse message:"]
                else reported (client s)
                       (Error (if truthy msg then ToString Number_toString msg
                               else "Unknown error"))) s).
Proof.
  intros Hty Herr Hmsg.
  assert (H : handleRealtimeMessage message s
              = (if unprintable msg
                 then (Throw (TypeError "Cannot convert object to primitive value"), s)
                 else (Ok tt,
                       observe (reported (client s)
                                  (Error (if truthy msg then ToString Number_toString msg
                                          else "Unknown error"))) s))).
  { unfold RealtimeVoiceClient.handleRealtimeMessage.
    erewrite (bind_eq (lift _)) by (unfold lift; rewrite Hty; reflexivity). simpl.
    erewrite (bind_eq (lift _)) by (unfold lift; rewrite Herr; reflexivity).
    erewrite (bind_eq (lift _)) by (unfold lift; rewrite Hmsg; reflexivity).
    unfold to_string. rewrite unprintable_or_else.
    destruct (unprintable msg); [reflexivity|].
    erewrite (bind_eq (lift _)) by reflexivity.
    rewrite handleError_eq. unfold reported, or_else. by destruct (truthy msg). }
  split; [exact H|].
  intros data Hp. unfold RealtimeVoiceClient.onmessage, try_catch, parse. rewrite Hp.
  erewrite bind_eq by reflexivity. rewrite H.
  destruct (unprintable msg); [|reflexivity].
  by destruct s.
Qed.

(** ** Sending a tool result *)

(** X12: with an open control channel [sendToolResult(callId, result)]
    returns normally after sending exactly two messages on it, first the
    [conversation.item.create] of a [function_call_output] item carrying
    [callId] and, as its output, the serialised [result] ([undefined] when
    [result] is [undefined]), then the [response.create] command; no
    callback fires and nothing else changes. *)
Theorem sendToolResult_open (callId : string) (result : Value) (s : Sys) (d : nat) :
  dataChannel (client s) = Some d ->
  is_open (world s) d = true ->
  sendToolResult callId result s
  = (Ok tt,
     observe [Sent d (JSON_stringify
                        (VObj [("type", VStr "conversation.item.create");
                               ("item",
                                VObj [("type", VStr "function_call_output");
                                      ("call_id", VStr callId);
                                      ("output",
                                       match result with
                                       | VUndefined => VUndefined
                                       | _ => VStr (JSON_stringify result)
                                       end)])]));
              Sent d (JSON_stringify (VObj [("type", VStr "response.create")]))] s).
Proof.
  intros Hd Ho. destruct s as [c w tr]. simpl in Hd, Ho.
  unfold RealtimeVoiceClient.sendToolResult, channel_not_open, observe. monad.
  simpl. repeat (rewrite ?Hd, ?Ho; simpl). by rewrite <- ?app_assoc.
Qed.

(** ** What no inbound payload can do *)

(** Steps that send nothing and keep the references and the tracks,
    connections and channels. *)
Definition inert : relation Sys := fun s s' =>
  sends (trace s') = sends (trace s) /\
  localStream (client s') = localStream (client s) /\
  peerConnection (client s') = peerConnection (client s) /\
  dataChannel (client s') = dataChannel (client s) /\
  tracks (world s') = tracks (world s) /\
  conns (world s') = conns (world s) /\
  channels (world s') = channels (world s).

#[local] Instance inert_preorder : PreOrder inert.
Proof.
  split; [by intros s|].
  intros s1 s2 s3 (? & ? & ? & ? & ? & ? & ?) (? & ? & ? & ? & ? & ? & ?).
  unfold inert. split_and!; congruence.
Qed.

Ltac inert_prim :=
  idtac; lazymatch goal with
  | |- stable _ (emit (Sent _ _)) => fail
  | |- stable _ (emit _) =>
      intros ?; unfold inert, sends; simpl; rewrite omap_app; simpl;
      by rewrite app_nil_r
  | |- stable _ (modify_client _) => by intros ?
  | |- stable _ (modify_world _) => by intros ?
  end.

Lemma inert_handleRealtimeMessage message : stable inert (handleRealtimeMessage message).
Proof.
  unfold RealtimeVoiceClient.handleRealtimeMessage, parse, stopPlayback,
    updateConnectionState, handleError.
  stable_with inert_prim.
Qed.

(** X13: whatever the payload, the [onmessage] handler returns normally,
    sends nothing on any data channel, keeps the references of the client
    to its stream, transport and channel, and leaves every track,
    connection and channel as it was: an inbound message can neither crash
    nor tear down the session. *)
Theorem onmessage_harmless (data : string) (s : Sys) :
  exists s',
    onmessage data s = (Ok tt, s') /\
    sends (trace s') = sends (trace s) /\
    localStream (client s') = localStream (client s) /\
    peerConnection (client s') = peerConnection (client s) /\
    dataChannel (client s') = dataChannel (client s) /\
    tracks (world s') = tracks (world s) /\
    conns (world s') = conns (world s) /\
    channels (world s') = channels (world s).
Proof.
  assert (Hst : stable inert (onmessage data)).
  { unfold RealtimeVoiceClient.onmessage.
    stable_with ltac:(idtac; lazymatch goal with
                      | |- stable _ (handleRealtimeMessage _) =>
                          apply inert_handleRealtimeMessage
                      | _ => inert_prim
                      end). }
  specialize (Hst s).
  assert (Hok : fst (onmessage data s) = Ok tt).
  { unfold RealtimeVoiceClient.onmessage, try_catch.
    match goal with
    | |- context [match ?body with _ => _ end] => destruct body as [[[]|e] s1]
    end; reflexivity. }
  destruct (onmessage data s) as [r s']. simpl in Hok, Hst. subst r.
  exists s'. split; [done|exact Hst].
Qed.

(** ** The greeting *)

(** X14: when the channel opens and instructions are configured, one timer
    is set and nothing is sent yet; when it fires, exactly one response
    trigger carrying the instructions is sent on the channel.  Without
    instructions (absent or empty) the opening sets no timer. *)
Theorem greeting_after_open (s : Sys) (d : nat) (c : DataChannel) :
  dataChannel (client s) = Some d ->
  channels (world s) !! d = Some c ->
  dc_ready c = rs_connecting ->
  let s1 := dispatch (EvChannelOpen d) s in
  trace s1 = trace s /\
  is_open (world s1) d = true /\
  match initialInstructions (config (client s)) with
  | Some g =>
      if String.eqb g EmptyString then timers (world s1) = timers (world s)
      else timers (world s1) = S (timers (world s)) /\
           trace (dispatch EvTimeout s1)
           = (trace s ++ [Sent d (JSON_stringify (greeting g))])%list /\
           timers (world (dispatch EvTimeout s1)) = timers (world s)
  | None => timers (world s1) = timers (world s)
  end.
Proof.
  intros Hd Hc Hr. unfold RealtimeVoiceClient.dispatch at 1 2. rewrite Hc, Hr.
  destruct s as [cl w tr]. simpl in *.
  unfold onopen, nonempty, of_option, RealtimeVoiceClient.dispatch,
    RealtimeVoiceClient.greet, RealtimeVoiceClient.sendJson, is_open.
  monad. simpl.
  destruct (initialInstructions (config cl)) as [g|] eqn:Hg; simpl;
    rewrite ?list_lookup_alter_eq, ?Hc; simpl; [|done].
  destruct (String.eqb g EmptyString) eqn:He; simpl;
    rewrite ?list_lookup_alter_eq, ?Hc, ?Hd, ?Hg; simpl; [done|].
  rewrite ?list_lookup_alter_eq, ?Hc; simpl. done.
Qed.

Lemma stop_all_timers (ts : list nat) (w : World) :
  timers (stop_all ts w) = timers w.
Proof.
  unfold stop_all. revert w. induction ts as [|t ts IH]; intros w; [done|].
  cbn [foldl]. by rewrite IH.
Qed.

Lemma teardown_timers (c : Client) (w : World) :
  timers (teardown_world c w) = timers w.
Proof.
  unfold teardown_world, channel_closed, audio_detached, transport_closed,
    microphone_stopped, context_closed, frame_cancelled.
  destruct (dataChannel c), (audioElement c), (peerConnection c), (localStream c),
    (audioContext c), (animationFrameId c) as [[|?]|];
    cbn [from_option channel_close audio_src conn_close context_close cancel_frame
         timers set_channels set_audios set_conns set_contexts set_frames];
    by rewrite ?stop_all_timers; cbn; rewrite ?stop_all_timers.
Qed.

(** X15: [disconnect] does not cancel the greeting timer, and when the timer
    fires after a [disconnect] nothing is sent and nothing is observed: the
    only effect is that the timer is gone. *)
Theorem greeting_after_disconnect (s : Sys) :
  let s1 := exec disconnect s in
  timers (world s1) = timers (world s) /\
  trace (dispatch EvTimeout s1) = trace s1 /\
  client (dispatch EvTimeout s1) = client s1 /\
  world (dispatch EvTimeout s1) = set_timers (pred (timers (world s))) (world s1).
Proof.
  unfold exec. rewrite disconnect_eq. cbn [snd world client trace].
  split; [apply teardown_timers|].
  unfold RealtimeVoiceClient.dispatch. cbn [world]. rewrite teardown_timers.
  destruct (timers (world s)) eqn:Ht.
  - cbn [trace client world pred]. split_and!; try done.
    generalize (teardown_timers (client s) (world s)). rewrite Ht.
    by destruct (teardown_world (client s) (world s)); simpl; intros ->.
  - unfold RealtimeVoiceClient.greet, RealtimeVoiceClient.sendJson. monad. simpl. done.
Qed.

(** ** The sampling loop *)

(** Steps that leave the sampling loop alone. *)
Definition same_loop : relation Sys := fun s s' =>
  animationFrameId (client s') = animationFrameId (client s) /\
  frames (world s') = frames (world s) /\
  next_frame (world s') = next_frame (world s) /\
  audioContext (client s') = audioContext (client s).

#[local] Instance same_loop_preorder : PreOrder same_loop.
Proof.
  split; [by intros s|].
  intros s1 s2 s3 (? & ? & ? & ?) (? & ? & ? & ?). unfold same_loop.
  split_and!; congruence.
Qed.

Lemma same_loop_sampling s s' : same_loop s s' -> sampling s -> sampling s'.
Proof. intros (Ha & Hf & Hn & _). unfold sampling. by rewrite Ha, Hf, Hn. Qed.

(** No loop is running and there is no audio context: the client as the
    constructor and [disconnect] leave it. *)
Definition idle (s : Sys) : Prop :=
  sampling s /\ audioContext (client s) = None /\ animationFrameId (client s) = None.

Lemma same_loop_idle s s' : same_loop s s' -> idle s -> idle s'.
Proof.
  intros Hl (Hs & Hc & Hf). split; [by eapply same_loop_sampling|].
  destruct Hl as (Ha & _ & _ & Hx). by rewrite Ha, Hx.
Qed.

Lemma idle_frames s : idle s -> frames (world s) = [].
Proof. intros ([_ [[_ H]|(id & H & _)]] & _ & Hf); [done|congruence]. Qed.

Lemma stop_all_loop (ts : list nat) (w : World) :
  frames (stop_all ts w) = frames w /\ next_frame (stop_all ts w) = next_frame w.
Proof.
  unfold stop_all. revert w. induction ts as [|t ts IH]; intros w; [done|].
  cbn [foldl]. destruct (IH (track_stop t w)) as [-> ->]. done.
Qed.

Lemma enable_all_loop (b : bool) (ts : list nat) (w : World) :
  frames (enable_all b ts w) = frames w /\
  next_frame (enable_all b ts w) = next_frame w.
Proof.
  unfold enable_all. revert w. induction ts as [|t ts IH]; intros w; [done|].
  cbn [foldl]. destruct (IH (track_enable b t w)) as [-> ->]. done.
Qed.

Ltac same_loop_prim :=
  idtac; lazymatch goal with
  | |- stable _ (emit _) => by intros ?
  | |- stable _ (modify_client _) => by intros ?
  | |- stable _ (modify_world _) => by intros ?
  end.

Lemma same_loop_handleRealtimeMessage message :
  stable same_loop (handleRealtimeMessage message).
Proof.
  unfold RealtimeVoiceClient.handleRealtimeMessage, parse, stopPlayback,
    updateConnectionState, handleError.
  stable_with same_loop_prim.
Qed.

Lemma same_loop_onmessage data : stable same_loop (onmessage data).
Proof.
  unfold RealtimeVoiceClient.onmessage, handleError.
  stable_with ltac:(idtac; lazymatch goal with
                    | |- stable _ (handleRealtimeMessage _) =>
                        apply same_loop_handleRealtimeMessage
                    | _ => same_loop_prim
                    end).
Qed.

(** One run of [analyze] requests one more frame and remembers its id. *)
Lemma analyze_loop (s : Sys) :
  animationFrameId (client (exec analyze s)) = Some (next_frame (world s)) /\
  frames (world (exec analyze s)) = (frames (world s) ++ [next_frame (world s)])%list /\
  next_frame (world (exec analyze s)) = S (next_frame (world s)).
Proof.
  destruct s as [c w tr]. destruct c as [? ? ? ? ? ? ? ? ia oa ? cf ?].
  destruct cf as [? ? ? ? ? ? ? ? ? ? ? ? ? ml ms pl ps].
  destruct ia, oa, ml, ms, pl, ps; split_and!; reflexivity.
Qed.

Lemma sampling_start (s s' : Sys) :
  sampling s ->
  animationFrameId (client s) = None \/ animationFrameId (client s) = Some 0 ->
  animationFrameId (client s') = Some (next_frame (world s)) ->
  frames (world s') = (frames (world s) ++ [next_frame (world s)])%list ->
  next_frame (world s') = S (next_frame (world s)) ->
  sampling s'.
Proof.
  intros [Hn Hs] Hnone Ha Hf Hnx. unfold sampling. rewrite Ha, Hf, Hnx.
  split; [lia|]. right. exists (next_frame (world s)).
  destruct Hs as [[_ ->]|(id & Hid & Hpos & _)]; [split_and!; auto; lia|].
  destruct Hnone as [Hnone|Hnone]; rewrite Hnone in Hid; [done|].
  injection Hid as <-. lia.
Qed.

Lemma sampling_setupPlaybackAnalysis (n : nat) (s : Sys) :
  sampling s -> sampling (exec (setupPlaybackAnalysis n) s).
Proof.
  intros Hs. destruct s as [c w tr]. unfold exec, setupPlaybackAnalysis, startAudioAnalysis.
  do 3 (erewrite bind_eq by reflexivity). cbn [client].
  destruct (audioContext c) as [x|]; [|exact Hs].
  destruct (negb _ && negb _); [exact Hs|].
  destruct n; [exact Hs|].
  do 2 (erewrite bind_eq by reflexivity). cbn [client set_outputAnalyser animationFrameId].
  destruct (animationFrameId c) as [[|k]|] eqn:Hf; [|exact Hs|];
    match goal with
    | |- context [analyze ?s0] =>
        destruct (analyze_loop s0) as (Ha & Hfr & Hnx);
        eapply (sampling_start {| client := c; world := w; trace := tr |});
        [exact Hs|simpl; auto|exact Ha|exact Hfr|exact Hnx]
    end.
Qed.

(** Steps that keep a state predicate. *)
Definition keeps (P : Sys -> Prop) : relation Sys := fun s s' => P s -> P s'.

#[local] Instance keeps_preorder (P : Sys -> Prop) : PreOrder (keeps P).
Proof. split; [by intros s H|]. intros s1 s2 s3 H12 H23 H. by apply H23, H12. Qed.

Ltac sampling_prim :=
  idtac; lazymatch goal with
  | |- stable _ (setupPlaybackAnalysis _) =>
      intros ? ?; by apply sampling_setupPlaybackAnalysis
  | |- stable _ _ =>
      apply (stable_mono same_loop (keeps sampling));
      [exact same_loop_sampling|same_loop_prim]
  end.

Lemma sampling_ontrack (stream n : nat) : stable (keeps sampling) (ontrack stream n).
Proof. unfold ontrack. stable_with sampling_prim. Qed.

Lemma teardown_loop (c : Client) (w : World) :
  frames (teardown_world c w) = frames (frame_cancelled c w) /\
  next_frame (teardown_world c w) = next_frame w.
Proof.
  unfold teardown_world, channel_closed, audio_detached, transport_closed,
    microphone_stopped, context_closed, frame_cancelled.
  destruct (dataChannel c), (audioElement c), (peerConnection c), (localStream c),
    (audioContext c), (animationFrameId c) as [[|?]|];
    cbn [from_option channel_close audio_src conn_close context_close cancel_frame
         frames next_frame set_channels set_audios set_conns set_contexts set_frames];
    repeat match goal with
           | |- context [stop_all ?ts ?w0] =>
               destruct (stop_all_loop ts w0) as [-> ->]
           end; cbn; try done;
    repeat match goal with
           | |- context [stop_all ?ts ?w0] =>
               destruct (stop_all_loop ts w0) as [-> ->]
           end; done.
Qed.

Lemma filter_only (id : nat) : filter (fun i => i <> id) [id] = [].
Proof. rewrite filter_cons_False; [done|]. by intros H. Qed.

Lemma sampling_disconnect (s : Sys) :
  sampling s ->
  animationFrameId (client (exec disconnect s)) = None /\
  frames (world (exec disconnect s)) = [] /\
  next_frame (world (exec disconnect s)) = next_frame (world s).
Proof.
  intros [Hn Hs]. unfold exec. rewrite disconnect_eq. cbn [snd client world].
  destruct (teardown_loop (client s) (world s)) as [-> ->].
  unfold teardown_client, frame_cancelled. cbn [animationFrameId].
  destruct Hs as [[-> ->]|(id & -> & Hpos & _ & Hf)]; [done|].
  destruct id as [|k]; [lia|]. cbn [cancel_frame frames set_frames].
  rewrite Hf. by rewrite filter_only.
Qed.

(** The tasks that neither start nor stop the loop. *)
Definition bystander (ev : Event) : bool :=
  match ev with
  | EvTrack _ _ _ | EvAnimationFrame _ | EvDisconnect => false
  | _ => true
  end.

Lemma same_loop_dispatch (ev : Event) (s : Sys) :
  bystander ev = true -> same_loop s (dispatch ev s).
Proof.
  intros Hev. destruct ev; try done; unfold RealtimeVoiceClient.dispatch.
  - destruct (conns (world s) !! pc) as [c|]; [|done].
    destruct (pc_closed c); [done|]. apply stable_exec.
    unfold oniceconnectionstatechange, updateConnectionState, handleError.
    stable_with same_loop_prim.
  - destruct (channels (world s) !! dc) as [c|]; [|done].
    destruct (dc_ready c); try done.
    apply stable_exec. unfold onopen. stable_with same_loop_prim.
  - destruct (is_open (world s) dc); [|done]. apply same_loop_onmessage.
  - destruct (channels (world s) !! dc); [|done].
    apply stable_exec. unfold handleError. stable_with same_loop_prim.
  - destruct (timers (world s)); [done|]. apply stable_exec.
    unfold RealtimeVoiceClient.greet, RealtimeVoiceClient.sendJson.
    stable_with same_loop_prim.
  - apply stable_exec. unfold toggleMicrophone. stable_with same_loop_prim.
  - apply stable_exec. unfold togglePlayback. stable_with same_loop_prim.
  - apply stable_exec.
    unfold RealtimeVoiceClient.sendText, RealtimeVoiceClient.sendJson.
    stable_with same_loop_prim.
  - apply stable_exec.
    unfold RealtimeVoiceClient.sendToolResult, RealtimeVoiceClient.sendJson.
    stable_with same_loop_prim.
Qed.

Lemma sampling_dispatch (ev : Event) (s : Sys) : sampling s -> sampling (dispatch ev s).
Proof.
  intros Hs. destruct (bystander ev) eqn:Hev.
  { revert Hs. by apply same_loop_sampling, same_loop_dispatch. }
  destruct ev; try done; unfold RealtimeVoiceClient.dispatch.
  - destruct (conns (world s) !! pc) as [c|]; [|done].
    destruct (pc_closed c); [done|]. by apply sampling_ontrack.
  - case_bool_decide as Hin; [|done]. unfold exec. erewrite bind_eq by reflexivity.
    match goal with
    | |- context [analyze ?s0] => destruct (analyze_loop s0) as (Ha & Hfr & Hnx)
    end.
    unfold exec in Ha, Hfr, Hnx. cbn [world cancel_frame set_frames frames next_frame] in Hfr, Hnx, Ha.
    destruct Hs as [Hn [[_ Hf]|(id0 & _ & Hpos & _ & Hf)]]; rewrite Hf in Hin, Hfr.
    + by apply elem_of_nil in Hin.
    + apply list_elem_of_singleton in Hin as ->. rewrite filter_only in Hfr.
      unfold sampling. rewrite Ha, Hfr, Hnx. split; [lia|]. right.
      exists (next_frame (world s)). split_and!; auto; lia.
  - destruct (sampling_disconnect s Hs) as (Ha & Hf & Hnx).
    unfold sampling. rewrite Ha, Hf, Hnx. split; [apply Hs|by left].
Qed.

(** X16: at most one sampling loop.  If the frame the client remembers is
    the only one pending (or none is), this stays so through every task of
    the event loop: inbound tracks, frames, channel and transport events,
    timers, and every public method other than [connect]. *)
Theorem sampling_single_loop (tasks : list Event) (s : Sys) :
  sampling s -> sampling (run tasks s).
Proof.
  unfold RealtimeVoiceClient.run. revert s.
  induction tasks as [|ev tasks IH]; intros s Hs; [done|].
  cbn [foldl]. by apply IH, sampling_dispatch.
Qed.

(** X17: when at most one sampling loop is running (the frame the client
    remembers is the only one pending, or none is), [disconnect] stops it:
    no frame is left pending, so whatever frames the platform delivers
    afterwards run nothing and no level or spectrum callback fires. *)
Theorem disconnect_stops_sampling (s : Sys) (ids : list nat) :
  sampling s ->
  let s1 := exec disconnect s in
  frames (world s1) = [] /\
  animationFrameId (client s1) = None /\
  run (map EvAnimationFrame ids) s1 = s1.
Proof.
  intros Hs. destruct (sampling_disconnect s Hs) as (Ha & Hf & _).
  cbn zeta. split; [done|]. split; [done|].
  unfold RealtimeVoiceClient.run. induction ids as [|id ids IH]; [done|].
  cbn [map foldl]. unfold RealtimeVoiceClient.dispatch at 2. rewrite Hf.
  rewrite bool_decide_eq_false_2; [exact IH|]. apply not_elem_of_nil.
Qed.

(** *** One loop across sessions *)

Lemma idle_ontrack (stream n : nat) (s : Sys) : idle s -> idle (exec (ontrack stream n) s).
Proof.
  intros Hi. pose proof Hi as (_ & Hc & _). revert Hi. apply same_loop_idle.
  destruct s as [c w tr]. cbn [client] in Hc. unfold ontrack. monad. simpl.
  destruct (audioElement c) eqn:Ha; simpl; rewrite ?Ha; simpl; rewrite Hc; by split_and!.
Qed.

Lemma idle_dispatch (ev : Event) (s : Sys) : idle s -> idle (dispatch ev s).
Proof.
  intros Hi. destruct (bystander ev) eqn:Hev.
  { revert Hi. by apply same_loop_idle, same_loop_dispatch. }
  destruct ev; try done; unfold RealtimeVoiceClient.dispatch.
  - destruct (conns (world s) !! pc) as [c|]; [|done].
    destruct (pc_closed c); [done|]. by apply idle_ontrack.
  - rewrite (idle_frames s Hi). rewrite bool_decide_eq_false_2; [done|]. apply not_elem_of_nil.
  - destruct Hi as (Hs & Hc & Hf). split; [by apply (sampling_dispatch EvDisconnect)|].
    unfold exec. rewrite disconnect_eq. cbn [snd client teardown_client audioContext animationFrameId].
    by rewrite Hf.
Qed.

Lemma idle_run (tasks : list Event) (s : Sys) : idle s -> idle (run tasks s).
Proof.
  unfold RealtimeVoiceClient.run. revert s.
  induction tasks as [|ev tasks IH]; intros s Hs; [done|].
  cbn [foldl]. by apply IH, idle_dispatch.
Qed.

Lemma sampling_run (tasks : list Event) (s : Sys) : sampling s -> sampling (run tasks s).
Proof.
  unfold RealtimeVoiceClient.run. revert s.
  induction tasks as [|ev tasks IH]; intros s Hs; [done|].
  cbn [foldl]. by apply IH, sampling_dispatch.
Qed.

Ltac idle_step :=
  idtac; lazymatch goal with
  | |- stable _ (await _ _) => intros ? ?; by apply idle_run
  | |- stable _ _ =>
      apply (stable_mono same_loop (keeps idle)); [exact same_loop_idle|same_loop_prim]
  end.

Ltac sampling_step :=
  idtac; lazymatch goal with
  | |- stable _ (await _ _) => intros ? ?; by apply sampling_run
  | |- stable _ _ =>
      apply (stable_mono same_loop (keeps sampling));
      [exact same_loop_sampling|same_loop_prim]
  end.

Lemma wp_exec {A} (m : M A) (Q : A -> Sys -> Prop) (E : Sys -> Prop) (s : Sys) :
  (forall a, Q a (exec m s)) -> E (exec m s) -> wp m Q E s.
Proof. unfold wp, exec. destruct (m s) as [[a|e] s1]; simpl; auto. Qed.

(** From an idle client [setupAudioAnalysis] starts at most one loop. *)
Lemma sampling_setupAudioAnalysis (created : Result unit) (s : Sys) :
  idle s -> sampling (exec (setupAudioAnalysis created) s).
Proof.
  intros (Hs & Hc & Hf). destruct s as [c w tr]. cbn [client] in Hc, Hf.
  unfold exec, setupAudioAnalysis, startAudioAnalysis.
  destruct created as [[]|e]; [|exact Hs].
  do 7 (erewrite bind_eq by reflexivity). cbn [client].
  cbn [localStream set_audioContext config].
  destruct (localStream c); [|exact Hs].
  destruct (_ || _); [|exact Hs].
  erewrite bind_eq by reflexivity.
  match goal with
  | |- context [analyze ?s0] =>
      destruct (analyze_loop s0) as (Ha & Hfr & Hnx);
      eapply (sampling_start {| client := c; world := w; trace := tr |});
      [exact Hs|by left|exact Ha|exact Hfr|exact Hnx]
  end.
Qed.

Lemma connect_body_sampling (env : ConnectEnv) (cid : option string) (s : Sys) :
  idle s -> wp (connect_body env cid) (fun _ => sampling) sampling s.
Proof.
  intros H0. unfold RealtimeVoiceClient.connect_body, RealtimeVoiceClient.fetchToken,
    updateConnectionState.
  do 11 (eapply (wp_step (keeps idle) idle);
         [stable_with idle_step|done|by intros ? ? ? H; apply H|by intros ? []|];
         clear s H0; intros ? s H0).
  apply wp_bind.
  match goal with
  | |- wp ?m _ _ ?s0 => assert (Hs : sampling (exec m s0))
  end.
  { destruct (_ || _); [by apply sampling_setupAudioAnalysis|apply H0]. }
  apply wp_exec; [|exact Hs]. intros [].
  revert Hs. match goal with |- sampling ?s1 -> _ => generalize s1 end.
  clear s H0. intros s Hs.
  apply (wp_stable (keeps sampling)).
  - unfold RealtimeVoiceClient.setupDataChannel, the_peerConnection.
    stable_with sampling_step.
  - intros s' Hk. split; [intros _|]; by apply Hk.
Qed.

(** X27: one sampling loop across sessions.  From a client that is idle
    (as the constructor and [disconnect] leave it), [connect] ends with at
    most one loop running, whether it resolves or rejects and whatever
    platform events and calls of the public methods other than [connect]
    run while it is suspended. *)
Theorem connect_single_loop (env : ConnectEnv) (cid : option string) (s : Sys) :
  idle s -> sampling (exec (connect env cid) s).
Proof.
  intros Hi. unfold exec. rewrite connect_eq.
  pose proof (connect_body_sampling env cid s Hi) as Hwp. unfold wp in Hwp.
  destruct (connect_body env cid s) as [[[]|e] s1]; [exact Hwp|].
  cbn [snd]. apply (sampling_dispatch EvDisconnect).
  revert Hwp. apply same_loop_sampling. apply stable_exec.
  unfold handleError. stable_with same_loop_prim.
Qed.

(** X28: [disconnect] leaves the client idle, so the sessions of one client
    can follow one another: after [disconnect] a further [connect] again
    ends with at most one loop. *)
Theorem disconnect_idle (s : Sys) : sampling s -> idle (exec disconnect s).
Proof.
  intros Hs. destruct (sampling_disconnect s Hs) as (Ha & Hf & Hnx).
  split; [|split; [|done]].
  - unfold sampling. rewrite Ha, Hf, Hnx. split; [apply Hs|by left].
  - unfold exec. by rewrite disconnect_eq.
Qed.

(** ** connect: a refused credential request *)

Lemma bind_throw {A B} (m : M A) (k : A -> M B) (s s' : Sys) (e : Exn) :
  m s = (Throw e, s') -> (m ≫= k) s = (Throw e, s').
Proof. intros H. unfold mbind, M_bind. by rewrite H. Qed.

(** X18: when the credential endpoint answers with a status outside
    200-299, [connect] rejects with [Failed to fetch token: <status>]; the
    microphone was never requested and no transport or channel was created,
    and the state is left [disconnected]. *)
Theorem token_refused (env : ConnectEnv) (cid : option string) (s : Sys) (r : Response) :
  token_response env = Ok r ->
  ok r = false ->
  exists s',
    connect env cid s
    = (Throw (Error ("Failed to fetch token: " +:+ pretty (status r))), s') /\
    untouched (world s) s' /\
    localStream (client s') = None /\
    connectionState (client s') = disconnected.
Proof.
  intros Hr Hok. rewrite connect_eq.
  assert (Hbody : exists s1,
             connect_body env cid s
             = (Throw (Error ("Failed to fetch token: " +:+ pretty (status r))), s1) /\
             safe s s1).
  { unfold RealtimeVoiceClient.connect_body.
    erewrite bind_eq by reflexivity.
    erewrite bind_eq by apply updateConnectionState_eq.
    eexists. split.
    - apply bind_throw. unfold RealtimeVoiceClient.fetchToken.
      do 4 (erewrite bind_eq by reflexivity). rewrite Hr.
      erewrite bind_eq by reflexivity. by rewrite Hok.
    - etrans; [|apply safe_run]. apply neutral_safe.
      unfold neutral. simpl. by split_and!. }
  destruct Hbody as (s1 & -> & Hsafe). eexists. split; [reflexivity|].
  split.
  - eapply safe_untouched; [|by unfold untouched].
    etrans; [exact Hsafe|]. etrans; [apply neutral_safe, neutral_handleError|].
    apply safe_disconnect.
  - unfold exec. by rewrite disconnect_eq.
Qed.

(** ** connect and the microphone switch *)

(** Steps that keep the microphone switch, the captured stream and the tracks. *)
Definition same_microphone : relation Sys := fun s s' =>
  microphoneMuted (client s') = microphoneMuted (client s) /\
  localStream (client s') = localStream (client s) /\
  tracks (world s') = tracks (world s).

#[local] Instance same_microphone_preorder : PreOrder same_microphone.
Proof.
  split; [by intros s|].
  intros s1 s2 s3 (? & ? & ?) (? & ? & ?). unfold same_microphone. split_and!; congruence.
Qed.

Definition same_mute : relation Sys := fun s s' =>
  microphoneMuted (client s') = microphoneMuted (client s).

#[local] Instance same_mute_preorder : PreOrder same_mute.
Proof. split; [by intros s|]. intros s1 s2 s3. unfold same_mute. congruence. Qed.

Lemma connect_body_mute (env : ConnectEnv) (cid : option string) (s : Sys) :
  tasks env = [] ->
  microphoneMuted (client (snd (connect_body env cid s))) = microphoneMuted (client s).
Proof.
  intros Hq. apply tasks_nil in Hq as (H1 & H2 & H3 & H4 & H5 & H6 & H7 & H8).
  change (same_mute s (snd (connect_body env cid s))).
  generalize s. change (stable same_mute (connect_body env cid)).
  unfold RealtimeVoiceClient.connect_body, RealtimeVoiceClient.fetchToken,
    RealtimeVoiceClient.setupDataChannel, the_peerConnection, updateConnectionState,
    setupAudioAnalysis, startAudioAnalysis, analyze.
  rewrite H1, H2, H3, H4, H5, H6, H7, H8.
  stable_with same_loop_prim.
Qed.

Lemma connect_body_tracks (env : ConnectEnv) (cid : option string) (s s' : Sys) :
  tasks env = [] ->
  connect_body env cid s = (Ok tt, s') ->
  exists ts, localStream (client s') = Some ts /\
             forall t, t ∈ ts -> tracks (world s') !! t = Some fresh_track.
Proof.
  intros Hq H. apply tasks_nil in Hq as (H1 & H2 & H3 & H4 & H5 & H6 & H7 & H8).
  unfold RealtimeVoiceClient.connect_body in H.
  do 6 (apply bind_ok_inv in H as (? & ? & _ & H)).
  apply bind_ok_inv in H as (n & s0 & _ & H).
  apply bind_ok_inv in H as (ts & s1 & Hts & H).
  apply bind_ok_inv in H as (? & s2 & Hs2 & H).
  apply bind_ok_inv in H as (? & s3 & Hs3 & H).
  unfold gets, modify_world, modify_client in Hts, Hs2, Hs3. simplify_eq.
  match type of H with
  | ?rest ?s3 = _ =>
      assert (Hst : stable same_microphone rest);
      [| specialize (Hst s3); rewrite H in Hst; simpl in Hst;
         destruct Hst as (_ & Hl & Ht) ]
  end.
  - unfold RealtimeVoiceClient.setupDataChannel, the_peerConnection,
      setupAudioAnalysis, startAudioAnalysis, analyze.
    rewrite H4, H5, H6, H7, H8. stable_with same_loop_prim.
  - eexists. split; [exact Hl|]. intros t Hin. rewrite Ht.
    apply elem_of_seq in Hin. cbn [world tracks set_tracks].
    rewrite lookup_app_r by lia. apply lookup_replicate_2. lia.
Qed.

(** X19: [connect] never reads the microphone switch.  On a client whose
    microphone was switched off, a [connect] that resolves (no event
    delivered meanwhile) leaves the switch as it was and every track of the
    newly captured stream live and enabled. *)
Theorem connect_ignores_microphone_switch (env : ConnectEnv) (cid : option string)
    (s s' : Sys) :
  tasks env = [] ->
  connect env cid s = (Ok tt, s') ->
  microphoneMuted (client s') = microphoneMuted (client s) /\
  exists ts, localStream (client s') = Some ts /\
             forall t, t ∈ ts -> tracks (world s') !! t = Some fresh_track.
Proof.
  intros Hq H. rewrite connect_eq in H.
  destruct (connect_body env cid s) as [[[]|e] s1] eqn:Hbody; [|done].
  injection H as <-. split.
  - pose proof (connect_body_mute env cid s Hq) as Hm. by rewrite Hbody in Hm.
  - by eapply connect_body_tracks.
Qed.

(** ** The endpoint *)

Lemma length_append (s t : string) :
  String.length (s +:+ t) = String.length s + String.length t.
Proof. induction s as [|c s IH]; simpl; [done|]. by rewrite IH. Qed.

Lemma substring_prefix (s t : string) :
  String.substring 0 (String.length s) (s +:+ t) = s.
Proof. induction s as [|c s IH]; simpl; [by destruct t|]. by rewrite IH. Qed.

Lemma substring_suffix (s t : string) (m : nat) :
  String.substring (String.length s) m (s +:+ t) = String.substring 0 m t.
Proof. induction s as [|c s IH]; simpl; [done|]. exact IH. Qed.

Lemma substring_last (s t : string) (m : nat) :
  s <> EmptyString ->
  exists c, String.substring (String.length s - 1) (S m) (s +:+ t)
            = String c (String.substring 0 m t).
Proof.
  induction s as [|a s IH]; [done|]. intros _. destruct s as [|b s].
  - exists a. reflexivity.
  - destruct IH as [c Hc]; [done|]. exists c.
    replace (String.length (String a (String b s)) - 1)
      with (S (String.length (String b s) - 1)) by (simpl; lia).
    exact Hc.
Qed.

(** X20: the suffix the endpoint computation removes.  A base address
    written with [/v1], with [/v1/] or without either yields the same
    address: exactly one trailing [/v1] or [/v1/] is dropped. *)
Theorem strip_v1_suffix (base : string) :
  strip_v1 (base +:+ "/v1") = base /\ strip_v1 (base +:+ "/v1/") = base.
Proof.
  split; unfold strip_v1; rewrite length_append; cbn [String.length].
  - destruct (decide (base = EmptyString)) as [->|Hne]; [reflexivity|].
    assert (0 < String.length base) by (destruct base; [done|simpl; lia]).
    replace (String.length base + 3 - 4) with (String.length base - 1) by lia.
    destruct (substring_last base "/v1" 3 Hne) as [c ->].
    replace (String.eqb (String c (String.substring 0 3 "/v1")) "/v1/") with false
      by (simpl; by destruct (Ascii.eqb c "/")).
    rewrite Bool.andb_false_r.
    replace (3 <=? String.length base + 3)%nat with true by (symmetry; apply Nat.leb_le; lia).
    replace (String.length base + 3 - 3) with (String.length base) by lia.
    rewrite substring_suffix. cbn [andb]. by rewrite substring_prefix.
  - replace (4 <=? String.length base + 4)%nat with true by (symmetry; apply Nat.leb_le; lia).
    replace (String.length base + 4 - 4) with (String.length base) by lia.
    rewrite substring_suffix. cbn [andb]. by rewrite substring_prefix.
Qed.

End Properties.

(** * Properties of the routes *)

Ltac handler :=
  cbv beta iota zeta delta
    [realtime.client_secret realtime.transcript realtime.try_catch realtime.reply
     realtime.emit realtime.lift realtime.when mbind mret realtime.H_bind realtime.H_ret
     to_string printable].

Section RouteProperties.

Variable JSON_stringify : Value -> string.
Variable Number_toString : spec_float -> string.
Variable isUserProvided : option string -> bool.

Import realtime.

Local Abbreviation client_secret :=
  (realtime.client_secret JSON_stringify Number_toString isUserProvided).

(** X21: the credential route answers every request exactly once and
    never lets an exception escape, whatever the request, the environment
    and the outcomes of the key lookup and of the upstream request; it
    looks the key up at most once and posts upstream at most once. *)
Theorem client_secret_replies_once (env : Env) (sv : Services) (req : Request) :
  exists code json out,
    client_secret env sv req [] = (Ok tt, out) /\
    replies out = [(code, json)] /\
    length (posts out) <= 1 /\
    length (lookups out) <= 1.
Proof.
  handler. repeat case_match; simplify_eq;
    (eexists _, _, _; split; [reflexivity|]; split; [reflexivity|]; simpl; lia).
Qed.

Ltac handler_in H :=
  cbv beta iota zeta delta
    [realtime.client_secret realtime.transcript realtime.try_catch realtime.reply
     realtime.emit realtime.lift realtime.when mbind mret realtime.H_bind realtime.H_ret
     to_string printable] in H.

(** X22: without a key nothing is asked upstream.  For a request with a
    body and an authenticated user, when the key is not user-provided and
    the variable is unset or empty, or when it is user-provided and the
    stored key is missing, the only reply is 400 and no upstream request is
    made. *)
Theorem client_secret_without_key (env : Env) (sv : Services) (req : Request) :
  nullish (req_body req) = false ->
  nullish (req_user req) = false ->
  (isUserProvided (OPENAI_API_KEY env) = false /\
   env_or (OPENAI_API_KEY env) EmptyString = EmptyString) \/
  (isUserProvided (OPENAI_API_KEY env) = true /\
   exists uv k, user_key_values sv = Ok uv /\ get_opt uv "apiKey" = Ok k /\
                truthy k = false) ->
  let out := snd (client_secret env sv req []) in
  posts out = [] /\
  replies out = [(400, VObj [("error", VStr "OpenAI API key not configured")])].
Proof.
  intros Hb Hu Hkey. destruct req as [b u]. simpl in Hb, Hu.
  assert (exists vs, get b "session" = Ok vs) as [vs Hs]
    by (destruct b; try done; by eexists).
  assert (exists vc, get b "conversationId" = Ok vc) as [vc Hc]
    by (destruct b; try done; by eexists).
  assert (exists vi, get u "id" = Ok vi) as [vi Hi]
    by (destruct u; try done; by eexists).
  handler. cbn [req_body req_user]. rewrite Hs, Hc, Hi. cbv beta iota.
  destruct Hkey as [[Hp He]|(Hp & uv & k & Huv & Hk & Ht)]; rewrite Hp; cbv beta iota.
  - assert (Hf : truthy (of_option (OPENAI_API_KEY env)) = false).
    { destruct (OPENAI_API_KEY env) as [key|]; [|done]. simpl in He |- *.
      destruct (String.eqb key EmptyString) eqn:E; [done|].
      subst key. done. }
    rewrite Hf. done.
  - rewrite Huv. cbv beta iota. rewrite Hk. cbv beta iota. rewrite Ht. done.
Qed.

(** X23: a refusal of the upstream service is relayed.  When the request
    was posted and the upstream answer has a status outside 200-299 and a
    readable text, the only reply carries that status and that text. *)
Theorem upstream_failure_relayed (env : Env) (sv : Services) (req : Request)
    (r : Response) (t : string) :
  posts (snd (client_secret env sv req [])) <> [] ->
  upstream sv = Ok r ->
  ok r = false ->
  upstream_text sv = Ok t ->
  replies (snd (client_secret env sv req []))
  = [(status r, VObj [("error", VStr "Failed to get ephemeral token");
                      ("details", VStr t)])].
Proof.
  intros Hp Hu Hok Ht. revert Hp. handler. rewrite Hu, Ht. cbv beta iota.
  rewrite Hok. cbn [negb].
  repeat case_match; simplify_eq; simpl; done.
Qed.

(** X24: a 200 reply is sent only after one upstream request, made at the
    sessions address of the configured base with a non-empty key, was
    answered with a status in 200-299 and a readable JSON body. *)
Theorem success_after_upstream (env : Env) (sv : Services) (req : Request) (j : Value) :
  (200, j) ∈ replies (snd (client_secret env sv req [])) ->
  exists r data key body,
    upstream sv = Ok r /\ ok r = true /\ upstream_json sv = Ok data /\
    truthy key = true /\
    posts (snd (client_secret env sv req []))
    = [(strip_v1 (base_url env) +:+ "/v1/realtime/sessions",
        "Bearer " +:+ ToString Number_toString key, body)].
Proof.
  handler. repeat case_match; simplify_eq; simpl; intros Hin;
    repeat match goal with
           | H : _ ∈ _ :: _ |- _ => apply elem_of_cons in H as [H|H]; simplify_eq
           | H : _ ∈ [] |- _ => by apply elem_of_nil in H
           | H : negb _ = false |- _ => apply Bool.negb_false_iff in H
           | H : negb _ = true |- _ => apply Bool.negb_true_iff in H
           end;
    try (exfalso;
         match goal with
         | H : ok ?r = false, E : 200 = status ?r |- _ =>
             unfold ok in H; rewrite <- E in H; done
         end);
    (eexists _, _, _, _; split_and!; [reflexivity|done|reflexivity| |reflexivity];
     assumption).
Qed.

Lemma call_endpoint_reply (env : Env) (a b c : Value) :
  call_endpoint (VObj [("value", a); ("expires_at", b); ("session_id", c);
                       ("proxy_url", or_else (of_option (AI_PROXY_DOMAIN env)) VNull)])
  = Ok (strip_v1 (env_or (AI_PROXY_DOMAIN env) "https://api.openai.com")
        +:+ "/v1/realtime/calls").
Proof.
  unfold call_endpoint, env_or.
  destruct (AI_PROXY_DOMAIN env) as [d|]; [|reflexivity].
  cbn [get assoc]. simpl String.eqb. cbv beta iota. unfold or_else.
  cbn [of_option truthy mbind Result_bind].
  destruct (String.eqb d EmptyString) eqn:E; cbn [negb truthy]; rewrite ?E; reflexivity.
Qed.

(** X25: what the client reads from a 200 reply.  The credential the
    client presents is the one the same expression extracts from the
    upstream answer, and the address the client posts its offer to is
    derived from [AI_PROXY_DOMAIN] alone: [OPENAI_REVERSE_PROXY], which the
    route may have used as its base, is not passed on. *)
Theorem reply_read_by_client (env : Env) (sv : Services) (req : Request) (j : Value) :
  (200, j) ∈ replies (snd (client_secret env sv req [])) ->
  (exists data, upstream_json sv = Ok data /\ credential j = credential data) /\
  call_endpoint j
  = Ok (strip_v1 (env_or (AI_PROXY_DOMAIN env) "https://api.openai.com")
        +:+ "/v1/realtime/calls").
Proof.
  handler. repeat case_match; simplify_eq; simpl; intros Hin;
    repeat match goal with
           | H : _ ∈ _ :: _ |- _ => apply elem_of_cons in H as [H|H]; simplify_eq
           | H : _ ∈ [] |- _ => by apply elem_of_nil in H
           | H : negb _ = false |- _ => apply Bool.negb_false_iff in H
           | H : negb _ = true |- _ => apply Bool.negb_true_iff in H
           end;
    try (exfalso;
         match goal with
         | H : ok ?r = false, E : 200 = status ?r |- _ =>
             unfold ok in H; rewrite <- E in H; done
         end);
    (split; [eexists; split; [reflexivity|]|apply call_endpoint_reply]).
  all: unfold credential.
  all: repeat (match goal with
               | H : _ = Ok _ |- _ => rewrite H
               | H : truthy _ = _ |- _ => rewrite H
               end; cbn [mbind Result_bind]).
  all: cbn [get assoc get_opt mbind Result_bind truthy]; simpl String.eqb; cbv beta iota.
  all: reflexivity.
Qed.

(** X26: the transcript route answers every request exactly once and
    stores nothing: the reply is 200 with [success: true] when the user is
    authenticated, the body has a [messages] member and its
    [conversationId] converts to a string, and 500 otherwise. *)
Theorem transcript_replies (req : Request) :
  exists out,
    transcript req [] = (Ok tt, out) /\
    posts out = [] /\
    replies out
    = [if nullish (req_body req) || nullish (req_user req)
          || unprintable (assoc "conversationId" (match req_body req with
                                                  | VObj fields => fields
                                                  | _ => []
                                                  end))
          || nullish (assoc "messages" (match req_body req with
                                        | VObj fields => fields
                                        | _ => []
                                        end))
       then (500, VObj [("error", VStr "Failed to save transcript")])
       else (200, VObj [("success", VBool true)])].
Proof.
  destruct req as [b u]. handler. unfold printable. cbn [req_body req_user].
  destruct b; cbn [get nullish orb assoc unprintable];
    try (eexists; split_and!; reflexivity);
    destruct u; cbn [get nullish orb length_of];
    try (eexists; split_and!; reflexivity);
    match goal with
    | |- context [unprintable ?c] => destruct (unprintable c)
    end; cbn [orb]; try (eexists; split_and!; reflexivity);
    match goal with
    | |- context [length_of ?m] => destruct m
    end; eexists; split_and!; reflexivity.
Qed.

End RouteProperties.

(** * The properties on concrete runs *)

(** C1 fails as stated: the first [connect] of a fresh client resolves while
    the state is [connecting], and [connected] has never been notified. *)
Lemma connect_resolves_while_connecting :
  Demo.connect Demo.quiet None (fresh Demo.config) = (Ok tt, Demo.started) /\
  connectionState (client Demo.started) = connecting /\
  Forall (fun o => o <> CbConnectionStateChange connected) (trace Demo.started).
Proof.
  split; [vm_compute; reflexivity|]. split; [reflexivity|].
  repeat constructor; discriminate.
Qed.

Lemma connect_resolves_on_answer_witness :
  tasks Demo.quiet = [] /\
  Demo.connect Demo.quiet None (fresh Demo.config) = (Ok tt, Demo.started) /\
  connectionState (client Demo.started) = connecting /\
  transport Demo.started = Some (false, ice_new) /\
  (exists c, conns (world Demo.started) !! 0 = Some c /\
             pc_local c = Some "v=0 offer" /\ pc_remote c = Some "v=0 answer") /\
  (exists base auth tr,
     trace Demo.started
     = (tr ++ [Fetch ((base +:+ "/v1/realtime/calls") +:+ "?model=gpt-realtime")
                 (Some ("Bearer " +:+ auth)) "v=0 offer"])%list) /\
  last (trace Demo.started)
  = Some (Fetch "https://api.openai.com/v1/realtime/calls?model=gpt-realtime"
            (Some "Bearer ek_1") "v=0 offer") /\
  connectionState
    (client (Demo.dispatch (EvIceConnectionStateChange 0 ice_connected) Demo.started))
  = connected /\
  is_open (world Demo.started) 0 = false /\
  connectionState
    (client (Demo.run [EvChannelOpen 0;
                       EvChannelMessage 0 (Demo.stringify Demo.session_created)]
               Demo.started))
  = connected.
Proof.
  assert (Hq : tasks Demo.quiet = []) by reflexivity.
  assert (Hc : Demo.connect Demo.quiet None (fresh Demo.config) = (Ok tt, Demo.started))
    by (vm_compute; reflexivity).
  destruct (connect_resolves_on_answer Demo.parse Demo.stringify Demo.number_toString
              Demo.quiet None (fresh Demo.config) Demo.started Hq Hc)
    as (H1 & H2
        & (p & c & sdp & ans & r & base & auth & tr
           & Hoff & _ & _ & Hans & Hp & Hpc & Hl & Hrm & Htr)
        & H4 & (d & Hd & Hopen & Hsess)).
  injection Hoff as <-. injection Hans as <-. injection Hp as <-. injection Hd as <-.
  split_and!; [exact Hq|exact Hc|exact H1|exact H2| | |reflexivity| |exact Hopen|].
  - exists c. by split_and!.
  - by exists base, auth, tr.
  - apply H4. reflexivity.
  - apply (Hsess _ Demo.session_created); [reflexivity|by left].
Defined.

(** C2 fails as stated: after the calls endpoint has refused the offer,
    with the microphone acquired, the peer connection constructed and the
    data channel open, the state is [disconnected], not [error]. *)
Lemma connect_rejects_disconnected :
  Demo.connect Demo.forbidden None (fresh Demo.config)
  = (Throw (Error "Failed to connect: 403"), Demo.torn_down) /\
  length (tracks (world Demo.torn_down)) = 1 /\
  length (conns (world Demo.torn_down)) = 1 /\
  length (channels (world Demo.torn_down)) = 1 /\
  connectionState (client Demo.torn_down) = disconnected /\
  connectionState (client Demo.torn_down) <> error.
Proof. split_and!; [vm_compute; reflexivity|reflexivity..|discriminate]. Qed.

Lemma connect_failure_releases_witness :
  Demo.connect Demo.forbidden None (fresh Demo.config)
  = (Throw (Error "Failed to connect: 403"), Demo.torn_down) /\
  (length (tracks (world Demo.torn_down)) = 1 /\
   length (conns (world Demo.torn_down)) = 1 /\
   length (channels (world Demo.torn_down)) = 1) /\
  connectionState (client Demo.torn_down) = disconnected /\
  localStream (client Demo.torn_down) = None /\
  peerConnection (client Demo.torn_down) = None /\
  dataChannel (client Demo.torn_down) = None /\
  (live_track (world Demo.torn_down) 0 = false /\
   live_conn (world Demo.torn_down) 0 = false /\
   live_channel (world Demo.torn_down) 0 = false) /\
  CbError (Error "Failed to connect: 403") ∈ trace Demo.torn_down.
Proof.
  assert (Hc : Demo.connect Demo.forbidden None (fresh Demo.config)
               = (Throw (Error "Failed to connect: 403"), Demo.torn_down))
    by (vm_compute; reflexivity).
  destruct (connect_failure_releases Demo.parse Demo.stringify Demo.number_toString
              Demo.forbidden None (fresh Demo.config) Demo.torn_down _ Hc)
    as (H1 & H2 & H3 & H4 & H5 & H6).
  split_and!; [exact Hc|reflexivity..|exact H1|exact H2|exact H3|exact H4| | | |].
  - apply (released_track _ _ H5 0). apply le_n.
  - apply (released_conn _ _ H5 0). apply le_n.
  - apply (released_channel _ _ H5 0). apply le_n.
  - apply H6. reflexivity.
Defined.

(** C3 fails as stated: on a connected client a further [connect] resolves;
    it has constructed a second peer connection and acquired a second
    track, to which the client now refers, and the first connection and
    the first track are still live. *)
Lemma connect_twice_two_transports :
  connectionState (client Demo.live) = connected /\
  peerConnection (client Demo.live) = Some 0 /\
  Demo.connect Demo.quiet None Demo.live = (Ok tt, Demo.restarted) /\
  peerConnection (client Demo.restarted) = Some 1 /\
  localStream (client Demo.restarted) = Some [1] /\
  length (conns (world Demo.restarted)) = 2 /\
  live_conn (world Demo.restarted) 0 = true /\
  live_track (world Demo.restarted) 0 = true.
Proof. split_and!; vm_compute; reflexivity. Qed.

Lemma connect_unguarded_witness :
  tasks Demo.quiet = [] /\
  Demo.connect Demo.quiet None Demo.live = (Ok tt, Demo.restarted) /\
  lasts (world Demo.live) (world Demo.restarted) /\
  (exists p, peerConnection (client Demo.restarted) = Some p /\
             length (conns (world Demo.live)) <= p).
Proof.
  assert (Hq : tasks Demo.quiet = []) by reflexivity.
  assert (Hc : Demo.connect Demo.quiet None Demo.live = (Ok tt, Demo.restarted))
    by (vm_compute; reflexivity).
  destruct (connect_unguarded Demo.parse Demo.stringify Demo.number_toString
              Demo.quiet None Demo.live) as [_ H].
  destruct (H Hq Demo.restarted Hc) as (H1 & _ & H3 & _).
  split_and!; [exact Hq|exact Hc|exact H1|exact H3].
Defined.

Lemma interruption_keeps_session_witness :
  get Demo.interrupted "type" = Ok (VStr "response.interrupted") /\
  Demo.handleRealtimeMessage Demo.interrupted Demo.live
  = (Ok tt, observe [AudioPause 0; AudioSetSrc 0 None; AudioSetSrc 0 (Some 7)] Demo.live).
Proof.
  assert (H : get Demo.interrupted "type" = Ok (VStr "response.interrupted"))
    by reflexivity.
  split; [exact H|].
  exact (interruption_keeps_session Demo.parse Demo.number_toString
           Demo.interrupted Demo.live (or_intror H)).
Defined.

Lemma sendText_open_witness :
  dataChannel (client Demo.live) = Some 0 /\
  is_open (world Demo.live) 0 = true /\
  Demo.sendText "hello" Demo.live
  = (Ok tt,
     observe [Sent 0 (Demo.stringify
                        (VObj [("type", VStr "conversation.item.create");
                               ("item",
                                VObj [("type", VStr "message");
                                      ("role", VStr "user");
                                      ("content",
                                       VArr [VObj [("type", VStr "input_text");
                                                   ("text", VStr "hello")]])])]));
              Sent 0 (Demo.stringify (VObj [("type", VStr "response.create")]));
              CbTranscript (VStr "hello") user] Demo.live).
Proof.
  assert (Hd : dataChannel (client Demo.live) = Some 0) by reflexivity.
  assert (Ho : is_open (world Demo.live) 0 = true) by reflexivity.
  split_and!; [exact Hd|exact Ho|].
  exact (sendText_open Demo.stringify "hello" Demo.live 0 Hd Ho).
Defined.

Lemma send_not_open_witness :
  is_open (world Demo.started) 0 = false /\
  Demo.sendText "hello" Demo.started
  = (Throw (Error "Data channel not open"), Demo.started) /\
  Demo.sendToolResult "call_1" (VObj [("ok", VBool true)]) Demo.started
  = (Throw (Error "Data channel not open"), Demo.started).
Proof.
  assert (Hc : forall d, dataChannel (client Demo.started) = Some d ->
                         is_open (world Demo.started) d = false).
  { intros d Hd. injection Hd as <-. reflexivity. }
  destruct (send_not_open Demo.stringify Demo.started Hc) as [H1 H2].
  split_and!; [reflexivity|apply H1|apply H2].
Defined.


Lemma unknown_type_noop_witness :
  get Demo.future "type" = Ok (VStr "x.future.event") /\
  Demo.handleRealtimeMessage Demo.future Demo.live = (Ok tt, Demo.live) /\
  Demo.onmessage (Demo.stringify Demo.future) Demo.live = (Ok tt, Demo.live).
Proof.
  assert (Hout : forall t, VStr "x.future.event" = VStr t -> t ∉ vocabulary).
  { intros t Ht. injection Ht as <-. intros Hin.
    repeat (apply elem_of_cons in Hin as [Hin|Hin]; [discriminate|]).
    by apply elem_of_nil in Hin. }
  destruct (unknown_type_noop Demo.parse Demo.number_toString Demo.future
              (VStr "x.future.event") Demo.live eq_refl Hout) as [H1 H2].
  split_and!; [reflexivity|exact H1|].
  apply H2. reflexivity.
Defined.

Lemma onmessage_malformed_witness :
  Demo.parse "not json" = None /\
  Demo.onmessage "not json" Demo.live
  = (Ok tt, observe [Console "error" "Failed to parse message:"] Demo.live).
Proof.
  assert (Hp : Demo.parse "not json" = None) by reflexivity.
  split; [exact Hp|].
  exact (onmessage_malformed Demo.parse Demo.number_toString "not json" Demo.live Hp).
Defined.

(** ** The further properties on concrete runs *)

Lemma session_released_witness :
  Demo.connect Demo.quiet None (fresh Demo.config) = (Ok tt, Demo.started) /\
  released (world (fresh Demo.config))
    (world (exec disconnect (Demo.run [EvChannelOpen 0] Demo.started))) /\
  connectionState (client (exec disconnect (Demo.run [EvChannelOpen 0] Demo.started)))
  = disconnected.
Proof.
  assert (Hc : Demo.connect Demo.quiet None (fresh Demo.config) = (Ok tt, Demo.started))
    by (vm_compute; reflexivity).
  split; [exact Hc|].
  exact (session_released Demo.parse Demo.stringify Demo.number_toString
           Demo.quiet None (fresh Demo.config) Demo.started [EvChannelOpen 0] Hc).
Defined.

Lemma playback_mute_applies_witness :
  (forall a, audioElement (client Demo.live) = Some a ->
             a < length (audios (world Demo.live))) /\
  trace (exec (togglePlayback false) Demo.live) = trace Demo.live /\
  au_muted <$> audios (world (exec (togglePlayback false) Demo.live)) !! 0 = Some true.
Proof.
  assert (H : forall a, audioElement (client Demo.live) = Some a ->
                        a < length (audios (world Demo.live))).
  { intros a Ha. injection Ha as <-. simpl. lia. }
  destruct (playback_mute_applies false 7 1 Demo.live H) as (H1 & H2 & _).
  split_and!; [exact H|exact H1|].
  apply H2. reflexivity.
Defined.

Lemma ontrack_one_element_witness :
  (forall a, audioElement (client Demo.started) = Some a ->
             a < length (audios (world Demo.started))) /\
  length (audios (world (exec (ontrack 7 1) Demo.started)))
  = S (length (audios (world Demo.started))).
Proof.
  assert (H : forall a, audioElement (client Demo.started) = Some a ->
                        a < length (audios (world Demo.started))).
  { intros a Ha. discriminate Ha. }
  split; [exact H|].
  destruct (ontrack_one_element 7 1 Demo.started H) as (a & au & _ & _ & _ & H4).
  exact (proj2 H4).
Defined.

Lemma ice_failed_keeps_resources_witness :
  peerConnection (client Demo.live) = Some 0 /\
  connectionState
    (client (Demo.dispatch (EvIceConnectionStateChange 0 ice_failed) Demo.live)) = error /\
  live_conn (world (Demo.dispatch (EvIceConnectionStateChange 0 ice_failed) Demo.live)) 0
  = true.
Proof.
  assert (Hp : peerConnection (client Demo.live) = Some 0) by reflexivity.
  assert (Hc : exists c, conns (world Demo.live) !! 0 = Some c /\ pc_closed c = false)
    by (eexists; split; reflexivity).
  destruct Hc as (c & Hc & Hcl).
  destruct (ice_failed_keeps_resources Demo.parse Demo.stringify Demo.number_toString
              Demo.live 0 c Hp Hc Hcl) as (H1 & _ & _ & _ & _ & H6 & _).
  split_and!; [exact Hp|exact H1|exact H6].
Defined.

Lemma ice_other_states_ignored_witness :
  peerConnection (client Demo.live) = Some 0 /\
  client (Demo.dispatch (EvIceConnectionStateChange 0 ice_disconnected) Demo.live)
  = client Demo.live /\
  trace (Demo.dispatch (EvIceConnectionStateChange 0 ice_disconnected) Demo.live)
  = trace Demo.live.
Proof.
  assert (Hp : peerConnection (client Demo.live) = Some 0) by reflexivity.
  split; [exact Hp|].
  apply (ice_other_states_ignored Demo.parse Demo.stringify Demo.number_toString
           Demo.live 0 ice_disconnected Hp); discriminate.
Defined.

Lemma session_event_elsewhere_witness :
  connectionState (client Demo.live) = connected /\
  Demo.handleRealtimeMessage Demo.session_created Demo.live = (Ok tt, Demo.live).
Proof.
  split; [reflexivity|].
  apply (session_event_elsewhere Demo.parse Demo.number_toString
           Demo.session_created Demo.live (or_introl eq_refl)).
  discriminate.
Defined.

Lemma user_transcript_paths_witness :
  Demo.handleRealtimeMessage Demo.user_item Demo.live
  = (Ok tt, observe (user_turn (client Demo.live) (VStr "hi there")) Demo.live) /\
  Demo.handleRealtimeMessage Demo.transcription_completed Demo.live
  = (Ok tt, observe (user_turn (client Demo.live) (VStr "hi there")) Demo.live).
Proof.
  exact (user_transcript_paths Demo.parse Demo.number_toString
           Demo.user_item Demo.transcription_completed
           (VObj [("role", VStr "user");
                  ("formatted", VObj [("transcript", VStr "hi there")])])
           (VObj [("transcript", VStr "hi there")]) (VStr "hi there") Demo.live
           eq_refl eq_refl eq_refl eq_refl eq_refl eq_refl eq_refl eq_refl).
Defined.

Lemma assistant_text_forwarded_witness :
  Demo.handleRealtimeMessage Demo.transcript_delta Demo.live
  = (Ok tt, observe [CbTranscriptChunk (VStr "Hel")] Demo.live).
Proof.
  exact (proj1 (assistant_text_forwarded Demo.parse Demo.number_toString
                  Demo.transcript_delta (VStr "Hel") Demo.live)
           (or_introl eq_refl) eq_refl).
Defined.

Lemma error_event_reported_witness :
  Demo.handleRealtimeMessage Demo.error_event Demo.live
  = (Ok tt, observe (reported (client Demo.live) (Error "rate limit")) Demo.live) /\
  Demo.handleRealtimeMessage Demo.opaque_error Demo.live
  = (Throw (TypeError "Cannot convert object to primitive value"), Demo.live).
Proof.
  split.
  - exact (proj1 (error_event_reported Demo.parse Demo.number_toString Demo.error_event
                    (VObj [("message", VStr "rate limit")]) (VStr "rate limit") Demo.live
                    eq_refl eq_refl eq_refl)).
  - exact (proj1 (error_event_reported Demo.parse Demo.number_toString Demo.opaque_error
                    (VObj [("message", VObj [("toString", VBool true)])])
                    (VObj [("toString", VBool true)]) Demo.live
                    eq_refl eq_refl eq_refl)).
Defined.

Lemma sendToolResult_open_witness :
  dataChannel (client Demo.live) = Some 0 /\
  is_open (world Demo.live) 0 = true /\
  Demo.sendToolResult "call_1" (VObj [("ok", VBool true)]) Demo.live
  = (Ok tt,
     observe [Sent 0 (Demo.stringify
                        (VObj [("type", VStr "conversation.item.create");
                               ("item",
                                VObj [("type", VStr "function_call_output");
                                      ("call_id", VStr "call_1");
                                      ("output",
                                       VStr (Demo.stringify
                                               (VObj [("ok", VBool true)])))])]));
              Sent 0 (Demo.stringify (VObj [("type", VStr "response.create")]))]
       Demo.live).
Proof.
  assert (Hd : dataChannel (client Demo.live) = Some 0) by reflexivity.
  assert (Ho : is_open (world Demo.live) 0 = true) by reflexivity.
  split_and!; [exact Hd|exact Ho|].
  exact (sendToolResult_open Demo.stringify "call_1" (VObj [("ok", VBool true)])
           Demo.live 0 Hd Ho).
Defined.

Lemma greeting_after_open_witness :
  dataChannel (client Demo.started) = Some 0 /\
  trace (Demo.dispatch EvTimeout (Demo.dispatch (EvChannelOpen 0) Demo.started))
  = (trace Demo.started
     ++ [Sent 0 (Demo.stringify (greeting "Hello! How can I help you today?"))])%list.
Proof.
  assert (Hd : dataChannel (client Demo.started) = Some 0) by reflexivity.
  split; [exact Hd|].
  destruct (greeting_after_open Demo.parse Demo.stringify Demo.number_toString
              Demo.started 0 {| dc_ready := rs_connecting; dc_pc := 0 |}
              Hd eq_refl eq_refl) as (_ & _ & H3).
  exact (proj1 (proj2 H3)).
Defined.

Lemma sampling_single_loop_witness :
  sampling Demo.live /\
  sampling (Demo.run [EvAnimationFrame 1; EvTrack 0 8 1; EvDisconnect] Demo.live).
Proof.
  assert (Hs : sampling Demo.live).
  { split; [simpl; lia|]. right. exists 1. split_and!; [reflexivity|lia|simpl; lia|reflexivity]. }
  split; [exact Hs|].
  exact (sampling_single_loop Demo.parse Demo.stringify Demo.number_toString
           [EvAnimationFrame 1; EvTrack 0 8 1; EvDisconnect] Demo.live Hs).
Defined.

Lemma disconnect_stops_sampling_witness :
  sampling Demo.live /\
  frames (world (exec disconnect Demo.live)) = [] /\
  Demo.run (map EvAnimationFrame [1; 2]) (exec disconnect Demo.live)
  = exec disconnect Demo.live.
Proof.
  assert (Hs : sampling Demo.live).
  { split; [simpl; lia|]. right. exists 1. split_and!; [reflexivity|lia|simpl; lia|reflexivity]. }
  destruct (disconnect_stops_sampling Demo.parse Demo.stringify Demo.number_toString
              Demo.live [1; 2] Hs) as (H1 & _ & H3).
  split_and!; [exact Hs|exact H1|exact H3].
Defined.

Lemma connect_single_loop_witness :
  idle (fresh Demo.config) /\
  sampling (exec (Demo.connect Demo.quiet None) (fresh Demo.config)).
Proof.
  assert (Hi : idle (fresh Demo.config)).
  { split_and!; [split; [simpl; lia|by left]|reflexivity|reflexivity]. }
  split; [exact Hi|].
  exact (connect_single_loop Demo.parse Demo.stringify Demo.number_toString
           Demo.quiet None (fresh Demo.config) Hi).
Defined.

Lemma disconnect_idle_witness :
  sampling Demo.live /\ idle (exec disconnect Demo.live).
Proof.
  assert (Hs : sampling Demo.live).
  { split; [simpl; lia|]. right. exists 1. split_and!; [reflexivity|lia|simpl; lia|reflexivity]. }
  split; [exact Hs|exact (disconnect_idle Demo.live Hs)].
Defined.

Lemma token_refused_witness :
  token_response Demo.unauthorized = Ok {| status := 401 |} /\
  exists s',
    Demo.connect Demo.unauthorized None (fresh Demo.config)
    = (Throw (Error ("Failed to fetch token: " +:+ pretty 401)), s') /\
    untouched (world (fresh Demo.config)) s'.
Proof.
  split; [reflexivity|].
  destruct (token_refused Demo.parse Demo.stringify Demo.number_toString
              Demo.unauthorized None (fresh Demo.config) {| status := 401 |}
              eq_refl eq_refl) as (s' & H1 & H2 & _).
  exists s'. split; [exact H1|exact H2].
Defined.

Lemma connect_ignores_microphone_switch_witness :
  tasks Demo.quiet = [] /\
  Demo.connect Demo.quiet None Demo.switched_off = (Ok tt, Demo.switched_off_started) /\
  microphoneMuted (client Demo.switched_off) = true /\
  microphoneMuted (client Demo.switched_off_started) = true /\
  tracks (world Demo.switched_off_started) !! 0 = Some fresh_track.
Proof.
  assert (Hq : tasks Demo.quiet = []) by reflexivity.
  assert (Hc : Demo.connect Demo.quiet None Demo.switched_off
               = (Ok tt, Demo.switched_off_started))
    by (vm_compute; reflexivity).
  destruct (connect_ignores_microphone_switch Demo.parse Demo.stringify
              Demo.number_toString Demo.quiet None Demo.switched_off
              Demo.switched_off_started Hq Hc) as (H1 & ts & H2 & H3).
  split_and!; [exact Hq|exact Hc|reflexivity|exact H1|].
  apply H3. injection H2 as <-. apply elem_of_cons. by left.
Defined.

Lemma client_secret_without_key_witness :
  realtime.posts (snd (Demo.client_secret Demo.keyless Demo.granted Demo.request [])) = [] /\
  realtime.replies (snd (Demo.client_secret Demo.keyless Demo.granted Demo.request []))
  = [(400, VObj [("error", VStr "OpenAI API key not configured")])].
Proof.
  exact (client_secret_without_key Demo.stringify Demo.number_toString Demo.isUserProvided
           Demo.keyless Demo.granted Demo.request eq_refl eq_refl
           (or_introl (conj eq_refl eq_refl))).
Defined.

Lemma upstream_failure_relayed_witness :
  realtime.posts (snd (Demo.client_secret Demo.env Demo.rejected Demo.request [])) <> [] /\
  realtime.replies (snd (Demo.client_secret Demo.env Demo.rejected Demo.request []))
  = [(401, VObj [("error", VStr "Failed to get ephemeral token");
                 ("details", VStr "invalid key")])].
Proof.
  assert (Hp : realtime.posts
                 (snd (Demo.client_secret Demo.env Demo.rejected Demo.request [])) <> [])
    by (intros H; discriminate H).
  split; [exact Hp|].
  exact (upstream_failure_relayed Demo.stringify Demo.number_toString Demo.isUserProvided
           Demo.env Demo.rejected Demo.request {| status := 401 |} "invalid key"
           Hp eq_refl eq_refl eq_refl).
Defined.

Lemma success_after_upstream_witness :
  (200, Demo.secret_reply)
  ∈ realtime.replies (snd (Demo.client_secret Demo.env Demo.granted Demo.request [])) /\
  exists key body,
    realtime.posts (snd (Demo.client_secret Demo.env Demo.granted Demo.request []))
    = [("https://proxy.example/v1/realtime/sessions",
        "Bearer " +:+ ToString Demo.number_toString key, body)].
Proof.
  assert (Hin : (200, Demo.secret_reply)
                ∈ realtime.replies
                    (snd (Demo.client_secret Demo.env Demo.granted Demo.request [])))
    by (apply elem_of_cons; left; reflexivity).
  split; [exact Hin|].
  destruct (success_after_upstream Demo.stringify Demo.number_toString Demo.isUserProvided
              Demo.env Demo.granted Demo.request Demo.secret_reply Hin)
    as (r & data & key & body & _ & _ & _ & _ & H).
  exists key, body. exact H.
Defined.

Lemma reply_read_by_client_witness :
  (200, Demo.secret_reply)
  ∈ realtime.replies (snd (Demo.client_secret Demo.env Demo.granted Demo.request [])) /\
  call_endpoint Demo.secret_reply = Ok "https://api.openai.com/v1/realtime/calls".
Proof.
  assert (Hin : (200, Demo.secret_reply)
                ∈ realtime.replies
                    (snd (Demo.client_secret Demo.env Demo.granted Demo.request [])))
    by (apply elem_of_cons; left; reflexivity).
  split; [exact Hin|].
  exact (proj2 (reply_read_by_client Demo.stringify Demo.number_toString
                  Demo.isUserProvided Demo.env Demo.granted Demo.request
                  Demo.secret_reply Hin)).
Defined.
